(** * llm-codes: crawl orchestration endpoints

    A shallow embedding of the three crawl route handlers

    - [POST /api/crawl/start]          (crawl start, cache-first short-circuit),
    - [POST /api/crawl/seed]           (URL manifest bootstrap),
    - [GET  /api/crawl/{jobId}/status] (the polling status stream),

    over an explicit model of the stores they talk to.  Handlers are
    state-passing functions on a [World]; everything the handlers await
    from outside (the remote provider's answers, how long a request took,
    the wall clock) is an explicit input. *)

From Stdlib Require Import ZArith NArith QArith Lia.
From stdpp Require Import base option list gmap strings pretty.

Open Scope Z_scope.

(** ** JavaScript values as the handlers use them *)

Module Js.

(** Truthiness of a possibly missing string: [undefined], [null] and the
    empty string are falsy. *)
Definition truthy (o : option string) : bool :=
  match o with
  | Some s => negb (String.eqb s "")
  | None => false
  end.

(** [a || b] on possibly missing strings. *)
Definition or_else (o : option string) (d : string) : string :=
  if truthy o then default d o else d.

(** A string of the model holds the UTF-8 bytes of the JavaScript string
    it stands for.  [units b] is what the byte [b] adds to the number of
    UTF-16 code units of the string: a byte that begins a code point of
    one, two or three bytes adds one unit, a byte that begins a code
    point of four bytes (beyond U+FFFF, a surrogate pair) adds two, and
    a continuation byte (0x80 to 0xBF) adds none. *)
Definition units (b : Ascii.ascii) : nat :=
  let n := Ascii.N_of_ascii b in
  if (n <? 128)%N then 1%nat
  else if (n <? 192)%N then 0%nat
  else if (n <? 240)%N then 1%nat
  else 2%nat.

(** [s.length]: the number of UTF-16 code units of [s]. *)
Fixpoint length (s : string) : nat :=
  match s with
  | EmptyString => 0%nat
  | String b s => (units b + length s)%nat
  end.

(** [Array.prototype.slice(0, n)]. *)
Definition slice0 {A} (n : nat) (l : list A) : list A := take n l.

(** [Array.prototype.every]. *)
Definition every {A} (p : A → bool) (l : list A) : bool := forallb p l.

End Js.

(** ** Constants ([PROCESSING_CONFIG]) *)

Module PROCESSING_CONFIG.
Definition MAX_ALLOWED_URLS : Z := 2000.
Definition FIRECRAWL_WAIT_TIME : Z := 30000.
Definition FIRECRAWL_TIMEOUT : Z := 60000.
Definition FETCH_TIMEOUT : Z := 90000.
Definition MIN_CONTENT_LENGTH : nat := 200.
End PROCESSING_CONFIG.

Definition FIRECRAWL_API_URL : string := "https://api.firecrawl.dev/v1".

(** ** Data model *)

(** One entry of the provider's [data] array: [page.metadata?.sourceURL]
    and [page.markdown], either of which may be missing. *)
Record Page := {
  sourceURL : option string;
  markdown : option string;
}.

(** Crawl job metadata as the handlers read and write it.  [status] is a
    free string: the reconciler merges the provider's own status word
    into it.  Timestamps are milliseconds. *)
Module Job.
Record CrawlJob := {
  id : string;
  url : string;
  limit : Z;
  status : string;
  startedAt : Z;
  totalPages : N;
  completedPages : N;
  failedPages : N;
  creditsUsed : N;
  crawledUrls : option (list string);
  expiresAt : option string;
  next : option string;
  lastPageNumber : option N;
  completedAt : option Z;
  failedAt : option Z;
}.
End Job.
Abbreviation CrawlJob := Job.CrawlJob.

Inductive BreakerState := closed | open | half_open.

Record CircuitState := {
  state : BreakerState;
  failureCount : N;
  successCount : N;
  openedAt : option Z;
}.

Record BreakerConfig := {
  failureThreshold : N;
  successThreshold : N;
  timeout : Z;
}.

(** A call made to the remote provider. *)
Inductive ProviderCall :=
| ProviderPost (startUrl : string) (enforcedLimit : Z)
| ProviderGet (statusUrl : string).

(** Everything the handlers share: the tiered cache (page URL to content),
    the job store, stored result batches, the URL manifests, the breaker,
    and the log of calls made to the remote provider (newest first). *)
Record World := {
  pages : gmap string string;
  jobs : gmap string CrawlJob;
  results : gmap (string * N) (list Page);
  urlMaps : gmap string (list string);
  breaker : CircuitState;
  calls : list ProviderCall;
}.

Definition set_pages (f : gmap string string → gmap string string) (w : World) : World :=
  {| pages := f (pages w); jobs := jobs w; results := results w;
     urlMaps := urlMaps w; breaker := breaker w; calls := calls w |}.

Definition set_jobs (f : gmap string CrawlJob → gmap string CrawlJob) (w : World) : World :=
  {| pages := pages w; jobs := f (jobs w); results := results w;
     urlMaps := urlMaps w; breaker := breaker w; calls := calls w |}.

Definition set_results (f : gmap (string * N) (list Page) → gmap (string * N) (list Page))
    (w : World) : World :=
  {| pages := pages w; jobs := jobs w; results := f (results w);
     urlMaps := urlMaps w; breaker := breaker w; calls := calls w |}.

Definition set_urlMaps (f : gmap string (list string) → gmap string (list string))
    (w : World) : World :=
  {| pages := pages w; jobs := jobs w; results := results w;
     urlMaps := f (urlMaps w); breaker := breaker w; calls := calls w |}.

Definition set_breaker (f : CircuitState → CircuitState) (w : World) : World :=
  {| pages := pages w; jobs := jobs w; results := results w;
     urlMaps := urlMaps w; breaker := f (breaker w); calls := calls w |}.

Definition log_call (c : ProviderCall) (w : World) : World :=
  {| pages := pages w; jobs := jobs w; results := results w;
     urlMaps := urlMaps w; breaker := breaker w; calls := c :: calls w |}.

(** ** The cache service ([@/lib/cache/redis-cache]) *)

Module cacheService.

(** Modelled from the spec: [redis-cache.ts] is not among the sources.
    [get(key) → value | absent] of the Tiered Cache (4.1); keys are the
    page URLs themselves, hashing and the two tiers are not modelled. *)
Definition get (u : string) (w : World) : option string := pages w !! u.

(** Modelled from the spec: [set(key, value, ttl)] of the Tiered Cache
    (4.1), whole-value replacement; expiry is not modelled. *)
Definition set (u content : string) (w : World) : World :=
  set_pages <[u := content]> w.

(** Modelled from the spec: [multiGet(keys) → map key→value|absent]
    (4.1).  The result has one entry per requested key, holding the
    content or [None] for JavaScript's [null]. *)
Definition mget (us : list string) (w : World) : gmap string (option string) :=
  list_to_map ((λ u, (u, pages w !! u)) <$> us).

(** Modelled from the spec: [get(startUrl) → urls|absent] of the URL
    Manifest Store (4.5), keyed by the start URL. *)
Definition getCrawlUrlMap (startUrl : string) (w : World) : option (list string) :=
  urlMaps w !! startUrl.

(** Modelled from the spec: [put(startUrl, urls, ttl)] of the URL
    Manifest Store (4.5), overwriting any prior manifest. *)
Definition setCrawlUrlMap (startUrl : string) (us : list string) (w : World) : World :=
  set_urlMaps <[startUrl := us]> w.

(** Modelled from the spec: [createJob(metadata, ttl)] of the Job Store (4.4). *)
Definition setCrawlJob (jobId : string) (j : CrawlJob) (w : World) : World :=
  set_jobs <[jobId := j]> w.

(** Modelled from the spec: [getJob(id) → metadata|absent] (4.4). *)
Definition getCrawlJob (jobId : string) (w : World) : option CrawlJob :=
  jobs w !! jobId.

(** Modelled from the spec: [updateJob(id, partialUpdate)] (4.4), a
    read-merge-write.  The partial update is given as the merge it
    performs on the stored object; an absent job stays absent. *)
Definition updateCrawlJobStatus (jobId : string) (merge : CrawlJob → CrawlJob)
    (w : World) : World :=
  set_jobs (alter merge jobId) w.

(** Modelled from the spec: [putResultPage(jobId, pageNumber, records, ttl)] (4.4). *)
Definition setCrawlResults (jobId : string) (pageNumber : N) (records : list Page)
    (w : World) : World :=
  set_results <[(jobId, pageNumber) := records]> w.

Module firecrawlCircuitBreaker.

(** Modelled from the spec: [canRequest()] of the Circuit Breaker (4.3):
    closed and half-open let requests through, open refuses them until
    the timeout since [openedAt] has elapsed. *)
Definition canRequest (cfg : BreakerConfig) (now : Z) (w : World) : bool :=
  match state (breaker w) with
  | closed | half_open => true
  | open =>
      match openedAt (breaker w) with
      | Some t => timeout cfg <=? now - t
      | None => false
      end
  end.

(** Modelled from the spec: [recordFailure()] (4.3). *)
Definition recordFailure (cfg : BreakerConfig) (now : Z) (w : World) : World :=
  set_breaker (λ b,
    match state b with
    | closed =>
        let n := (failureCount b + 1)%N in
        if (failureThreshold cfg <=? n)%N
        then {| state := open; failureCount := n; successCount := 0; openedAt := Some now |}
        else {| state := closed; failureCount := n; successCount := successCount b;
                openedAt := openedAt b |}
    | half_open | open =>
        {| state := open; failureCount := failureCount b; successCount := 0;
           openedAt := Some now |}
    end) w.

(** Modelled from the spec: [recordSuccess()] (4.3). *)
Definition recordSuccess (cfg : BreakerConfig) (w : World) : World :=
  set_breaker (λ b,
    match state b with
    | half_open =>
        let n := (successCount b + 1)%N in
        if (successThreshold cfg <=? n)%N
        then {| state := closed; failureCount := 0; successCount := 0; openedAt := None |}
        else {| state := half_open; failureCount := failureCount b; successCount := n;
                openedAt := openedAt b |}
    | closed =>
        {| state := closed; failureCount := 0; successCount := successCount b;
           openedAt := openedAt b |}
    | open => b
    end) w.

End firecrawlCircuitBreaker.

End cacheService.

(** ** [POST /api/crawl/seed] *)

Module Seed.
Section Seed.

(** [isValidDocumentationUrl] of [@/utils/url-utils], the allow-list test. *)
Variable isValidDocumentationUrl : string → bool.

(** The JSON body: [url] and [pageUrls] may each be missing (or of the
    wrong type, which the handler treats the same way). *)
Record Body := {
  b_url : option string;
  b_pageUrls : option (list string);
}.

Inductive Response :=
| Error (httpStatus : Z) (error : string) (missingUrls : option (list string))
| Stored (url : string) (stored missing : nat) (missingUrls : option (list string)).

(** [cached.get(u) !== null]: a key the map does not hold reads as
    [undefined], which is not [null]. *)
Definition not_null (cached : gmap string (option string)) (u : string) : bool :=
  match cached !! u with
  | Some None => false
  | _ => true
  end.

(** The handler.  [None] for the body stands for [request.json()]
    throwing, which the outer [catch] turns into a 500. *)
Definition POST (body : option Body) (w : World) : Response * World :=
  match body with
  | None => (Error 500 "Internal server error" None, w)
  | Some body =>
      if negb (Js.truthy (b_url body)) then
        (Error 400 "Missing required field: url" None, w)
      else
        let url := default "" (b_url body) in
        match b_pageUrls body with
        | None | Some [] =>
            (Error 400 "Missing required field: pageUrls (non-empty array)" None, w)
        | Some pageUrls =>
            if negb (isValidDocumentationUrl url) then
              (Error 400 "Invalid URL. Must be from an allowed documentation domain" None, w)
            else
              let cached := cacheService.mget pageUrls w in
              let cachedUrls := List.filter (not_null cached) pageUrls in
              let missingUrls := List.filter (λ u, negb (not_null cached u)) pageUrls in
              if (length cachedUrls =? 0)%nat then
                (Error 404 "None of the provided page URLs are cached" (Some missingUrls), w)
              else
                let w' := cacheService.setCrawlUrlMap url cachedUrls w in
                (Stored url (length cachedUrls) (length missingUrls)
                   (if (0 <? length missingUrls)%nat then Some missingUrls else None),
                 w')
        end
  end.

End Seed.
End Seed.

(** ** [POST /api/crawl/start] *)

Module Start.
Section Start.

Variable isValidDocumentationUrl : string → bool.
Variable breakerConfig : BreakerConfig.

(** The JSON body [{ url, limit = 10, force = false }]. *)
Record Body := {
  b_url : string;
  b_limit : option Z;
  b_force : bool;
}.

(** What is left of a non-2xx provider response once the handler has
    tried [response.text()] and [JSON.parse] on it. *)
Inductive ErrorBody :=
| Unreadable
| Text (errorText : string)
| Json (errorText : string) (error message details : option string).

(** Outcome of [http2Fetch(`${FIRECRAWL_API_URL}/crawl`, ...)] followed by
    reading the response. *)
Inductive Fetched :=
| Threw (message : option string)
| Ok (success : bool) (id : option string) (creditsUsed : option N) (error : option string)
| NotOk (httpStatus : Z) (body : ErrorBody).

(** What the handler takes from its surroundings: the environment
    variable, the clock, [crypto.randomUUID()], and the provider's answer
    should the handler ask for it. *)
Record Env := {
  FIRECRAWL_API_KEY : option string;
  now : Z;
  randomUUID : string;
  fetched : Fetched;
}.

Inductive Response :=
| Failure (httpStatus : Z) (error : string) (details : option string)
    (circuitBreaker : option string)
| Success (jobId url : string) (limit : Z) (cached : bool).

Definition not_null (cached : gmap string (option string)) (u : string) : bool :=
  match cached !! u with
  | Some None => false
  | _ => true
  end.

(** The spot check of the cache-first path: the first [min(3, length)]
    manifest entries, looked up with one [mget]. *)
Definition allCached (cachedUrls : list string) (w : World) : bool :=
  let sample := Js.slice0 (Nat.min 3 (length cachedUrls)) cachedUrls in
  let cached := cacheService.mget sample w in
  Js.every (not_null cached) sample.

Definition cacheHitJob (jobId url : string) (enforcedLimit now : Z)
    (cachedUrls : list string) : CrawlJob :=
  {| Job.id := jobId; Job.url := url; Job.limit := enforcedLimit; Job.status := "cache_hit";
     Job.startedAt := now;
     Job.totalPages := N.of_nat (length cachedUrls);
     Job.completedPages := N.of_nat (length cachedUrls);
     Job.failedPages := 0; Job.creditsUsed := 0;
     Job.crawledUrls := Some cachedUrls;
     Job.expiresAt := None; Job.next := None; Job.lastPageNumber := None;
     Job.completedAt := None; Job.failedAt := None |}.

Definition crawlingJob (jobId url : string) (limit now : Z) (credits : option N) : CrawlJob :=
  {| Job.id := jobId; Job.url := url; Job.limit := limit; Job.status := "crawling";
     Job.startedAt := now;
     Job.totalPages := 0; Job.completedPages := 0; Job.failedPages := 0;
     Job.creditsUsed := default 0%N credits;
     Job.crawledUrls := None;
     Job.expiresAt := None; Job.next := None; Job.lastPageNumber := None;
     Job.completedAt := None; Job.failedAt := None |}.

(** The error message of a non-2xx provider response. *)
Definition errorMessage (httpStatus : Z) (body : ErrorBody) : string :=
  if httpStatus =? 429 then "Rate limit exceeded. Please try again in a few moments."
  else if httpStatus =? 403 then "Access forbidden. The API key might be invalid."
  else if 500 <=? httpStatus then "Server error. Please try again later."
  else
    match body with
    | Unreadable => "Firecrawl API error (" +:+ pretty httpStatus +:+ ")"
    | Text t => "Firecrawl API error: " +:+ t
    | Json t e m _ => Js.or_else e (Js.or_else m t)
    end.

Definition errorDetails (body : ErrorBody) : option string :=
  match body with
  | Json _ _ _ d => if Js.truthy d then d else None
  | _ => None
  end.

(** The remote branch: one call to the provider, then bookkeeping. *)
Definition startRemote (env : Env) (url : string) (limit enforcedLimit : Z) (w : World)
    : Response * World :=
  let w := log_call (ProviderPost url enforcedLimit) w in
  match fetched env with
  | Ok success jid credits err =>
      if success && Js.truthy jid then
        let jid := default "" jid in
        let w := cacheService.setCrawlJob jid (crawlingJob jid url limit (now env) credits) w in
        let w := cacheService.firecrawlCircuitBreaker.recordSuccess breakerConfig w in
        (Success jid url limit false, w)
      else
        (Failure 500
           ("Failed to start crawl: " +:+ Js.or_else err "No job ID returned from crawl API")
           None None, w)
  | NotOk httpStatus body =>
      let w := if 500 <=? httpStatus
               then cacheService.firecrawlCircuitBreaker.recordFailure breakerConfig (now env) w
               else w in
      (Failure httpStatus (errorMessage httpStatus body) (errorDetails body) None, w)
  | Threw message =>
      let w := cacheService.firecrawlCircuitBreaker.recordFailure breakerConfig (now env) w in
      (Failure 500 ("Network error: " +:+ default "Unknown error occurred" message) None None, w)
  end.

(** The handler.  [None] for the body stands for [request.json()]
    throwing. *)
Definition POST (env : Env) (body : option Body) (w : World) : Response * World :=
  if negb (Js.truthy (FIRECRAWL_API_KEY env)) then
    (Failure 500 "Server configuration error" None None, w)
  else
    match body with
    | None => (Failure 500 "Internal server error" None None, w)
    | Some body =>
        let url := b_url body in
        let limit := default 10 (b_limit body) in
        let enforcedLimit := Z.min limit PROCESSING_CONFIG.MAX_ALLOWED_URLS in
        if negb (isValidDocumentationUrl url) then
          (Failure 400 "Invalid URL. Must be from an allowed documentation domain" None None, w)
        else if negb (cacheService.firecrawlCircuitBreaker.canRequest breakerConfig (now env) w)
        then
          (Failure 503 "Documentation service is temporarily unavailable"
             (Some "The service is experiencing high failure rates. Please try again in a minute.")
             (Some "open"), w)
        else
          let hit :=
            if b_force body then None
            else
              match cacheService.getCrawlUrlMap url w with
              | Some cachedUrls =>
                  if (0 <? length cachedUrls)%nat && allCached cachedUrls w
                  then Some cachedUrls else None
              | None => None
              end in
          match hit with
          | Some cachedUrls =>
              let jobId := randomUUID env in
              let w := cacheService.setCrawlJob jobId
                         (cacheHitJob jobId url enforcedLimit (now env) cachedUrls) w in
              (Success jobId url enforcedLimit true, w)
          | None => startRemote env url limit enforcedLimit w
          end
    end.

End Start.
End Start.

(** ** [GET /api/crawl/{jobId}/status] *)

Module Status.

(** [CrawlStatusMessage], one constructor per [type]. *)
Inductive CrawlStatusMessage :=
| msg_status (status : string)
| msg_progress (progress total : N) (creditsUsed : option N)
| msg_url_complete (url content : string) (cached : bool)
| msg_error (error : string)
| msg_complete (total creditsUsed : N).

(** The JSON body of a 2xx poll response.  Counts are the provider's
    page counts, natural numbers; a missing count reads as [0]. *)
Record PollData := {
  d_status : string;
  d_completed : N;
  d_total : N;
  d_creditsUsed : option N;
  d_expiresAt : option string;
  d_next : option string;
  d_data : option (list Page);
}.

(** Outcome of one [http2Fetch(statusUrl)]: the request or the reading of
    the body threw, or a 2xx response with its body, or any other
    response. *)
Inductive Fetched :=
| Threw (message : option string)
| Ok (data : PollData)
| NotOk (httpStatus : Z).

(** One poll as the loop experiences it: how long the request took
    ([fetchMs], up to reading the body), how long the store and cache
    writes of that iteration took ([storeMs], between the progress check
    and the stall check), and what came back.  These two waits and the
    sleep between polls are where the clock moves; the rest of an
    iteration is taken to be instantaneous. *)
Record Poll := {
  fetchMs : N;
  storeMs : N;
  fetched : Fetched;
}.

Record Env := {
  FIRECRAWL_API_KEY : option string;
  now : Z;
}.

Definition pollInterval : Z := 2000.
Definition maxPollingTime : Z := 480000.
Definition maxConsecutiveErrors : N := 5.
Definition maxStallTime : Z := 60000.
Definition absoluteMaxStallTime : Z := 120000.
Definition minProgressRate : Q := 1 # 60000.

(** The local variables of [start(controller)], the clock, the messages
    enqueued so far (oldest first) and the stores. *)
Record Stream := {
  isComplete : bool;
  lastPageNumber : N;
  consecutiveErrors : N;
  lastProgressUpdate : Z;
  lastCompletedCount : N;
  sentUrls : list string;
  jobNext : option string;
  clock : Z;
  out : list CrawlStatusMessage;
  world : World;
}.

Definition enqueue (m : CrawlStatusMessage) (s : Stream) : Stream :=
  {| isComplete := isComplete s; lastPageNumber := lastPageNumber s;
     consecutiveErrors := consecutiveErrors s; lastProgressUpdate := lastProgressUpdate s;
     lastCompletedCount := lastCompletedCount s; sentUrls := sentUrls s;
     jobNext := jobNext s; clock := clock s; out := out s ++ [m]; world := world s |}.

Definition on_world (f : World → World) (s : Stream) : Stream :=
  {| isComplete := isComplete s; lastPageNumber := lastPageNumber s;
     consecutiveErrors := consecutiveErrors s; lastProgressUpdate := lastProgressUpdate s;
     lastCompletedCount := lastCompletedCount s; sentUrls := sentUrls s;
     jobNext := jobNext s; clock := clock s; out := out s; world := f (world s) |}.

(** Time passing while the handler awaits something. *)
Definition elapse (ms : Z) (s : Stream) : Stream :=
  {| isComplete := isComplete s; lastPageNumber := lastPageNumber s;
     consecutiveErrors := consecutiveErrors s; lastProgressUpdate := lastProgressUpdate s;
     lastCompletedCount := lastCompletedCount s; sentUrls := sentUrls s;
     jobNext := jobNext s; clock := clock s + ms; out := out s; world := world s |}.

Definition set_isComplete (b : bool) (s : Stream) : Stream :=
  {| isComplete := b; lastPageNumber := lastPageNumber s;
     consecutiveErrors := consecutiveErrors s; lastProgressUpdate := lastProgressUpdate s;
     lastCompletedCount := lastCompletedCount s; sentUrls := sentUrls s;
     jobNext := jobNext s; clock := clock s; out := out s; world := world s |}.

Definition set_lastPageNumber (n : N) (s : Stream) : Stream :=
  {| isComplete := isComplete s; lastPageNumber := n;
     consecutiveErrors := consecutiveErrors s; lastProgressUpdate := lastProgressUpdate s;
     lastCompletedCount := lastCompletedCount s; sentUrls := sentUrls s;
     jobNext := jobNext s; clock := clock s; out := out s; world := world s |}.

Definition set_consecutiveErrors (n : N) (s : Stream) : Stream :=
  {| isComplete := isComplete s; lastPageNumber := lastPageNumber s;
     consecutiveErrors := n; lastProgressUpdate := lastProgressUpdate s;
     lastCompletedCount := lastCompletedCount s; sentUrls := sentUrls s;
     jobNext := jobNext s; clock := clock s; out := out s; world := world s |}.

(** [lastProgressUpdate = Date.now(); lastCompletedCount = data.completed]. *)
Definition noteProgress (completed : N) (s : Stream) : Stream :=
  {| isComplete := isComplete s; lastPageNumber := lastPageNumber s;
     consecutiveErrors := consecutiveErrors s; lastProgressUpdate := clock s;
     lastCompletedCount := completed; sentUrls := sentUrls s;
     jobNext := jobNext s; clock := clock s; out := out s; world := world s |}.

(** [sentUrls.add(u)]: a JavaScript [Set] keeps insertion order. *)
Definition addSent (u : string) (s : Stream) : Stream :=
  {| isComplete := isComplete s; lastPageNumber := lastPageNumber s;
     consecutiveErrors := consecutiveErrors s; lastProgressUpdate := lastProgressUpdate s;
     lastCompletedCount := lastCompletedCount s;
     sentUrls := if bool_decide (u ∈ sentUrls s) then sentUrls s else sentUrls s ++ [u];
     jobNext := jobNext s; clock := clock s; out := out s; world := world s |}.

Definition set_jobNext (n : option string) (s : Stream) : Stream :=
  {| isComplete := isComplete s; lastPageNumber := lastPageNumber s;
     consecutiveErrors := consecutiveErrors s; lastProgressUpdate := lastProgressUpdate s;
     lastCompletedCount := lastCompletedCount s; sentUrls := sentUrls s;
     jobNext := n; clock := clock s; out := out s; world := world s |}.

(** The body of [for (const url of jobMetadata.crawledUrls)]: a URL
    whose content is no longer in the cache (or is empty) is passed
    over. *)
Definition serveOne (s : Stream) (url : string) : Stream :=
  let content := cacheService.get url (world s) in
  if Js.truthy content
  then enqueue (msg_url_complete url (default "" content) true) s
  else s.

(** The fast path: serve the job's [crawledUrls] from the cache, then
    send [complete]. *)
Definition serveCached (crawledUrls : list string) (s : Stream) : Stream :=
  let s := fold_left serveOne crawledUrls s in
  enqueue (msg_complete (N.of_nat (length crawledUrls)) 0) s.

(** The body of [for (const page of data.data)]. *)
Definition processPage (s : Stream) (page : Page) : Stream :=
  if Js.truthy (sourceURL page)
     && negb (bool_decide (default "" (sourceURL page) ∈ sentUrls s)) then
    let url := default "" (sourceURL page) in
    let s := addSent url s in
    let content := Js.or_else (markdown page) "" in
    let cachedContent := cacheService.get url (world s) in
    if Js.truthy cachedContent then
      enqueue (msg_url_complete url (default "" cachedContent) true) s
    else
      let s := if (PROCESSING_CONFIG.MIN_CONTENT_LENGTH <=? Js.length content)%nat
               then on_world (cacheService.set url content) s else s in
      enqueue (msg_url_complete url content false) s
  else s.

(** [updatedMetadata], as the merge it performs on the stored job. *)
Definition updatedMetadata (data : PollData) (lastPageNumber : N) (j : CrawlJob) : CrawlJob :=
  {| Job.id := Job.id j; Job.url := Job.url j; Job.limit := Job.limit j;
     Job.status := d_status data;
     Job.startedAt := Job.startedAt j;
     Job.totalPages := d_total data;
     Job.completedPages := d_completed data;
     Job.failedPages := Job.failedPages j;
     Job.creditsUsed := default 0%N (d_creditsUsed data);
     Job.crawledUrls := Job.crawledUrls j;
     Job.expiresAt := d_expiresAt data;
     Job.next := d_next data;
     Job.lastPageNumber :=
       Some (match d_data data with
             | Some _ => (lastPageNumber + 1)%N
             | None => lastPageNumber
             end);
     Job.completedAt := Job.completedAt j; Job.failedAt := Job.failedAt j |}.

Definition markCompleted (at_ : Z) (j : CrawlJob) : CrawlJob :=
  {| Job.id := Job.id j; Job.url := Job.url j; Job.limit := Job.limit j;
     Job.status := "completed";
     Job.startedAt := Job.startedAt j; Job.totalPages := Job.totalPages j;
     Job.completedPages := Job.completedPages j; Job.failedPages := Job.failedPages j;
     Job.creditsUsed := Job.creditsUsed j; Job.crawledUrls := Job.crawledUrls j;
     Job.expiresAt := Job.expiresAt j; Job.next := Job.next j;
     Job.lastPageNumber := Job.lastPageNumber j;
     Job.completedAt := Some at_; Job.failedAt := Job.failedAt j |}.

Definition markFailed (at_ : Z) (j : CrawlJob) : CrawlJob :=
  {| Job.id := Job.id j; Job.url := Job.url j; Job.limit := Job.limit j;
     Job.status := "failed";
     Job.startedAt := Job.startedAt j; Job.totalPages := Job.totalPages j;
     Job.completedPages := Job.completedPages j; Job.failedPages := Job.failedPages j;
     Job.creditsUsed := Job.creditsUsed j; Job.crawledUrls := Job.crawledUrls j;
     Job.expiresAt := Job.expiresAt j; Job.next := Job.next j;
     Job.lastPageNumber := Job.lastPageNumber j;
     Job.completedAt := Job.completedAt j; Job.failedAt := Some at_ |}.

(** [data.completed && data.total ? data.completed / data.total : 0], as
    an exact rational. *)
Definition completionRatio (data : PollData) : Q :=
  match d_completed data, d_total data with
  | Npos _, Npos t => Z.of_N (d_completed data) # t
  | _, _ => 0
  end.

(** Pages per millisecond since the last recorded progress. *)
Definition progressRate (data : PollData) (lastCompletedCount : N)
    (timeSinceLastProgress : Z) : Q :=
  match d_completed data, timeSinceLastProgress with
  | Npos _, Zpos t => (Z.of_N (d_completed data) - Z.of_N lastCompletedCount) # t
  | _, _ => 0
  end.

Definition Qlt_bool (a b : Q) : bool := negb (Qle_bool b a).

(** The stall and run-time predicates, from the two readings of the
    clock [timeSinceLastProgress] and [totalRunTime]. *)
Record Predicates := {
  hasStalled : bool;
  hasAbsolutelyStalled : bool;
  isNearComplete : bool;
  isMostlyComplete : bool;
  isMakingSlowProgress : bool;
  hasExceededMaxTime : bool;
}.

Definition predicates (data : PollData) (lastCompletedCount : N)
    (timeSinceLastProgress totalRunTime : Z) : Predicates :=
  {| hasStalled := maxStallTime <? timeSinceLastProgress;
     hasAbsolutelyStalled := absoluteMaxStallTime <? timeSinceLastProgress;
     isNearComplete := Qle_bool (95 # 100) (completionRatio data);
     isMostlyComplete := Qle_bool (80 # 100) (completionRatio data);
     isMakingSlowProgress :=
       Qlt_bool (progressRate data lastCompletedCount timeSinceLastProgress) minProgressRate
       && (10 <? d_completed data)%N;
     hasExceededMaxTime := 480000 <? totalRunTime |}.

(** The condition of the [if] that treats the crawl as complete. *)
Definition crawlIsComplete (data : PollData) (p : Predicates) : bool :=
  String.eqb (d_status data) "completed"
  || (String.eqb (d_status data) "scraping" && negb (Js.truthy (d_next data))
      && (d_completed data =? d_total data)%N)
  || (hasStalled p && isNearComplete p && negb (Js.truthy (d_next data)))
  || (hasStalled p && isMostlyComplete p && isMakingSlowProgress p)
  || (hasAbsolutelyStalled p && Qle_bool (5 # 10) (completionRatio data))
  || hasExceededMaxTime p.

(** First part of the [response.ok] branch: reset the error counter,
    note progress, merge the metadata, send [status] and [progress], and
    take in the batch of pages. *)
Definition ingest (jobId : string) (data : PollData) (s : Stream) : Stream :=
  let s := set_consecutiveErrors 0 s in
  let s := if (0 <? d_completed data)%N && (lastCompletedCount s <? d_completed data)%N
           then noteProgress (d_completed data) s else s in
  let s := on_world (cacheService.updateCrawlJobStatus jobId
                       (updatedMetadata data (lastPageNumber s))) s in
  let s := enqueue (msg_status (d_status data)) s in
  let s := enqueue (msg_progress (d_completed data) (d_total data) (d_creditsUsed data)) s in
  match d_data data with
  | Some batch =>
      let s := on_world (cacheService.setCrawlResults jobId (lastPageNumber s) batch) s in
      let s := fold_left processPage batch s in
      set_lastPageNumber (lastPageNumber s + 1)%N s
  | None => s
  end.

(** Second part: decide whether the crawl is over. *)
Definition conclude (jobId startUrl : string) (startTime : Z) (data : PollData)
    (s : Stream) : Stream :=
  let timeSinceLastProgress := clock s - lastProgressUpdate s in
  let totalRunTime := clock s - startTime in
  let p := predicates data (lastCompletedCount s) timeSinceLastProgress totalRunTime in
  if crawlIsComplete data p then
    let s := set_isComplete true s in
    let s := on_world (cacheService.updateCrawlJobStatus jobId (markCompleted (clock s))) s in
    let s := if (0 <? length (sentUrls s))%nat
             then on_world (cacheService.setCrawlUrlMap startUrl (sentUrls s)) s else s in
    enqueue (msg_complete (d_total data) (default 0%N (d_creditsUsed data))) s
  else if String.eqb (d_status data) "failed" then
    let s := set_isComplete true s in
    let s := on_world (cacheService.updateCrawlJobStatus jobId (markFailed (clock s))) s in
    enqueue (msg_error "Crawl job failed") s
  else s.

(** The [response.ok] branch of one iteration. *)
Definition onData (jobId startUrl : string) (startTime : Z) (storeMs : N)
    (data : PollData) (s : Stream) : Stream :=
  let s := ingest jobId data s in
  let s := elapse (Z.of_N storeMs) s in
  let s := conclude jobId startUrl startTime data s in
  if Js.truthy (d_next data) then set_jobNext (d_next data) s else s.

(** The [else] branch of [response.ok]. *)
Definition onErrorResponse (httpStatus : Z) (s : Stream) : Stream :=
  if bool_decide (httpStatus ∈ [502; 503; 504]) then
    let s := set_consecutiveErrors (consecutiveErrors s + 1)%N s in
    if (maxConsecutiveErrors <=? consecutiveErrors s)%N then
      let s := enqueue (msg_error
        "Too many consecutive gateway errors. The service may be temporarily unavailable.") s in
      set_isComplete true s
    else s
  else
    enqueue (msg_error ("Failed to get crawl status: " +:+ pretty httpStatus)) s.

(** The [catch] block. *)
Definition onThrow (message : option string) (s : Stream) : Stream :=
  let s := set_consecutiveErrors (consecutiveErrors s + 1)%N s in
  if (maxConsecutiveErrors <=? consecutiveErrors s)%N then
    let s := enqueue (msg_error
      ("Too many consecutive errors. " +:+ default "Unknown error" message)) s in
    set_isComplete true s
  else s.

(** The wait before the next poll, with its exponential backoff. *)
Definition delay (s : Stream) : Z :=
  if (0 <? consecutiveErrors s)%N
  then Z.min (pollInterval * 2 ^ (Z.of_N (consecutiveErrors s) - 1)) 30000
  else pollInterval.

(** [await new Promise((resolve) => setTimeout(resolve, delay))] when the
    stream is not complete; the timer is taken to fire on time. *)
Definition wait (s : Stream) : Stream :=
  if negb (isComplete s) then elapse (delay s) s else s.

(** One turn of the [while] loop. *)
Definition iteration (jobId startUrl : string) (startTime : Z) (p : Poll) (s : Stream)
    : Stream :=
  let statusUrl := Js.or_else (jobNext s) (FIRECRAWL_API_URL +:+ "/crawl/" +:+ jobId) in
  let s := on_world (log_call (ProviderGet statusUrl)) s in
  let s := elapse (Z.of_N (fetchMs p)) s in
  let s := match fetched p with
           | Ok data => onData jobId startUrl startTime (storeMs p) data s
           | NotOk httpStatus => onErrorResponse httpStatus s
           | Threw message => onThrow message s
           end in
  wait s.

(** [while (!isComplete && Date.now() - startTime < maxPollingTime)],
    taking the [i]-th poll outcome from [polls].  [None] when [fuel] turns
    did not suffice to leave the loop. *)
Fixpoint pollLoop (fuel : nat) (jobId startUrl : string) (startTime : Z)
    (polls : nat → Poll) (i : nat) (s : Stream) : option Stream :=
  if negb (isComplete s) && (clock s - startTime <? maxPollingTime) then
    match fuel with
    | O => None
    | S fuel =>
        pollLoop fuel jobId startUrl startTime polls (S i)
          (iteration jobId startUrl startTime (polls i) s)
    end
  else Some s.

(** What the handler answers: an immediate error response, or the stream
    in its state at [controller.close()]. *)
Inductive Response :=
| Immediate (httpStatus : Z) (message : CrawlStatusMessage)
| Streamed (s : Stream).

Definition initial (startTime : Z) (job : CrawlJob) (w : World) : Stream :=
  {| isComplete := false; lastPageNumber := 0; consecutiveErrors := 0;
     lastProgressUpdate := startTime; lastCompletedCount := 0; sentUrls := [];
     jobNext := Job.next job; clock := startTime; out := []; world := w |}.

(** Turns of the loop that always suffice: every turn that does not end
    the stream waits at least [pollInterval]. *)
Definition enoughFuel : nat := 240.

(** The polling path up to [controller.close()]: the loop, then the
    timeout message if the loop was left without completing. *)
Definition poll (jobId : string) (jobMetadata : CrawlJob) (startTime : Z)
    (polls : nat → Poll) (w : World) : option Stream :=
  s ← pollLoop enoughFuel jobId (Job.url jobMetadata) startTime polls 0
        (initial startTime jobMetadata w);
  Some (if negb (isComplete s)
        then enqueue (msg_error "Crawl job timed out after 8 minutes") s
        else s).

(** The handler, given the outcomes of the polls it will make. *)
Definition GET (env : Env) (jobId : string) (polls : nat → Poll) (w : World)
    : option Response :=
  if negb (Js.truthy (FIRECRAWL_API_KEY env)) then
    Some (Immediate 500 (msg_error "Server configuration error"))
  else
    match cacheService.getCrawlJob jobId w with
    | None => Some (Immediate 404 (msg_error "Job not found"))
    | Some jobMetadata =>
        match String.eqb (Job.status jobMetadata) "cache_hit", Job.crawledUrls jobMetadata with
        | true, Some crawledUrls =>
            Some (Streamed (serveCached crawledUrls (initial (now env) jobMetadata w)))
        | _, _ => Streamed <$> poll jobId jobMetadata (now env) polls w
        end
    end.

End Status.

(** * Vocabulary of the properties

    Predicates, invariants and concrete worlds that the statements below
    are written with. *)

(** ** Cache lookups and requests that pass validation *)

(** Whether the tiered cache holds content for [u]. *)
Definition cached_in (w : World) (u : string) : bool :=
  match cacheService.get u w with
  | Some _ => true
  | None => false
  end.

(** A seed request that passes input validation. *)
Definition seedRequest (url : string) (pageUrls : list string) : option Seed.Body :=
  Some {| Seed.b_url := Some url; Seed.b_pageUrls := Some pageUrls |}.

(** What a seed response says is missing; the field is left out of the
    JSON when nothing is. *)
Definition reportedMissing (r : Seed.Response) : list string :=
  match r with
  | Seed.Stored _ _ _ m | Seed.Error _ _ m => default [] m
  end.

(** The request is let past the checks that precede the manifest lookup. *)
Definition admitted (valid : string → bool) (cfg : BreakerConfig) (env : Start.Env)
    (body : Start.Body) (w : World) : Prop :=
  Js.truthy (Start.FIRECRAWL_API_KEY env) = true
  ∧ valid (Start.b_url body) = true
  ∧ cacheService.firecrawlCircuitBreaker.canRequest cfg (Start.now env) w = true.

(** The manifest of the start URL is there, is not empty and passes the
    spot check. *)
Definition warm (url : string) (manifest : list string) (w : World) : Prop :=
  cacheService.getCrawlUrlMap url w = Some manifest
  ∧ manifest ≠ []
  ∧ ∀ u, u ∈ take 3 manifest → is_Some (cacheService.get u w).

(** ** The status stream, part by part *)

Import Status.

(** The loop variables that steer the [while] loop. *)
Definition control (s : Stream) : bool * N * Z * N * Z * option string :=
  (isComplete s, consecutiveErrors s, lastProgressUpdate s, lastCompletedCount s,
   clock s, jobNext s).

(** The stores that pages do not touch. *)
Definition ledgers (w : World)
    : gmap string CrawlJob * gmap string (list string) * list ProviderCall :=
  (jobs w, urlMaps w, calls w).

(** Whether a poll response makes the loop note progress. *)
Definition progressed (data : PollData) (s : Stream) : bool :=
  (0 <? d_completed data)%N && (lastCompletedCount s <? d_completed data)%N.

(** Whether an OK response, looked at when the clock shows [clock2],
    ends the stream: a completion predicate holds or the provider
    reports failure. *)
Definition settles (startTime : Z) (data : PollData) (lastCompletedCount : N)
    (lastProgressUpdate clock2 : Z) : bool :=
  crawlIsComplete data
    (predicates data lastCompletedCount (clock2 - lastProgressUpdate) (clock2 - startTime))
  || String.eqb (d_status data) "failed".

(** A job that the handler polls: found in the job store and not served
    from the cache. *)
Definition live (job : CrawlJob) : Prop :=
  Job.status job ≠ "cache_hit" ∨ Job.crawledUrls job = None.

(** Whether the fast path finds content to serve for [u]. *)
Definition servable (w : World) (u : string) : bool := Js.truthy (cacheService.get u w).

Definition cachedPage (w : World) (u : string) : CrawlStatusMessage :=
  msg_url_complete u (default "" (cacheService.get u w)) true.

Definition gatewayErrorText : string :=
  "Too many consecutive gateway errors. The service may be temporarily unavailable.".

Definition networkErrorText (message : option string) : string :=
  "Too many consecutive errors. " +:+ default "Unknown error" message.

Definition timeoutText : string := "Crawl job timed out after 8 minutes".

(** What the client and the stores see of a stream. *)
Definition effects (s : Stream) : list CrawlStatusMessage * World * list string :=
  (out s, world s, sentUrls s).

(** The three ways [conclude] can go. *)
Inductive Verdict := Completed | Failed | Pending.

Definition verdict (startTime : Z) (data : PollData) (s : Stream) : Verdict :=
  if crawlIsComplete data
       (predicates data (lastCompletedCount s) (clock s - lastProgressUpdate s)
          (clock s - startTime))
  then Completed
  else if String.eqb (d_status data) "failed" then Failed else Pending.

(** A turn of the loop whose poll brought a 2xx response, phase by phase. *)
Definition fetchedState (jobId : string) (p : Poll) (s : Stream) : Stream :=
  elapse (Z.of_N (fetchMs p))
    (on_world (log_call (ProviderGet
       (Js.or_else (jobNext s) (FIRECRAWL_API_URL +:+ "/crawl/" +:+ jobId)))) s).

Definition ingested (jobId : string) (p : Poll) (data : PollData) (s : Stream) : Stream :=
  elapse (Z.of_N (storeMs p)) (ingest jobId data (fetchedState jobId p s)).

(** ** Invariants of the polling loop *)




(** Kept by the loop while the stream is not complete: the error count
    is below its threshold, and the clock is less than one turn (a poll
    of at most [L] ms and the longest wait between polls) past the
    ceiling. *)
Definition ceilingInvariant (startTime L : Z) (s : Stream) : Prop :=
  isComplete s = false →
  (consecutiveErrors s < maxConsecutiveErrors)%N
  ∧ clock s < startTime + maxPollingTime + L + 16000.

(** The provider keeps answering 2xx with the same counts, no next
    cursor, and no report of failure. *)
Definition steady (polls : nat → Poll) (completed total : N) : Prop :=
  ∀ i, ∃ data, fetched (polls i) = Ok data
               ∧ d_completed data = completed ∧ d_total data = total
               ∧ Js.truthy (d_next data) = false ∧ d_status data ≠ "failed".

(** The state of a stream that has noted its last progress at [tp]:
    either it waits for a poll due no later than one interval after the
    stall window, or it has completed within one further poll. *)
Definition stalling (jobId : string) (tp L : Z) (completed total : N) (s : Stream) : Prop :=
  lastProgressUpdate s = tp
  ∧ lastCompletedCount s = completed
  ∧ (∃ j, jobs (world s) !! jobId = Some j
          ∧ (isComplete s = true → Job.status j = "completed"))
  ∧ if isComplete s
    then clock s ≤ tp + maxStallTime + pollInterval + L
         ∧ ∃ credits, last (out s) = Some (msg_complete total credits)
    else consecutiveErrors s = 0%N ∧ clock s ≤ tp + maxStallTime + pollInterval.

(** Kept by the loop under [steady] polls: before the first poll the
    stream is as [GET] set it up, afterwards it is [stalling]. *)
Definition stallInvariant (jobId : string) (job : CrawlJob) (w : World) (startTime tp L : Z)
    (completed total : N) (i : nat) (s : Stream) : Prop :=
  match i with
  | O => s = initial startTime job w
  | S _ => stalling jobId tp L completed total s
  end.

(** Whether a poll counts towards the error threshold: it threw, or was
    answered 502, 503 or 504. *)
Definition failing (p : Poll) : bool :=
  match fetched p with
  | Threw _ => true
  | NotOk httpStatus => bool_decide (httpStatus ∈ [502; 503; 504])
  | Ok _ => false
  end.

(** The consecutive-error count that the loop holds after the first [i]
    polls: a 2xx response resets it, a failing poll adds one, any other
    response leaves it. *)
Fixpoint errorCount (polls : nat → Poll) (i : nat) : N :=
  match i with
  | O => 0
  | S i =>
      match fetched (polls i) with
      | Ok _ => 0
      | _ => if failing (polls i) then errorCount polls i + 1 else errorCount polls i
      end
  end.

(** How long a turn of the loop is busy with its poll: the request, and
    for a 2xx response the store and cache writes. *)
Definition busy (p : Poll) : Z :=
  Z.of_N (fetchMs p) + match fetched p with
                       | Ok _ => Z.of_N (storeMs p)
                       | _ => 0
                       end.

(** The wait that follows a turn which leaves the error count at [n]. *)
Definition backoff (n : N) : Z :=
  if (0 <? n)%N then Z.min (pollInterval * 2 ^ (Z.of_N n - 1)) 30000 else pollInterval.

(** The time, counted from the start, at which the loop makes its test
    before poll [i], should none of the polls before have ended the
    stream. *)
Fixpoint testTime (polls : nat → Poll) (i : nat) : Z :=
  match i with
  | O => 0
  | S i => testTime polls i + busy (polls i) + backoff (errorCount polls (S i))
  end.

(** The count of completed pages that a poll reports; [0] when it
    brings no 2xx response. *)
Definition reported (p : Poll) : N :=
  match fetched p with
  | Ok data => d_completed data
  | _ => 0%N
  end.

(** [lastCompletedCount] after the first [i] polls: the highest count
    reported so far. *)
Fixpoint recorded (polls : nat → Poll) (i : nat) : N :=
  match i with
  | O => 0
  | S i => if (recorded polls i <? reported (polls i))%N
           then reported (polls i) else recorded polls i
  end.

(** [lastProgressUpdate] after the first [i] polls, counted from the
    start: the arrival of the last response that reported a count higher
    than all before it. *)
Fixpoint notedAt (polls : nat → Poll) (i : nat) : Z :=
  match i with
  | O => 0
  | S i => if (recorded polls i <? reported (polls i))%N
           then testTime polls i + Z.of_N (fetchMs (polls i)) else notedAt polls i
  end.

(** Whether poll [i] ends the stream that the polls before it have left
    open: its response is a 2xx that satisfies a completion predicate or
    reports failure, looked at when the poll is done, or it is the fifth
    failure in a row. *)
Definition endsAt (polls : nat → Poll) (i : nat) : bool :=
  match fetched (polls i) with
  | Ok data =>
      settles 0 data (recorded polls (S i)) (notedAt polls (S i))
        (testTime polls i + busy (polls i))
  | _ => (maxConsecutiveErrors <=? errorCount polls (S i))%N
  end.

(** Kept by the loop for as long as no poll ends the stream: before
    poll [i] the stream is open, and its error count, clock and record of
    progress are those that the polls so far determine. *)
Definition trackInvariant (polls : nat → Poll) (startTime : Z) (i : nat) (s : Stream) : Prop :=
  isComplete s = false
  ∧ consecutiveErrors s = errorCount polls i
  ∧ clock s = startTime + testTime polls i
  ∧ lastCompletedCount s = recorded polls i
  ∧ lastProgressUpdate s = startTime + notedAt polls i.

(** From poll [k] on the provider keeps answering 2xx with the same
    counts, no next cursor, and no report of failure. *)
Definition steadyFrom (polls : nat → Poll) (k : nat) (completed total : N) : Prop :=
  ∀ i, (k ≤ i)%nat →
    ∃ data, fetched (polls i) = Ok data
            ∧ d_completed data = completed ∧ d_total data = total
            ∧ Js.truthy (d_next data) = false ∧ d_status data ≠ "failed".

(** Kept by the loop over polls of which the first [k] end nothing and
    the others are steady: up to poll [k] the stream is as the polls
    determine, with the job in the store; after it the stream is
    [stalling]. *)
Definition riseInvariant (jobId : string) (polls : nat → Poll) (startTime : Z) (k : nat)
    (tp L : Z) (completed total : N) (i : nat) (s : Stream) : Prop :=
  (i ≤ k)%nat ∧ trackInvariant polls startTime i s ∧ is_Some (jobs (world s) !! jobId)
  ∨ (k < i)%nat ∧ stalling jobId tp L completed total s.

(** ** Concrete worlds, requests and polls *)

Definition docsOnly (u : string) : bool := String.prefix "https://docs." u.

Definition breakerClosed : CircuitState :=
  {| state := closed; failureCount := 0; successCount := 0; openedAt := None |}.

Definition breakerOpenedAt (t : Z) : CircuitState :=
  {| state := open; failureCount := 5; successCount := 0; openedAt := Some t |}.

Definition breakerCfg : BreakerConfig :=
  {| failureThreshold := 5; successThreshold := 2; timeout := 60000 |}.

(** A world in which [https://docs.example.com/] was crawled before:
    its manifest lists two pages and the cache still holds both. *)
Definition warmWorld (b : CircuitState) : World :=
  {| pages := {[ "https://docs.example.com/a" := "# A";
                 "https://docs.example.com/b" := "# B" ]};
     jobs := ∅; results := ∅;
     urlMaps := {[ "https://docs.example.com/" :=
                   ["https://docs.example.com/a"; "https://docs.example.com/b"] ]};
     breaker := b; calls := [] |}.

Definition startEnv : Start.Env :=
  {| Start.FIRECRAWL_API_KEY := Some "fc-key"; Start.now := 1000;
     Start.randomUUID := "job-1"; Start.fetched := Start.Threw None |}.

Definition startBody : Start.Body :=
  {| Start.b_url := "https://docs.example.com/"; Start.b_limit := None;
     Start.b_force := false |}.

(** A world whose cache holds one of two candidate pages. *)
Definition halfCached : World :=
  {| pages := {[ "https://docs.example.com/a" := "# A" ]};
     jobs := ∅; results := ∅; urlMaps := ∅; breaker := breakerClosed; calls := [] |}.

Definition coldWorld : World :=
  {| pages := ∅; jobs := ∅; results := ∅;
     urlMaps := {[ "https://docs.example.com/" := ["https://docs.example.com/old"] ]};
     breaker := breakerClosed; calls := [] |}.

Definition statusEnv : Env := {| FIRECRAWL_API_KEY := Some "fc-key"; now := 0 |}.

(** A world with one live job, [job-7], just started. *)
Definition liveWorld : World :=
  {| pages := ∅;
     jobs := {[ "job-7" := Start.crawlingJob "job-7" "https://docs.example.com/" 10 0 None ]};
     results := ∅; urlMaps := ∅; breaker := breakerClosed; calls := [] |}.

Definition scraping (completed total : N) (batch : option (list Page)) : PollData :=
  {| d_status := "scraping"; d_completed := completed; d_total := total;
     d_creditsUsed := Some completed; d_expiresAt := None; d_next := None;
     d_data := batch |}.

(** Every poll takes a millisecond and reports a crawl that has not
    started on its ten pages. *)
Definition idlePolls (i : nat) : Poll :=
  {| fetchMs := 1; storeMs := 0; fetched := Ok (scraping 0 10 None) |}.

(** Polls that take no time: the crawl has not started on its ten
    pages, and the polls made at 476 s and 478 s are answered 502. *)
Definition backoffPolls (i : nat) : Poll :=
  {| fetchMs := 0; storeMs := 0;
     fetched := if bool_decide (i ∈ [238; 239]%nat) then NotOk 502
                else Ok (scraping 0 10 None) |}.

(** Every poll is answered 502 after 100 ms. *)
Definition gatewayPolls (i : nat) : Poll :=
  {| fetchMs := 100; storeMs := 0; fetched := NotOk 502 |}.

(** A stream that has already met four gateway errors in a row. *)
Definition afterFourErrors : Stream :=
  {| isComplete := false; lastPageNumber := 0; consecutiveErrors := 4;
     lastProgressUpdate := 0; lastCompletedCount := 0; sentUrls := [];
     jobNext := None; clock := 30400; out := []; world := liveWorld |}.

(** A world in which the start endpoint has made a [cache_hit] job of a
    two-page manifest, and the second page has since left the cache. *)
Definition hitWorld : World :=
  {| pages := {[ "https://docs.example.com/a" := "# A" ]};
     jobs := {[ "job-1" := Start.cacheHitJob "job-1" "https://docs.example.com/" 10 0
                             ["https://docs.example.com/a"; "https://docs.example.com/b"] ]};
     results := ∅;
     urlMaps := {[ "https://docs.example.com/" :=
                   ["https://docs.example.com/a"; "https://docs.example.com/b"] ]};
     breaker := breakerClosed; calls := [] |}.

(** Every poll takes a second and reports 96 of 100 pages done. *)
Definition stallPolls (i : nat) : Poll :=
  {| fetchMs := 1000; storeMs := 0; fetched := Ok (scraping 96 100 None) |}.

(** The first two polls report 50 of 100 pages done, every later one
    96 of 100; each poll takes a second. *)
Definition rampPolls (i : nat) : Poll :=
  {| fetchMs := 1000; storeMs := 0;
     fetched := Ok (scraping (match i with O | S O => 50 | _ => 96 end) 100 None) |}.

(** The first poll reports the crawl completed, with a single page whose
    content is six characters long. *)
Definition stubPolls (i : nat) : Poll :=
  {| fetchMs := 500; storeMs := 0;
     fetched := Ok {| d_status := "completed"; d_completed := 1; d_total := 1;
                      d_creditsUsed := Some 1%N; d_expiresAt := None; d_next := None;
                      d_data := Some [ {| sourceURL := Some "https://docs.example.com/stub";
                                          markdown := Some "# Stub" |} ] |} |}.

(** A world with the live job [job-7] whose cache holds one of two
    candidate pages. *)
Definition mixedWorld : World :=
  {| pages := {[ "https://docs.example.com/a" := "# A" ]};
     jobs := {[ "job-7" := Start.crawlingJob "job-7" "https://docs.example.com/" 10 0 None ]};
     results := ∅; urlMaps := ∅; breaker := breakerClosed; calls := [] |}.

Definition twoCandidates : option Seed.Body :=
  seedRequest "https://docs.example.com/"
    ["https://docs.example.com/a"; "https://docs.example.com/b"].

(** ** The start endpoint, part by part *)

(** The manifest that the cache-first block of the start handler
    settles on, if any. *)
Definition cacheHit (body : Start.Body) (w : World) : option (list string) :=
  if Start.b_force body then None
  else
    match cacheService.getCrawlUrlMap (Start.b_url body) w with
    | Some cachedUrls =>
        if (0 <? length cachedUrls)%nat && Start.allCached cachedUrls w
        then Some cachedUrls else None
    | None => None
    end.

(** The limit the start handler passes on: [Math.min(limit, MAX_ALLOWED_URLS)]
    with [limit] defaulting to 10. *)
Definition enforcedLimit (body : Start.Body) : Z :=
  Z.min (default 10 (Start.b_limit body)) PROCESSING_CONFIG.MAX_ALLOWED_URLS.

(** ** Messages, requests and result pages of a stream *)

(** The URL of a page message. *)
Definition urlOf (m : CrawlStatusMessage) : option string :=
  match m with
  | msg_url_complete u _ _ => Some u
  | _ => None
  end.

(** The URLs of the pages among the messages [ms], in the order sent. *)
Definition urlsSent (ms : list CrawlStatusMessage) : list string := omap urlOf ms.

Definition isPage (m : CrawlStatusMessage) : bool :=
  match m with
  | msg_url_complete _ _ _ => true
  | _ => false
  end.

Definition completes (m : CrawlStatusMessage) : bool :=
  match m with
  | msg_complete _ _ => true
  | _ => false
  end.

(** A message that can be the last of a stream. *)
Definition closing (m : CrawlStatusMessage) : bool :=
  match m with
  | msg_complete _ _ | msg_error _ => true
  | _ => false
  end.

(** The URL of the next poll: [jobMetadata.next || `${FIRECRAWL_API_URL}/crawl/${jobId}`]. *)
Definition statusUrl (jobId : string) (s : Stream) : string :=
  Js.or_else (jobNext s) (FIRECRAWL_API_URL +:+ "/crawl/" +:+ jobId).

Definition isGet (c : ProviderCall) : bool :=
  match c with
  | ProviderGet _ => true
  | ProviderPost _ _ => false
  end.

(** The batch of pages that a poll brings, if any. *)
Definition batchOf (p : Poll) : option (list Page) :=
  match fetched p with
  | Ok data => d_data data
  | _ => None
  end.

(** The batches brought by the first [i] polls, in order of arrival. *)
Definition batches (polls : nat → Poll) (i : nat) : list (list Page) :=
  omap (λ k, batchOf (polls k)) (seq 0 i).

(** ** Further invariants of the polling loop *)

(** Kept by the loop: the pages sent are those recorded in [sentUrls],
    each URL once; [complete] is sent only as the last message of a
    stream that is over; and the manifests are as [GET] found them,
    but for the one written together with [complete]. *)
Definition streamInvariant (startUrl : string) (w0 : World) (s : Stream) : Prop :=
  urlsSent (out s) = sentUrls s
  ∧ NoDup (sentUrls s)
  ∧ if isComplete s
    then ∃ before m,
           out s = before ++ [m] ∧ closing m = true
           ∧ Forall (λ m, completes m = false) before
           ∧ urlMaps (world s)
             = if completes m && (0 <? length (sentUrls s))%nat
               then <[startUrl := sentUrls s]> (urlMaps w0) else urlMaps w0
    else Forall (λ m, completes m = false) (out s) ∧ urlMaps (world s) = urlMaps w0.

(** Kept by the loop, for the turn [i] about to start: the stream has
    made [i] requests, all of them GETs, the first to the job's status
    URL; it has not touched the breaker; and every turn so far has
    taken at least one poll interval. *)
Definition callsInvariant (jobId : string) (job : CrawlJob) (w0 : World) (startTime : Z)
    (i : nat) (s : Stream) : Prop :=
  ∃ gets,
    calls (world s) = gets ++ calls w0
    ∧ length gets = i
    ∧ Forall (λ c, isGet c = true) gets
    ∧ (i ≤ 240)%nat
    ∧ (isComplete s = false → pollInterval * Z.of_nat i ≤ clock s - startTime)
    ∧ breaker (world s) = breaker w0
    ∧ match i with
      | O => s = initial startTime job w0
      | S _ => last gets = Some (ProviderGet (statusUrl jobId (initial startTime job w0)))
      end.

(** Kept by the loop.  A page sent as cached was in the cache, not
    empty, when the stream began, and is there still, with the content
    sent.  A page sent as fresh was not in the cache (or was empty
    there); it is in the cache now, with the content sent, if that has at
    least the minimum length, and otherwise its entry is as it was.
    Content that was in the cache when the stream began is still there,
    unless it was empty; what else the cache holds was sent as a fresh
    page of at least the minimum length; no entry has gone; and the
    entries of URLs not sent are as they were. *)
Definition pageInvariant (w0 : World) (s : Stream) : Prop :=
  (∀ u c b, msg_url_complete u c b ∈ out s →
     u ∈ sentUrls s
     ∧ if b then pages w0 !! u = Some c ∧ c ≠ "" ∧ pages (world s) !! u = Some c
       else Js.truthy (pages w0 !! u) = false
            ∧ ((PROCESSING_CONFIG.MIN_CONTENT_LENGTH ≤ Js.length c)%nat →
               pages (world s) !! u = Some c)
            ∧ ((Js.length c < PROCESSING_CONFIG.MIN_CONTENT_LENGTH)%nat →
               pages (world s) !! u = pages w0 !! u))
  ∧ (∀ u c, pages w0 !! u = Some c → c ≠ "" → pages (world s) !! u = Some c)
  ∧ (∀ u c, pages (world s) !! u = Some c →
       pages w0 !! u = Some c
       ∨ (PROCESSING_CONFIG.MIN_CONTENT_LENGTH ≤ Js.length c)%nat
         ∧ msg_url_complete u c false ∈ out s)
  ∧ (∀ u, is_Some (pages w0 !! u) → is_Some (pages (world s) !! u))
  ∧ (∀ u, u ∉ sentUrls s → pages (world s) !! u = pages w0 !! u).

(** Kept by the loop, for the turn [i] about to start: the batches that
    the first [i] polls brought are stored under the job's page numbers
    0, 1, 2, ... in order of arrival, and no other result page has been
    written. *)
Definition resultsInvariant (jobId : string) (polls : nat → Poll) (w0 : World)
    (i : nat) (s : Stream) : Prop :=
  lastPageNumber s = N.of_nat (length (batches polls i))
  ∧ (∀ n batch, batches polls i !! n = Some batch →
                results (world s) !! (jobId, N.of_nat n) = Some batch)
  ∧ (∀ j n, j ≠ jobId ∨ (N.of_nat (length (batches polls i)) ≤ n)%N →
            results (world s) !! (j, n) = results w0 !! (j, n)).

(** ** Further concrete requests, streams and polls *)

(** A start request with [force] set and a limit above the hard limit. *)
Definition forcedBody : Start.Body :=
  {| Start.b_url := "https://docs.example.com/"; Start.b_limit := Some 5000;
     Start.b_force := true |}.

(** The provider accepts a crawl and names it [fc-42]. *)
Definition acceptedEnv : Start.Env :=
  {| Start.FIRECRAWL_API_KEY := Some "fc-key"; Start.now := 1000;
     Start.randomUUID := "job-1";
     Start.fetched := Start.Ok true (Some "fc-42") None None |}.

(** The provider answers the start request with 402 and a JSON body. *)
Definition paymentEnv : Start.Env :=
  {| Start.FIRECRAWL_API_KEY := Some "fc-key"; Start.now := 1000;
     Start.randomUUID := "job-1";
     Start.fetched :=
       Start.NotOk 402 (Start.Json "{}" (Some "Insufficient credits") None None) |}.

(** The stream of [job-7] as [GET] sets it up at time 0. *)
Definition freshStream : Stream :=
  initial 0 (Start.crawlingJob "job-7" "https://docs.example.com/" 10 0 None) liveWorld.

(** The provider reports, after two seconds, that the crawl failed with
    three of ten pages done. *)
Definition failedData : PollData :=
  {| d_status := "failed"; d_completed := 3; d_total := 10; d_creditsUsed := Some 3%N;
     d_expiresAt := None; d_next := None; d_data := None |}.

Definition failedPoll : Poll := {| fetchMs := 2000; storeMs := 0; fetched := Ok failedData |}.

(** The same stream one second before the eight minutes are over. *)
Definition lateStream : Stream := elapse 479000 freshStream.

(** A stream that noted 85 completed pages at time 0 and is about to
    poll a minute later; the provider still reports 85 of 100 pages and
    offers a next cursor. *)
Definition stalledStream : Stream :=
  {| isComplete := false; lastPageNumber := 0; consecutiveErrors := 0;
     lastProgressUpdate := 0; lastCompletedCount := 85; sentUrls := [];
     jobNext := None; clock := 60000; out := []; world := liveWorld |}.

Definition cursorData : PollData :=
  {| d_status := "scraping"; d_completed := 85; d_total := 100; d_creditsUsed := Some 85%N;
     d_expiresAt := None; d_next := Some "https://api.firecrawl.dev/v1/crawl/job-7?skip=85";
     d_data := None |}.

Definition cursorPoll : Poll := {| fetchMs := 1000; storeMs := 0; fetched := Ok cursorData |}.

(** [n] copies of [s], one after the other. *)
Fixpoint copies (n : nat) (s : string) : string :=
  match n with
  | O => ""
  | S n => s +:+ copies n s
  end.

(** The first poll reports the crawl completed and brings four pages:
    one that [mixedWorld] has in its cache, one of 200 letters, one of
    six, and one of 150 accented letters, which take 300 bytes in UTF-8
    and have a [length] of 150. *)
Definition fourPagePolls (i : nat) : Poll :=
  {| fetchMs := 500; storeMs := 0;
     fetched := Ok {| d_status := "completed"; d_completed := 4; d_total := 4;
                      d_creditsUsed := Some 4%N; d_expiresAt := None; d_next := None;
                      d_data := Some [ {| sourceURL := Some "https://docs.example.com/a";
                                          markdown := Some "# A, crawled again" |};
                                       {| sourceURL := Some "https://docs.example.com/long";
                                          markdown := Some (copies 40 "word ") |};
                                       {| sourceURL := Some "https://docs.example.com/stub";
                                          markdown := Some "# Stub" |};
                                       {| sourceURL := Some "https://docs.example.com/accents";
                                          markdown := Some (copies 150 "é") |} ] |} |}.

(** The first poll reports the crawl completed, with the one page that
    [mixedWorld] has in its cache. *)
Definition knownPagePolls (i : nat) : Poll :=
  {| fetchMs := 500; storeMs := 0;
     fetched := Ok {| d_status := "completed"; d_completed := 1; d_total := 1;
                      d_creditsUsed := Some 1%N; d_expiresAt := None; d_next := None;
                      d_data := Some [ {| sourceURL := Some "https://docs.example.com/a";
                                          markdown := Some "# A, crawled again" |} ] |} |}.

(** ** The claims that do not hold, as they are stated *)

(** C1 as the claim states it: validity of the URL and [force] unset are
    the only conditions on the request. *)
Definition C1_as_stated : Prop :=
  ∀ valid cfg env body w manifest,
    valid (Start.b_url body) = true → Start.b_force body = false →
    cacheService.getCrawlUrlMap (Start.b_url body) w = Some manifest →
    (∀ u, u ∈ take (Nat.min 3 (length manifest)) manifest →
          is_Some (cacheService.get u w)) →
    ∃ jobId limit job w',
      Start.POST valid cfg env (Some body) w
        = (Start.Success jobId (Start.b_url body) limit true, w')
      ∧ calls w' = calls w
      ∧ cacheService.getCrawlJob jobId w' = Some job
      ∧ Job.status job = "cache_hit"
      ∧ Job.creditsUsed job = 0%N
      ∧ Job.crawledUrls job = Some manifest.

(** C2 as the claim states it: the time-out message goes out exactly
    eight minutes after the start. *)
Definition C2_as_stated : Prop :=
  ∀ env jobId polls w job s,
    Js.truthy (FIRECRAWL_API_KEY env) = true →
    cacheService.getCrawlJob jobId w = Some job → live job →
    GET env jobId polls w = Some (Streamed s) → isComplete s = false →
    last (out s) = Some (msg_error timeoutText) ∧ clock s = now env + maxPollingTime.

(** C3 as the claim states it: whatever a manifest lists is in the
    cache when the manifest is written. *)
Definition C3_as_stated : Prop :=
  ∀ valid body env jobId polls w job,
    Js.truthy (FIRECRAWL_API_KEY env) = true →
    cacheService.getCrawlJob jobId w = Some job → live job →
    (∀ start us, urlMaps (Seed.POST valid body w).2 !! start = Some us →
       urlMaps w !! start = Some us
       ∨ ∀ u, u ∈ us → is_Some (cacheService.get u (Seed.POST valid body w).2))
    ∧ ∃ s, GET env jobId polls w = Some (Streamed s)
           ∧ ∀ start us, urlMaps (world s) !! start = Some us →
               urlMaps w !! start = Some us
               ∨ ∀ u, u ∈ us → is_Some (cacheService.get u (world s)).

(** C5 as the claim states it: completion within one poll interval of
    the end of the stall window. *)
Definition C5_as_stated : Prop :=
  ∀ env jobId polls w job completed total,
    Js.truthy (FIRECRAWL_API_KEY env) = true →
    cacheService.getCrawlJob jobId w = Some job → live job →
    (0 < completed)%N → (0 < total)%N → (95 * total ≤ 100 * completed)%N →
    steady polls completed total →
    let tp := now env + Z.of_N (fetchMs (polls 0%nat)) in
    ∃ s, GET env jobId polls w = Some (Streamed s)
         ∧ isComplete s = true
         ∧ clock s ≤ tp + maxStallTime + pollInterval.

(** C6 as the claim states it: a warm manifest gives the [cache_hit] job
    whatever the breaker says. *)
Definition C6_as_stated : Prop :=
  ∀ valid cfg env body w manifest,
    Js.truthy (Start.FIRECRAWL_API_KEY env) = true →
    valid (Start.b_url body) = true → Start.b_force body = false →
    warm (Start.b_url body) manifest w →
    ∃ jobId limit job w',
      Start.POST valid cfg env (Some body) w
        = (Start.Success jobId (Start.b_url body) limit true, w')
      ∧ calls w' = calls w
      ∧ cacheService.getCrawlJob jobId w' = Some job
      ∧ Job.status job = "cache_hit".


(** C8 as the claim states it: one [url_complete] per entry of
    [crawledUrls]. *)
Definition C8_as_stated : Prop :=
  ∀ env jobId polls w job crawledUrls,
    Js.truthy (FIRECRAWL_API_KEY env) = true →
    cacheService.getCrawlJob jobId w = Some job →
    Job.status job = "cache_hit" → Job.crawledUrls job = Some crawledUrls →
    ∃ s contents,
      GET env jobId polls w = Some (Streamed s)
      ∧ length contents = length crawledUrls
      ∧ out s = zip_with (λ u c, msg_url_complete u c true) crawledUrls contents
                  ++ [msg_complete (N.of_nat (length crawledUrls)) 0]
      ∧ calls (world s) = calls w.

(** * Properties *)

(** ** The cache lookup used by the start and seed handlers *)

Lemma mget_cons u us w :
  cacheService.mget (u :: us) w = <[u := pages w !! u]> (cacheService.mget us w).
Proof. reflexivity. Qed.

Lemma mget_lookup us w u :
  u ∈ us → cacheService.mget us w !! u = Some (pages w !! u).
Proof.
  induction us as [|a us IH]; intros Hin.
  - by apply elem_of_nil in Hin.
  - rewrite mget_cons. destruct (decide (a = u)) as [->|Hne].
    + by rewrite lookup_insert_eq.
    + rewrite lookup_insert_ne; [|done].
      apply elem_of_cons in Hin as [->|Hin]; [done|]. by apply IH.
Qed.

Lemma seed_not_null_mget us w u :
  u ∈ us → Seed.not_null (cacheService.mget us w) u = cached_in w u.
Proof.
  intros Hin. unfold Seed.not_null, cached_in, cacheService.get.
  rewrite (mget_lookup _ _ _ Hin). by destruct (pages w !! u).
Qed.

Lemma start_not_null_mget us w u :
  u ∈ us → Start.not_null (cacheService.mget us w) u = cached_in w u.
Proof.
  intros Hin. unfold Start.not_null, cached_in, cacheService.get.
  rewrite (mget_lookup _ _ _ Hin). by destruct (pages w !! u).
Qed.

Lemma filter_ext_elem {A} (f g : A → bool) (l : list A) :
  (∀ x, x ∈ l → f x = g x) → List.filter f l = List.filter g l.
Proof.
  intros H. apply List.filter_ext_in. intros x Hx. apply H. by apply list_elem_of_In.
Qed.

Lemma seed_cachedUrls us w :
  List.filter (Seed.not_null (cacheService.mget us w)) us = List.filter (cached_in w) us.
Proof. apply filter_ext_elem. intros; by apply seed_not_null_mget. Qed.

Lemma seed_missingUrls us w :
  List.filter (λ u, negb (Seed.not_null (cacheService.mget us w) u)) us
  = List.filter (λ u, negb (cached_in w u)) us.
Proof. apply filter_ext_elem. intros u Hu. by rewrite seed_not_null_mget. Qed.

Lemma filter_nonempty {A} (f : A → bool) (l : list A) x :
  x ∈ l → f x = true → (length (List.filter f l) =? 0)%nat = false.
Proof.
  intros Hin Hf. apply Nat.eqb_neq. intros Hlen.
  apply length_zero_iff_nil in Hlen.
  assert (In x (List.filter f l)) as Hx.
  { apply List.filter_In. split; [by apply list_elem_of_In|done]. }
  rewrite Hlen in Hx. contradiction.
Qed.

Lemma filter_none {A} (f : A → bool) (l : list A) :
  (∀ x, x ∈ l → f x = false) → List.filter f l = [].
Proof.
  induction l as [|a l IH]; [done|]. intros H. simpl.
  rewrite (H a); [|apply elem_of_cons; by left].
  apply IH. intros x Hx. apply H. apply elem_of_cons. by right.
Qed.

Lemma filter_all {A} (f : A → bool) (l : list A) :
  (∀ x, x ∈ l → f x = true) → List.filter f l = l.
Proof.
  induction l as [|a l IH]; [done|]. intros H. simpl.
  rewrite (H a); [|apply elem_of_cons; by left].
  f_equal. apply IH. intros x Hx. apply H. apply elem_of_cons. by right.
Qed.

Lemma seed_POST_valid valid url pageUrls w :
  Js.truthy (Some url) = true → valid url = true → pageUrls ≠ [] →
  Seed.POST valid (seedRequest url pageUrls) w =
    let cachedUrls := List.filter (cached_in w) pageUrls in
    let missingUrls := List.filter (λ u, negb (cached_in w u)) pageUrls in
    if (length cachedUrls =? 0)%nat then
      (Seed.Error 404 "None of the provided page URLs are cached" (Some missingUrls), w)
    else
      (Seed.Stored url (length cachedUrls) (length missingUrls)
         (if (0 <? length missingUrls)%nat then Some missingUrls else None),
       cacheService.setCrawlUrlMap url cachedUrls w).
Proof.
  intros Hurl Hvalid Hne. unfold Seed.POST, seedRequest.
  cbn [Seed.b_url Seed.b_pageUrls default]. rewrite Hurl. cbn [negb].
  destruct pageUrls as [|u us]; [done|].
  unfold id. rewrite Hvalid. cbn [negb].
  by rewrite seed_cachedUrls, seed_missingUrls.
Qed.

(** C9. A valid seed request with at least one cached candidate stores as
    manifest exactly the cached candidates, in order, and nothing that is
    not cached; the response carries the number stored, the number
    missing and the missing candidates. *)
Theorem C9_seed_stores_verified_subset valid url pageUrls w :
  Js.truthy (Some url) = true → valid url = true →
  (∃ u, u ∈ pageUrls ∧ cached_in w u = true) →
  let cachedUrls := List.filter (cached_in w) pageUrls in
  let missingUrls := List.filter (λ u, negb (cached_in w u)) pageUrls in
  let '(r, w') := Seed.POST valid (seedRequest url pageUrls) w in
  cacheService.getCrawlUrlMap url w' = Some cachedUrls
  ∧ (∀ u, u ∈ cachedUrls ↔ u ∈ pageUrls ∧ is_Some (cacheService.get u w))
  ∧ (∃ m, r = Seed.Stored url (length cachedUrls) (length missingUrls) m)
  ∧ reportedMissing r = missingUrls
  ∧ (∀ u, u ∈ missingUrls ↔ u ∈ pageUrls ∧ cacheService.get u w = None).
Proof.
  intros Hurl Hvalid (u0 & Hin0 & Hc0) cachedUrls missingUrls.
  rewrite seed_POST_valid; [|done|done|by intros ->; apply elem_of_nil in Hin0].
  cbv zeta. rewrite (filter_nonempty _ _ u0 Hin0 Hc0).
  split; [|split; [|split; [|split]]].
  - unfold cacheService.getCrawlUrlMap, cacheService.setCrawlUrlMap, set_urlMaps; simpl.
    by rewrite lookup_insert_eq.
  - intros u. unfold cachedUrls. rewrite list_elem_of_In, List.filter_In, <- list_elem_of_In.
    unfold cached_in. destruct (cacheService.get u w); split; intros [H1 H2]; split;
      try done; try (by eexists); try (by destruct H2).
  - by eexists.
  - simpl. fold missingUrls. destruct missingUrls; reflexivity.
  - intros u. unfold missingUrls. rewrite list_elem_of_In, List.filter_In, <- list_elem_of_In.
    unfold cached_in. destruct (cacheService.get u w); split; intros [? ?]; split; done.
Qed.

(** C10. A valid seed request none of whose candidates is cached is
    answered 404 with every candidate listed as missing, and the stores,
    any earlier manifest for the start URL among them, are left as they
    were. *)
Theorem C10_seed_none_cached valid url pageUrls w :
  Js.truthy (Some url) = true → valid url = true → pageUrls ≠ [] →
  (∀ u, u ∈ pageUrls → cacheService.get u w = None) →
  Seed.POST valid (seedRequest url pageUrls) w =
    (Seed.Error 404 "None of the provided page URLs are cached" (Some pageUrls), w).
Proof.
  intros Hurl Hvalid Hne Hnone.
  rewrite seed_POST_valid; [|done..]. cbv zeta.
  rewrite (filter_none (cached_in w)).
  2:{ intros u Hu. unfold cached_in. by rewrite Hnone. }
  rewrite filter_all; [done|].
  intros u Hu. unfold cached_in. by rewrite Hnone.
Qed.

(** ** Crawl start: the cache-first path and the breaker gate *)

Lemma take_min_length {A} (n : nat) (l : list A) : take (Nat.min n (length l)) l = take n l.
Proof.
  destruct (Nat.le_ge_cases n (length l)) as [H|H].
  - by rewrite Nat.min_l.
  - rewrite Nat.min_r by done. by rewrite firstn_all, take_ge.
Qed.

(** The spot check passes exactly when the first three manifest entries
    (all of them, if there are fewer) are in the cache. *)
Lemma allCached_spec cachedUrls w :
  Start.allCached cachedUrls w = forallb (cached_in w) (take 3 cachedUrls).
Proof.
  unfold Start.allCached, Js.every, Js.slice0. rewrite take_min_length.
  set (sample := take 3 cachedUrls).
  assert (∀ l, (∀ u, u ∈ l → u ∈ sample) →
    forallb (Start.not_null (cacheService.mget sample w)) l = forallb (cached_in w) l) as H.
  { induction l as [|a l IH]; intros Hl; [done|]. simpl.
    rewrite start_not_null_mget; [|apply Hl, elem_of_cons; by left].
    f_equal. apply IH. intros u Hu. apply Hl, elem_of_cons. by right. }
  by apply H.
Qed.

Lemma warm_allCached url manifest w :
  warm url manifest w →
  (0 <? length manifest)%nat && Start.allCached manifest w = true.
Proof.
  intros (_ & Hne & Hall). apply andb_true_iff. split.
  - destruct manifest; [done|reflexivity].
  - rewrite allCached_spec. apply forallb_forall. intros u Hu.
    apply list_elem_of_In, Hall in Hu. unfold cached_in. by destruct Hu as [c ->].
Qed.

Lemma start_POST_cache_hit valid cfg env body w manifest :
  admitted valid cfg env body w → Start.b_force body = false →
  warm (Start.b_url body) manifest w →
  let enforcedLimit := Z.min (default 10 (Start.b_limit body)) 2000 in
  let jobId := Start.randomUUID env in
  Start.POST valid cfg env (Some body) w =
    (Start.Success jobId (Start.b_url body) enforcedLimit true,
     cacheService.setCrawlJob jobId
       (Start.cacheHitJob jobId (Start.b_url body) enforcedLimit (Start.now env) manifest) w).
Proof.
  intros (Hkey & Hvalid & Hcan) Hforce Hwarm. unfold Start.POST.
  rewrite Hkey, Hvalid, Hcan, Hforce. cbn [negb].
  destruct Hwarm as (Hmap & ?). rewrite Hmap.
  by rewrite (warm_allCached (Start.b_url body)).
Qed.

Lemma start_POST_breaker_open valid cfg env body w :
  Js.truthy (Start.FIRECRAWL_API_KEY env) = true →
  valid (Start.b_url body) = true →
  cacheService.firecrawlCircuitBreaker.canRequest cfg (Start.now env) w = false →
  Start.POST valid cfg env (Some body) w =
    (Start.Failure 503 "Documentation service is temporarily unavailable"
       (Some "The service is experiencing high failure rates. Please try again in a minute.")
       (Some "open"), w).
Proof.
  intros Hkey Hvalid Hcan. unfold Start.POST. by rewrite Hkey, Hvalid, Hcan.
Qed.

(** C1, as amended. A crawl-start request with a valid URL and [force]
    unset, received while the API key is configured and the breaker lets
    requests through, whose start URL has a non-empty manifest with its
    first three entries in the cache, makes no call to the provider and
    is answered with success and a new job of status [cache_hit], zero
    credits, and the whole manifest as [crawledUrls]. *)
Theorem C1_cache_first_crawl valid cfg env body w manifest :
  admitted valid cfg env body w → Start.b_force body = false →
  warm (Start.b_url body) manifest w →
  ∃ limit job w',
    Start.POST valid cfg env (Some body) w
      = (Start.Success (Start.randomUUID env) (Start.b_url body) limit true, w')
    ∧ calls w' = calls w
    ∧ cacheService.getCrawlJob (Start.randomUUID env) w' = Some job
    ∧ Job.status job = "cache_hit"
    ∧ Job.creditsUsed job = 0%N
    ∧ Job.crawledUrls job = Some manifest.
Proof.
  intros Hadm Hforce Hwarm. do 3 eexists.
  rewrite (start_POST_cache_hit _ _ _ _ _ manifest) by done. cbv zeta.
  split; [reflexivity|]. split; [reflexivity|]. split.
  { unfold cacheService.getCrawlJob, cacheService.setCrawlJob, set_jobs; simpl.
    apply lookup_insert_eq. }
  done.
Qed.

(** C6, as amended. The breaker is asked first: when it refuses, the
    request is answered 503 with the stores untouched, warm manifest or
    not; when it lets the request through, a warm manifest yields the
    [cache_hit] job without any call to the provider. *)
Theorem C6_breaker_then_manifest valid cfg env body w manifest :
  Js.truthy (Start.FIRECRAWL_API_KEY env) = true →
  valid (Start.b_url body) = true →
  Start.b_force body = false →
  warm (Start.b_url body) manifest w →
  let '(r, w') := Start.POST valid cfg env (Some body) w in
  calls w' = calls w
  ∧ if cacheService.firecrawlCircuitBreaker.canRequest cfg (Start.now env) w
    then (∃ limit, r = Start.Success (Start.randomUUID env) (Start.b_url body) limit true)
         ∧ (∃ job, cacheService.getCrawlJob (Start.randomUUID env) w' = Some job
                   ∧ Job.status job = "cache_hit"
                   ∧ Job.crawledUrls job = Some manifest)
    else (∃ msg details, r = Start.Failure 503 msg details (Some "open")) ∧ w' = w.
Proof.
  intros Hkey Hvalid Hforce Hwarm.
  destruct (cacheService.firecrawlCircuitBreaker.canRequest cfg (Start.now env) w) eqn:Hcan.
  - rewrite (start_POST_cache_hit _ _ _ _ _ manifest) by done. cbv zeta.
    split; [reflexivity|]. split; [by eexists|]. eexists. split.
    { unfold cacheService.getCrawlJob, cacheService.setCrawlJob, set_jobs; simpl.
      apply lookup_insert_eq. }
    done.
  - rewrite start_POST_breaker_open by done. split; [reflexivity|]. split; [|done].
    by do 2 eexists.
Qed.

(** ** The start and seed endpoints on concrete requests *)

Ltac elem_cases :=
  repeat match goal with
         | H : _ ∈ _ :: _ |- _ => apply elem_of_cons in H as [->|H]
         | H : _ ∈ [] |- _ => by apply elem_of_nil in H
         end.

Lemma warmWorld_warm b :
  warm "https://docs.example.com/"
    ["https://docs.example.com/a"; "https://docs.example.com/b"] (warmWorld b).
Proof.
  split; [reflexivity|]. split; [done|].
  intros u Hu. cbn in Hu. elem_cases; by eexists.
Qed.

Lemma start_breaker_open_run :
  Start.POST docsOnly breakerCfg startEnv (Some startBody) (warmWorld (breakerOpenedAt 0))
  = (Start.Failure 503 "Documentation service is temporarily unavailable"
       (Some "The service is experiencing high failure rates. Please try again in a minute.")
       (Some "open"),
     warmWorld (breakerOpenedAt 0)).
Proof. reflexivity. Qed.

(** With the breaker open, a request for a start URL whose manifest is
    warm is answered 503 and no job is created. *)
Lemma C1_counterexample : ¬ C1_as_stated.
Proof.
  intros H.
  destruct (H docsOnly breakerCfg startEnv startBody (warmWorld (breakerOpenedAt 0))
              ["https://docs.example.com/a"; "https://docs.example.com/b"])
    as (jobId & limit & job & w' & Hpost & _); try reflexivity.
  - intros u Hu. cbn in Hu. elem_cases; by eexists.
  - rewrite start_breaker_open_run in Hpost. discriminate Hpost.
Qed.

Lemma C1_witness :
  ∃ limit job w',
    Start.POST docsOnly breakerCfg startEnv (Some startBody) (warmWorld breakerClosed)
      = (Start.Success "job-1" "https://docs.example.com/" limit true, w')
    ∧ calls w' = calls (warmWorld breakerClosed)
    ∧ cacheService.getCrawlJob "job-1" w' = Some job
    ∧ Job.status job = "cache_hit"
    ∧ Job.creditsUsed job = 0%N
    ∧ Job.crawledUrls job
      = Some ["https://docs.example.com/a"; "https://docs.example.com/b"].
Proof.
  apply (C1_cache_first_crawl docsOnly breakerCfg startEnv startBody (warmWorld breakerClosed)).
  - repeat split; reflexivity.
  - reflexivity.
  - split; [reflexivity|]. split; [discriminate|].
    intros u Hu. cbn in Hu. elem_cases; by eexists.
Defined.

(** The breaker check precedes the manifest lookup: opened at time 0 and
    asked at time 1000, well within its timeout, it turns the request
    away although the manifest is warm. *)
Lemma C6_counterexample : ¬ C6_as_stated.
Proof.
  intros H.
  destruct (H docsOnly breakerCfg startEnv startBody (warmWorld (breakerOpenedAt 0))
              ["https://docs.example.com/a"; "https://docs.example.com/b"])
    as (jobId & limit & job & w' & Hpost & _); try reflexivity.
  - apply warmWorld_warm.
  - rewrite start_breaker_open_run in Hpost. discriminate Hpost.
Qed.

Lemma C6_witness :
  let '(r, w') := Start.POST docsOnly breakerCfg startEnv (Some startBody)
                    (warmWorld (breakerOpenedAt 0)) in
  calls w' = calls (warmWorld (breakerOpenedAt 0))
  ∧ if cacheService.firecrawlCircuitBreaker.canRequest breakerCfg (Start.now startEnv)
         (warmWorld (breakerOpenedAt 0))
    then (∃ limit, r = Start.Success (Start.randomUUID startEnv)
                         (Start.b_url startBody) limit true)
         ∧ (∃ job, cacheService.getCrawlJob (Start.randomUUID startEnv) w' = Some job
                   ∧ Job.status job = "cache_hit"
                   ∧ Job.crawledUrls job
                     = Some ["https://docs.example.com/a"; "https://docs.example.com/b"])
    else (∃ msg details, r = Start.Failure 503 msg details (Some "open"))
         ∧ w' = warmWorld (breakerOpenedAt 0).
Proof.
  apply (C6_breaker_then_manifest docsOnly breakerCfg startEnv startBody
           (warmWorld (breakerOpenedAt 0))).
  - reflexivity.
  - reflexivity.
  - reflexivity.
  - split; [reflexivity|]. split; [discriminate|].
    intros u Hu. cbn in Hu. elem_cases; by eexists.
Defined.

Lemma C9_witness :
  let pageUrls := ["https://docs.example.com/a"; "https://docs.example.com/b"] in
  let cachedUrls := List.filter (cached_in halfCached) pageUrls in
  let missingUrls := List.filter (λ u, negb (cached_in halfCached u)) pageUrls in
  let '(r, w') := Seed.POST docsOnly (seedRequest "https://docs.example.com/" pageUrls)
                    halfCached in
  cacheService.getCrawlUrlMap "https://docs.example.com/" w' = Some cachedUrls
  ∧ (∀ u, u ∈ cachedUrls ↔ u ∈ pageUrls ∧ is_Some (cacheService.get u halfCached))
  ∧ (∃ m, r = Seed.Stored "https://docs.example.com/" (length cachedUrls)
                (length missingUrls) m)
  ∧ reportedMissing r = missingUrls
  ∧ (∀ u, u ∈ missingUrls ↔ u ∈ pageUrls ∧ cacheService.get u halfCached = None).
Proof.
  apply (C9_seed_stores_verified_subset docsOnly "https://docs.example.com/"
           ["https://docs.example.com/a"; "https://docs.example.com/b"] halfCached).
  - reflexivity.
  - reflexivity.
  - exists "https://docs.example.com/a". split; [|reflexivity].
    apply elem_of_cons. by left.
Defined.

Lemma C10_witness :
  Seed.POST docsOnly
    (seedRequest "https://docs.example.com/"
       ["https://docs.example.com/a"; "https://docs.example.com/b"]) coldWorld
  = (Seed.Error 404 "None of the provided page URLs are cached"
       (Some ["https://docs.example.com/a"; "https://docs.example.com/b"]), coldWorld).
Proof.
  apply (C10_seed_none_cached docsOnly).
  - reflexivity.
  - reflexivity.
  - done.
  - intros u Hu. elem_cases; reflexivity.
Defined.

(** ** The status stream: what each part of an iteration leaves alone *)

Lemma processPage_control s page : control (processPage s page) = control s.
Proof. unfold processPage. repeat case_match; reflexivity. Qed.

Lemma processPage_ledgers s page :
  ledgers (world (processPage s page)) = ledgers (world s).
Proof. unfold processPage. repeat case_match; reflexivity. Qed.

Lemma processPages_control batch s : control (fold_left processPage batch s) = control s.
Proof.
  revert s. induction batch as [|page batch IH]; intros s; [done|].
  simpl. rewrite IH. apply processPage_control.
Qed.

Lemma processPages_ledgers batch s :
  ledgers (world (fold_left processPage batch s)) = ledgers (world s).
Proof.
  revert s. induction batch as [|page batch IH]; intros s; [done|].
  simpl. rewrite IH. apply processPage_ledgers.
Qed.

Lemma ingest_control jobId data s :
  control (ingest jobId data s)
  = (isComplete s, 0%N,
     if progressed data s then clock s else lastProgressUpdate s,
     if progressed data s then d_completed data else lastCompletedCount s,
     clock s, jobNext s).
Proof.
  unfold ingest, progressed.
  change (lastCompletedCount (set_consecutiveErrors 0 s)) with (lastCompletedCount s).
  destruct (d_data data) as [batch|].
  - change (control (set_lastPageNumber ?n ?s)) with (control s).
    rewrite processPages_control. by destruct (_ && _).
  - by destruct (_ && _).
Qed.

Lemma ingest_ledgers jobId data s :
  ledgers (world (ingest jobId data s))
  = (alter (updatedMetadata data (lastPageNumber s)) jobId (jobs (world s)),
     urlMaps (world s), calls (world s)).
Proof.
  unfold ingest.
  change (lastCompletedCount (set_consecutiveErrors 0 s)) with (lastCompletedCount s).
  destruct (d_data data) as [batch|].
  - change (world (set_lastPageNumber ?n ?s)) with (world s).
    rewrite processPages_ledgers. by destruct (_ && _).
  - by destruct (_ && _).
Qed.

Lemma conclude_control jobId startUrl startTime data s :
  control (conclude jobId startUrl startTime data s)
  = (isComplete s
     || crawlIsComplete data
          (predicates data (lastCompletedCount s) (clock s - lastProgressUpdate s)
             (clock s - startTime))
     || String.eqb (d_status data) "failed",
     consecutiveErrors s, lastProgressUpdate s, lastCompletedCount s, clock s, jobNext s).
Proof.
  unfold conclude. destruct (crawlIsComplete _ _).
  - rewrite orb_true_r. simpl. by destruct (0 <? _)%nat.
  - rewrite orb_false_r. destruct (String.eqb _ _).
    + by rewrite orb_true_r.
    + by rewrite orb_false_r.
Qed.

Lemma onData_control jobId startUrl startTime storeMs data s :
  isComplete s = false →
  control (onData jobId startUrl startTime storeMs data s)
  = let lpu := if progressed data s then clock s else lastProgressUpdate s in
    let lcc := if progressed data s then d_completed data else lastCompletedCount s in
    let clock2 := clock s + Z.of_N storeMs in
    (settles startTime data lcc lpu clock2, 0%N, lpu, lcc, clock2,
     if Js.truthy (d_next data) then d_next data else jobNext s).
Proof.
  intros Hlive. unfold onData.
  pose proof (ingest_control jobId data s) as Hin. unfold control in Hin.
  injection Hin as Hc He Hu Hl Hk Hn.
  assert (control (conclude jobId startUrl startTime data
                     (elapse (Z.of_N storeMs) (ingest jobId data s)))
          = (settles startTime data
               (if progressed data s then d_completed data else lastCompletedCount s)
               (if progressed data s then clock s else lastProgressUpdate s)
               (clock s + Z.of_N storeMs), 0%N,
             if progressed data s then clock s else lastProgressUpdate s,
             if progressed data s then d_completed data else lastCompletedCount s,
             clock s + Z.of_N storeMs, jobNext s)) as Hcon.
  { rewrite conclude_control. cbn [elapse isComplete consecutiveErrors lastProgressUpdate
      lastCompletedCount clock jobNext].
    rewrite Hc, He, Hu, Hl, Hk, Hn, Hlive. unfold settles.
    by rewrite orb_false_l. }
  cbv zeta. destruct (Js.truthy (d_next data)); [|exact Hcon].
  unfold control in *. cbn [set_jobNext isComplete consecutiveErrors lastProgressUpdate
      lastCompletedCount clock jobNext].
  injection Hcon as -> -> -> -> ->. reflexivity.
Qed.

Lemma delay_bounds s :
  (consecutiveErrors s < 5)%N → pollInterval ≤ delay s ≤ 16000.
Proof.
  intros Hce. unfold delay, pollInterval.
  destruct (consecutiveErrors s) as [|p] eqn:E; [simpl; lia|].
  assert (p = 1 ∨ p = 2 ∨ p = 3 ∨ p = 4)%positive as Hp by lia.
  destruct Hp as [->|[->|[->| ->]]]; vm_compute; split; discriminate.
Qed.

Lemma delay_lower s : pollInterval ≤ delay s.
Proof.
  unfold delay, pollInterval.
  destruct (0 <? consecutiveErrors s)%N eqn:E; [|lia].
  apply N.ltb_lt in E.
  assert (1 ≤ 2 ^ (Z.of_N (consecutiveErrors s) - 1)).
  { apply (Z.pow_le_mono_r 2 0); lia. }
  lia.
Qed.

Lemma wait_clock s :
  clock (wait s) = if isComplete s then clock s else clock s + delay s.
Proof. unfold wait. by destruct (isComplete s). Qed.

Lemma wait_isComplete s : isComplete (wait s) = isComplete s.
Proof. unfold wait. by destruct (isComplete s) eqn:E. Qed.

(** What [wait] computes its delay from. *)
Lemma delay_wait s : delay (wait s) = delay s.
Proof. unfold wait. by destruct (isComplete s). Qed.

(** How one turn of the loop moves the clock and the completion flag,
    whatever the poll brought. *)
Lemma iteration_clock jobId startUrl startTime p s :
  isComplete s = false →
  let s' := iteration jobId startUrl startTime p s in
  ∃ busy,
    0 ≤ busy ≤ Z.of_N (fetchMs p) + Z.of_N (storeMs p)
    ∧ clock s' = if isComplete s' then clock s + busy else clock s + busy + delay s'.
Proof.
  intros Hlive s'. unfold s', iteration.
  rewrite wait_clock, wait_isComplete, delay_wait.
  set (s1 := elapse _ (on_world _ s)).
  assert (isComplete s1 = false) as Hlive1 by done.
  assert (clock s1 = clock s + Z.of_N (fetchMs p)) as Hclock1 by done.
  clearbody s1.
  destruct (fetched p) as [message|data|httpStatus].
  - exists (Z.of_N (fetchMs p)). split; [lia|].
    assert (clock (onThrow message s1) = clock s1) as ->.
    { unfold onThrow. by case_match. }
    rewrite Hclock1. by case_match.
  - exists (Z.of_N (fetchMs p) + Z.of_N (storeMs p)). split; [lia|].
    pose proof (onData_control jobId startUrl startTime (storeMs p) data s1 Hlive1) as H.
    unfold control in H. cbv zeta in H. injection H as Hc _ _ _ Hk _.
    rewrite Hk, Hclock1. destruct (isComplete (onData _ _ _ _ _ _)); lia.
  - exists (Z.of_N (fetchMs p)). split; [lia|].
    assert (clock (onErrorResponse httpStatus s1) = clock s1) as ->.
    { unfold onErrorResponse. by repeat case_match. }
    rewrite Hclock1. by case_match.
Qed.

(** ** The polling loop *)

Lemma pollLoop_unfold fuel jobId startUrl startTime polls i s :
  pollLoop fuel jobId startUrl startTime polls i s
  = if negb (isComplete s) && (clock s - startTime <? maxPollingTime) then
      match fuel with
      | O => None
      | S fuel => pollLoop fuel jobId startUrl startTime polls (S i)
                    (iteration jobId startUrl startTime (polls i) s)
      end
    else Some s.
Proof. by destruct fuel. Qed.

(** Once [isComplete] is set the loop is left at its next test: no
    further poll is made and nothing more is enqueued. *)
Lemma pollLoop_done fuel jobId startUrl startTime polls i s :
  isComplete s = true → pollLoop fuel jobId startUrl startTime polls i s = Some s.
Proof. intros H. rewrite pollLoop_unfold, H. reflexivity. Qed.

(** The loop always comes to an end: a turn that does not complete the
    stream moves the clock on by at least [pollInterval]. *)
Lemma pollLoop_total jobId startUrl startTime polls fuel :
  ∀ i s, maxPollingTime ≤ clock s - startTime + pollInterval * Z.of_nat fuel →
         is_Some (pollLoop fuel jobId startUrl startTime polls i s).
Proof.
  induction fuel as [|fuel IH]; intros i s Hfuel; rewrite pollLoop_unfold.
  - destruct (negb (isComplete s)) eqn:Hc; [|by eexists].
    destruct (clock s - startTime <? maxPollingTime) eqn:Ht; [|by eexists].
    apply Z.ltb_lt in Ht. unfold pollInterval in Hfuel. lia.
  - destruct (negb (isComplete s)) eqn:Hc; [|by eexists].
    destruct (clock s - startTime <? maxPollingTime) eqn:Ht; [|by eexists].
    cbn [andb]. apply negb_true_iff in Hc.
    destruct (iteration_clock jobId startUrl startTime (polls i) s Hc) as (busy & Hbusy & Hclock).
    destruct (isComplete (iteration jobId startUrl startTime (polls i) s)) eqn:Hc'.
    + rewrite pollLoop_done by done. by eexists.
    + apply IH. pose proof (delay_lower (iteration jobId startUrl startTime (polls i) s)).
      unfold pollInterval in *. lia.
Qed.

(** Invariant reasoning over the loop: what holds on entry and is kept by
    every turn that the loop test lets through holds on exit, where the
    test has failed. *)
Lemma pollLoop_invariant (Inv : nat → Stream → Prop) jobId startUrl startTime polls :
  (∀ i s, Inv i s → isComplete s = false → clock s - startTime < maxPollingTime →
          Inv (S i) (iteration jobId startUrl startTime (polls i) s)) →
  ∀ fuel i s s',
    Inv i s → pollLoop fuel jobId startUrl startTime polls i s = Some s' →
    (∃ k, Inv k s') ∧ (isComplete s' = true ∨ maxPollingTime ≤ clock s' - startTime).
Proof.
  intros Hstep. induction fuel as [|fuel IH]; intros i s s' Hinv; rewrite pollLoop_unfold.
  - destruct (isComplete s) eqn:Hc; cbn [negb andb].
    + intros [= <-]. split; [by eexists|by left].
    + destruct (clock s - startTime <? maxPollingTime) eqn:Ht; [done|].
      intros [= <-]. apply Z.ltb_ge in Ht. split; [by eexists|by right].
  - destruct (isComplete s) eqn:Hc; cbn [negb andb].
    + intros [= <-]. split; [by eexists|by left].
    + destruct (clock s - startTime <? maxPollingTime) eqn:Ht.
      * apply Z.ltb_lt in Ht. apply IH. by apply Hstep.
      * intros [= <-]. apply Z.ltb_ge in Ht. split; [by eexists|by right].
Qed.

Lemma poll_total jobId job startTime polls w :
  is_Some (poll jobId job startTime polls w).
Proof.
  unfold poll.
  destruct (pollLoop_total jobId (Job.url job) startTime polls enoughFuel 0
              (initial startTime job w)) as [s ->].
  - unfold initial, enoughFuel, maxPollingTime, pollInterval. simpl. lia.
  - by eexists.
Qed.

Lemma GET_live env jobId polls w job :
  Js.truthy (FIRECRAWL_API_KEY env) = true →
  cacheService.getCrawlJob jobId w = Some job → live job →
  GET env jobId polls w = Streamed <$> poll jobId job (now env) polls w.
Proof.
  intros Hkey Hjob Hlive. unfold GET. rewrite Hkey, Hjob. cbn [negb].
  destruct Hlive as [Hst|Hnone].
  - apply String.eqb_neq in Hst. rewrite Hst. reflexivity.
  - rewrite Hnone. by destruct (String.eqb _ _).
Qed.

(** The stream of a live job always closes. *)
Lemma GET_live_total env jobId polls w job :
  Js.truthy (FIRECRAWL_API_KEY env) = true →
  cacheService.getCrawlJob jobId w = Some job → live job →
  ∃ s, GET env jobId polls w = Some (Streamed s).
Proof.
  intros Hkey Hjob Hlive. rewrite (GET_live _ _ _ _ job) by done.
  destruct (poll_total jobId job (now env) polls w) as [s ->]. by eexists.
Qed.

(** ** The fast path of a [cache_hit] job *)

Lemma serveAll_spec crawledUrls :
  ∀ s, out (fold_left serveOne crawledUrls s)
       = out s ++ (cachedPage (world s) <$> List.filter (servable (world s)) crawledUrls)
       ∧ world (fold_left serveOne crawledUrls s) = world s.
Proof.
  induction crawledUrls as [|u l IH]; intros s.
  - simpl. by rewrite app_nil_r.
  - cbn [fold_left List.filter]. destruct (IH (serveOne s u)) as [Hout Hworld].
    rewrite Hout, Hworld. unfold serveOne, servable.
    destruct (Js.truthy (cacheService.get u (world s))); [|done].
    cbn [enqueue out world fmap list_fmap]. by rewrite <- app_assoc.
Qed.

Lemma serveCached_spec crawledUrls s :
  out (serveCached crawledUrls s)
  = out s ++ (cachedPage (world s) <$> List.filter (servable (world s)) crawledUrls)
      ++ [msg_complete (N.of_nat (length crawledUrls)) 0]
  ∧ world (serveCached crawledUrls s) = world s.
Proof.
  unfold serveCached. cbn [enqueue out world].
  destruct (serveAll_spec crawledUrls s) as [-> ->]. by rewrite <- app_assoc.
Qed.

(** C8, as amended. For a job of status [cache_hit] the stream carries
    one [url_complete] message tagged [cached = true], with the cached
    content, for every one of the job's [crawledUrls] whose content the
    cache still returns, in order, and passes over the others; then a
    single [complete] message with zero credits whose total is the number
    of [crawledUrls].  The stores are untouched: the provider is not
    polled. *)
Theorem C8_cache_fast_path env jobId polls w job crawledUrls :
  Js.truthy (FIRECRAWL_API_KEY env) = true →
  cacheService.getCrawlJob jobId w = Some job →
  Job.status job = "cache_hit" → Job.crawledUrls job = Some crawledUrls →
  ∃ s, GET env jobId polls w = Some (Streamed s)
       ∧ out s = (cachedPage w <$> List.filter (servable w) crawledUrls)
                   ++ [msg_complete (N.of_nat (length crawledUrls)) 0]
       ∧ world s = w.
Proof.
  intros Hkey Hjob Hstatus Hurls. unfold GET. rewrite Hkey, Hjob, Hstatus, Hurls.
  cbn [negb String.eqb]. eexists. split; [reflexivity|].
  destruct (serveCached_spec crawledUrls (initial (now env) job w)) as [-> ->].
  done.
Qed.

(** ** Error responses while polling *)


(** ** What a turn of the loop does to the messages and the stores *)

Lemma wait_effects s : effects (wait s) = effects s.
Proof. unfold wait. by destruct (negb (isComplete s)). Qed.

Lemma conclude_effects jobId startUrl startTime data s :
  effects (conclude jobId startUrl startTime data s)
  = match verdict startTime data s with
    | Completed =>
        (out s ++ [msg_complete (d_total data) (default 0%N (d_creditsUsed data))],
         (if (0 <? length (sentUrls s))%nat
          then cacheService.setCrawlUrlMap startUrl (sentUrls s) else id)
           (cacheService.updateCrawlJobStatus jobId (markCompleted (clock s)) (world s)),
         sentUrls s)
    | Failed =>
        (out s ++ [msg_error "Crawl job failed"],
         cacheService.updateCrawlJobStatus jobId (markFailed (clock s)) (world s),
         sentUrls s)
    | Pending => effects s
    end.
Proof.
  unfold conclude, verdict, effects. destruct (crawlIsComplete _ _).
  - cbn [set_isComplete on_world enqueue sentUrls out world clock].
    by destruct (0 <? length (sentUrls s))%nat.
  - by destruct (String.eqb _ _).
Qed.

Lemma conclude_isComplete jobId startUrl startTime data s :
  isComplete (conclude jobId startUrl startTime data s)
  = match verdict startTime data s with
    | Pending => isComplete s
    | _ => true
    end.
Proof.
  unfold conclude, verdict. destruct (crawlIsComplete _ _).
  - cbn [set_isComplete on_world enqueue sentUrls isComplete].
    by destruct (0 <? length (sentUrls s))%nat.
  - by destruct (String.eqb _ _).
Qed.

Lemma iteration_ok jobId startUrl startTime p data s :
  fetched p = Ok data →
  effects (iteration jobId startUrl startTime p s)
    = effects (conclude jobId startUrl startTime data (ingested jobId p data s))
  ∧ isComplete (iteration jobId startUrl startTime p s)
    = isComplete (conclude jobId startUrl startTime data (ingested jobId p data s)).
Proof.
  intros Hp. unfold iteration. rewrite Hp, wait_effects, wait_isComplete.
  unfold onData. fold (fetchedState jobId p s). fold (ingested jobId p data s).
  by destruct (Js.truthy (d_next data)).
Qed.

(** A turn of the loop whose poll brought no 2xx response: the stores
    are as they were, but for the logged call; at most one error message
    is sent, and the thresholds end the stream with theirs. *)
Lemma iteration_error jobId startUrl startTime p s :
  (∀ data, fetched p ≠ Ok data) → isComplete s = false →
  let s' := iteration jobId startUrl startTime p s in
  jobs (world s') = jobs (world s)
  ∧ urlMaps (world s') = urlMaps (world s)
  ∧ pages (world s') = pages (world s)
  ∧ sentUrls s' = sentUrls s
  ∧ (isComplete s' = true →
     out s' = out s ++ [msg_error gatewayErrorText]
     ∨ ∃ message, out s' = out s ++ [msg_error (networkErrorText message)]).
Proof.
  intros Hp Hlive s'. unfold s', iteration, wait.
  destruct (fetched p) as [message|data|httpStatus]; [|by destruct (Hp data)|].
  - unfold onThrow. cbn [on_world elapse consecutiveErrors set_consecutiveErrors].
    destruct (maxConsecutiveErrors <=? _)%N; cbn; rewrite ?Hlive; cbn; rewrite ?Hlive.
    + repeat split; try done. intros _. right. by eexists.
    + repeat split; try done.
  - unfold onErrorResponse. cbn [on_world elapse consecutiveErrors set_consecutiveErrors].
    destruct (bool_decide _); [destruct (maxConsecutiveErrors <=? _)%N|];
      cbn; rewrite ?Hlive; cbn; rewrite ?Hlive; repeat split; try done.
    intros _. by left.
Qed.


Lemma ingested_jobs jobId p data s :
  jobs (world (ingested jobId p data s))
  = alter (updatedMetadata data (lastPageNumber s)) jobId (jobs (world s)).
Proof.
  unfold ingested. cbn [elapse world].
  pose proof (ingest_ledgers jobId data (fetchedState jobId p s)) as H.
  unfold ledgers in H. injection H as H1 H2 H3. rewrite H1. reflexivity.
Qed.

Lemma ingested_urlMaps jobId p data s :
  urlMaps (world (ingested jobId p data s)) = urlMaps (world s).
Proof.
  unfold ingested. cbn [elapse world].
  pose proof (ingest_ledgers jobId data (fetchedState jobId p s)) as H.
  unfold ledgers in H. injection H as H1 H2 H3. rewrite H2. reflexivity.
Qed.

Lemma manifest_jobs (b : bool) startUrl us w :
  jobs ((if b then cacheService.setCrawlUrlMap startUrl us else id) w) = jobs w.
Proof. by destruct b. Qed.

Lemma updateJob_lookup jobId merge w j :
  jobs w !! jobId = Some j →
  jobs (cacheService.updateCrawlJobStatus jobId merge w) !! jobId = Some (merge j).
Proof. intros H. cbn. by rewrite lookup_alter_eq, H. Qed.

(** ** Error outcomes and the stored job *)



(** ** The polling ceiling *)

Lemma wait_consecutiveErrors s : consecutiveErrors (wait s) = consecutiveErrors s.
Proof. unfold wait. by destruct (negb (isComplete s)). Qed.

(** Below the threshold the error count stays for as long as the stream
    is not complete. *)
Lemma iteration_consecutiveErrors jobId startUrl startTime p s :
  isComplete s = false → (consecutiveErrors s < maxConsecutiveErrors)%N →
  let s' := iteration jobId startUrl startTime p s in
  isComplete s' = false → (consecutiveErrors s' < maxConsecutiveErrors)%N.
Proof.
  intros Hlive Hce s'. unfold s', iteration.
  rewrite wait_isComplete, wait_consecutiveErrors.
  destruct (fetched p) as [message|data|httpStatus].
  - unfold onThrow. cbn [on_world elapse consecutiveErrors set_consecutiveErrors].
    destruct (maxConsecutiveErrors <=? _)%N eqn:E; [done|].
    intros _. cbn. by apply N.leb_gt in E.
  - intros _.
    pose proof (onData_control jobId startUrl startTime (storeMs p) data
                  (fetchedState jobId p s) Hlive) as H.
    unfold control in H. cbv zeta in H. injection H as _ He _ _ _ _.
    fold (fetchedState jobId p s). rewrite He. done.
  - unfold onErrorResponse. cbn [on_world elapse consecutiveErrors set_consecutiveErrors].
    destruct (bool_decide _).
    + destruct (maxConsecutiveErrors <=? _)%N eqn:E; [done|].
      intros _. cbn. by apply N.leb_gt in E.
    + intros _. exact Hce.
Qed.

Lemma ceilingInvariant_iteration jobId startUrl startTime L p s :
  Z.of_N (fetchMs p) + Z.of_N (storeMs p) ≤ L →
  ceilingInvariant startTime L s → isComplete s = false →
  clock s - startTime < maxPollingTime →
  ceilingInvariant startTime L (iteration jobId startUrl startTime p s).
Proof.
  intros HL Hinv Hlive Hhead Hlive'. destruct (Hinv Hlive) as [Hce _].
  pose proof (iteration_consecutiveErrors jobId startUrl startTime p s Hlive Hce Hlive') as Hce'.
  split; [done|].
  destruct (iteration_clock jobId startUrl startTime p s Hlive) as (busy & Hbusy & Hclock).
  rewrite Hlive' in Hclock. pose proof (delay_bounds _ Hce'). lia.
Qed.

(** ** The status stream on concrete polls *)

Lemma live_job_7 : live (Start.crawlingJob "job-7" "https://docs.example.com/" 10 0 None).
Proof. by right. Qed.

(** With polls of one millisecond the loop test is made at 0, 2001,
    4002, ... and first finds the ceiling reached at 480240 ms. *)
Lemma idlePolls_run :
  ∃ s, GET statusEnv "job-7" idlePolls liveWorld = Some (Streamed s)
       ∧ isComplete s = false
       ∧ last (out s) = Some (msg_error timeoutText)
       ∧ clock s = 480240.
Proof. eexists. split; [vm_compute; reflexivity|]. repeat split; reflexivity. Qed.

(** Polls that take no time do not help when the wait before the next
    poll has been doubled: after 502 responses at 476 s and 478 s the
    loop sleeps 2 s and then 4 s, and its test is next made at 482 s. *)
Lemma backoffPolls_run :
  ∃ s, GET statusEnv "job-7" backoffPolls liveWorld = Some (Streamed s)
       ∧ isComplete s = false
       ∧ last (out s) = Some (msg_error timeoutText)
       ∧ clock s = 482000.
Proof. eexists. split; [vm_compute; reflexivity|]. repeat split; reflexivity. Qed.

(** The time-out message of the stream over [backoffPolls] goes out two
    seconds after the ceiling, although nothing but the sleeps between
    polls takes any time. *)
Lemma C2_counterexample : ¬ C2_as_stated.
Proof.
  intros H. destruct backoffPolls_run as (s & Hget & Hc & _ & Hclock).
  destruct (H statusEnv "job-7" backoffPolls liveWorld _ s eq_refl eq_refl live_job_7 Hget Hc)
    as [_ Hexact].
  rewrite Hclock in Hexact. discriminate Hexact.
Qed.





Lemma hitWorld_run :
  ∃ s, GET statusEnv "job-1" idlePolls hitWorld = Some (Streamed s)
       ∧ out s = [msg_url_complete "https://docs.example.com/a" "# A" true;
                  msg_complete 2 0].
Proof. eexists. split; [vm_compute; reflexivity|]. reflexivity. Qed.

(** The page that is no longer cached gets no message; the total still
    counts it. *)
Lemma C8_counterexample : ¬ C8_as_stated.
Proof.
  intros H. destruct hitWorld_run as (s & Hget & Hout).
  destruct (H statusEnv "job-1" idlePolls hitWorld _ _ eq_refl eq_refl eq_refl eq_refl)
    as (s' & contents & Hget' & Hlen & Hout' & _).
  rewrite Hget in Hget'. injection Hget' as <-. rewrite Hout in Hout'.
  destruct contents as [|c1 [|c2 [|c3 contents]]]; try discriminate Hlen.
  discriminate Hout'.
Qed.

Lemma C8_witness :
  ∃ s, GET statusEnv "job-1" idlePolls hitWorld = Some (Streamed s)
       ∧ out s = (cachedPage hitWorld <$> List.filter (servable hitWorld)
                    ["https://docs.example.com/a"; "https://docs.example.com/b"])
                   ++ [msg_complete (N.of_nat (length
                         ["https://docs.example.com/a"; "https://docs.example.com/b"])) 0]
       ∧ world s = hitWorld.
Proof.
  apply (C8_cache_fast_path statusEnv "job-1" idlePolls hitWorld
           (Start.cacheHitJob "job-1" "https://docs.example.com/" 10 0
              ["https://docs.example.com/a"; "https://docs.example.com/b"])).
  - reflexivity.
  - reflexivity.
  - reflexivity.
  - reflexivity.
Defined.

(** ** A turn of the loop on a 2xx response, in full *)

Ltac tuple_eq := repeat match goal with |- (_, _) = (_, _) => apply f_equal2 end.

Lemma control_elapse ms s :
  control (elapse ms s)
  = (isComplete s, consecutiveErrors s, lastProgressUpdate s, lastCompletedCount s,
     clock s + ms, jobNext s).
Proof. reflexivity. Qed.

Lemma ingested_control jobId p data s :
  control (ingested jobId p data s)
  = (isComplete s, 0%N,
     if progressed data s then clock s + Z.of_N (fetchMs p) else lastProgressUpdate s,
     if progressed data s then d_completed data else lastCompletedCount s,
     clock s + Z.of_N (fetchMs p) + Z.of_N (storeMs p), jobNext s).
Proof.
  pose proof (ingest_control jobId data (fetchedState jobId p s)) as H.
  unfold ingested. rewrite control_elapse. unfold control in H.
  injection H as H1 H2 H3 H4 H5 H6.
  tuple_eq; [exact H1|exact H2|exact H3|exact H4|by rewrite H5|exact H6].
Qed.

Lemma wait_control s :
  control (wait s)
  = (isComplete s, consecutiveErrors s, lastProgressUpdate s, lastCompletedCount s,
     (if isComplete s then clock s else clock s + delay s), jobNext s).
Proof. unfold wait. by destruct (isComplete s) eqn:E; unfold control; cbn; rewrite ?E. Qed.

(** The loop variables after a turn on a 2xx response. *)
Lemma iteration_ok_control jobId startUrl startTime p data s :
  fetched p = Ok data → isComplete s = false →
  let lpu := if progressed data s then clock s + Z.of_N (fetchMs p)
             else lastProgressUpdate s in
  let lcc := if progressed data s then d_completed data else lastCompletedCount s in
  let clock2 := clock s + Z.of_N (fetchMs p) + Z.of_N (storeMs p) in
  let over := settles startTime data lcc lpu clock2 in
  control (iteration jobId startUrl startTime p s)
  = (over, 0%N, lpu, lcc, (if over then clock2 else clock2 + pollInterval),
     if Js.truthy (d_next data) then d_next data else jobNext s).
Proof.
  intros Hp Hlive. cbv zeta. unfold iteration. rewrite Hp, wait_control.
  fold (fetchedState jobId p s).
  pose proof (onData_control jobId startUrl startTime (storeMs p) data
                (fetchedState jobId p s) Hlive) as H.
  cbv zeta in H. unfold control in H.
  assert (delay (onData jobId startUrl startTime (storeMs p) data (fetchedState jobId p s))
          = pollInterval) as Hdelay.
  { unfold delay. injection H as _ -> _ _ _ _. reflexivity. }
  rewrite Hdelay. injection H as -> -> -> -> -> ->. reflexivity.
Qed.

Lemma verdict_ingested jobId p data s startTime :
  verdict startTime data (ingested jobId p data s)
  = let lpu := if progressed data s then clock s + Z.of_N (fetchMs p)
               else lastProgressUpdate s in
    let lcc := if progressed data s then d_completed data else lastCompletedCount s in
    let clock2 := clock s + Z.of_N (fetchMs p) + Z.of_N (storeMs p) in
    if crawlIsComplete data (predicates data lcc (clock2 - lpu) (clock2 - startTime))
    then Completed
    else if String.eqb (d_status data) "failed" then Failed else Pending.
Proof.
  pose proof (ingested_control jobId p data s) as H. unfold control in H.
  unfold verdict.
  replace (lastCompletedCount (ingested jobId p data s))
    with (if progressed data s then d_completed data else lastCompletedCount s)
    by congruence.
  replace (lastProgressUpdate (ingested jobId p data s))
    with (if progressed data s then clock s + Z.of_N (fetchMs p) else lastProgressUpdate s)
    by congruence.
  replace (clock (ingested jobId p data s))
    with (clock s + Z.of_N (fetchMs p) + Z.of_N (storeMs p)) by congruence.
  reflexivity.
Qed.

(** A turn that finds the crawl complete: the job is stored as
    [completed] and [complete] is the last message. *)
Lemma iteration_completed jobId startUrl startTime p data s j :
  fetched p = Ok data → jobs (world s) !! jobId = Some j →
  verdict startTime data (ingested jobId p data s) = Completed →
  let s' := iteration jobId startUrl startTime p s in
  isComplete s' = true
  ∧ last (out s') = Some (msg_complete (d_total data) (default 0%N (d_creditsUsed data)))
  ∧ ∃ j', jobs (world s') !! jobId = Some j' ∧ Job.status j' = "completed".
Proof.
  intros Hp Hj Hv s'. unfold s'.
  destruct (iteration_ok jobId startUrl startTime p data s Hp) as [Heff Hcomp].
  rewrite conclude_effects in Heff. rewrite conclude_isComplete in Hcomp.
  pose proof (ingested_jobs jobId p data s) as Hjobs.
  change (world (ingested jobId p data s))
    with (world (ingest jobId data (fetchedState jobId p s))) in Hjobs.
  rewrite Hv in Heff, Hcomp. unfold effects in Heff. injection Heff as Hout Hworld _.
  rewrite Hcomp, Hout, Hworld, last_snoc. split; [done|]. split; [done|].
  eexists. split.
  - rewrite manifest_jobs. apply updateJob_lookup.
    rewrite Hjobs, lookup_alter_eq, Hj. reflexivity.
  - reflexivity.
Qed.

(** A turn that leaves the crawl pending keeps the job in the store. *)
Lemma iteration_pending jobId startUrl startTime p data s j :
  fetched p = Ok data → jobs (world s) !! jobId = Some j →
  verdict startTime data (ingested jobId p data s) = Pending →
  jobs (world (iteration jobId startUrl startTime p s)) !! jobId
  = Some (updatedMetadata data (lastPageNumber s) j).
Proof.
  intros Hp Hj Hv.
  destruct (iteration_ok jobId startUrl startTime p data s Hp) as [Heff _].
  rewrite conclude_effects, Hv in Heff. unfold effects in Heff.
  injection Heff as _ Hworld _. rewrite Hworld.
  pose proof (ingested_jobs jobId p data s) as Hjobs.
  change (world (ingested jobId p data s))
    with (world (ingest jobId data (fetchedState jobId p s))) in Hjobs.
  by rewrite Hjobs, lookup_alter_eq, Hj.
Qed.

(** A turn whose response the provider marks failed and that no
    completion rule claims. *)
Lemma iteration_failed jobId startUrl startTime p data s j :
  fetched p = Ok data → jobs (world s) !! jobId = Some j →
  verdict startTime data (ingested jobId p data s) = Failed →
  let s' := iteration jobId startUrl startTime p s in
  isComplete s' = true
  ∧ last (out s') = Some (msg_error "Crawl job failed")
  ∧ urlMaps (world s') = urlMaps (world s)
  ∧ ∃ j', jobs (world s') !! jobId = Some j' ∧ Job.status j' = "failed"
          ∧ Job.failedAt j' = Some (clock s + Z.of_N (fetchMs p) + Z.of_N (storeMs p)).
Proof.
  intros Hp Hj Hv s'. unfold s'.
  destruct (iteration_ok jobId startUrl startTime p data s Hp) as [Heff Hcomp].
  rewrite conclude_effects in Heff. rewrite conclude_isComplete in Hcomp.
  pose proof (ingested_jobs jobId p data s) as Hjobs.
  pose proof (ingested_urlMaps jobId p data s) as Hmaps.
  pose proof (ingested_control jobId p data s) as Hctl.
  unfold control in Hctl. injection Hctl as _ _ _ _ Hclock _.
  change (world (ingested jobId p data s))
    with (world (ingest jobId data (fetchedState jobId p s))) in Hjobs, Hmaps.
  change (clock (ingested jobId p data s))
    with (clock (ingest jobId data (fetchedState jobId p s)) + Z.of_N (storeMs p)) in Hclock.
  rewrite Hv in Heff, Hcomp. unfold effects in Heff. injection Heff as Hout Hworld _.
  rewrite Hcomp, Hout, Hworld, last_snoc. split; [done|]. split; [done|].
  split; [exact Hmaps|].
  eexists. split.
  - apply updateJob_lookup. rewrite Hjobs, lookup_alter_eq, Hj. reflexivity.
  - split; [reflexivity|]. cbn [markFailed Job.failedAt]. f_equal.
    cbn [clock elapse] in *. lia.
Qed.

(** No turn of the loop removes the polled job from the store. *)
Lemma job_stays jobId startUrl startTime p s :
  isComplete s = false → is_Some (jobs (world s) !! jobId) →
  is_Some (jobs (world (iteration jobId startUrl startTime p s)) !! jobId).
Proof.
  intros Hlive [j Hj]. destruct (fetched p) as [message|data|httpStatus] eqn:Hp.
  1, 3: destruct (iteration_error jobId startUrl startTime p s) as (Hjobs & _);
    [intros data; by rewrite Hp|done|]; rewrite Hjobs; by exists j.
  destruct (verdict startTime data (ingested jobId p data s)) eqn:Hv.
  - destruct (iteration_completed jobId startUrl startTime p data s j Hp Hj Hv)
      as (_ & _ & j' & Hj' & _). by exists j'.
  - destruct (iteration_failed jobId startUrl startTime p data s j Hp Hj Hv)
      as (_ & _ & _ & j' & Hj' & _). by exists j'.
  - eexists. by apply (iteration_pending _ _ startTime _ data _ j).
Qed.

(** ** The stall predicate *)

(** The ratio test on exact rationals is a comparison of integers. *)
Lemma isNearComplete_spec data lcc t1 t2 :
  isNearComplete (predicates data lcc t1 t2) = true
  ↔ (0 < d_completed data ∧ 0 < d_total data ∧ 95 * d_total data ≤ 100 * d_completed data)%N.
Proof.
  unfold predicates, isNearComplete, completionRatio.
  destruct (d_completed data) as [|c] eqn:Hc; destruct (d_total data) as [|t] eqn:Ht.
  - split; [discriminate|lia].
  - split; [discriminate|lia].
  - split; [discriminate|lia].
  - unfold Qle_bool. cbn [Qnum Qden]. rewrite Z.leb_le. split.
    + intros H. split; [lia|]. split; lia.
    + intros (_ & _ & H). lia.
Qed.

(** An OK response that shows no next cursor and a ratio of at least
    0.95 completes the crawl as soon as it is looked at more than
    [maxStallTime] after the last progress. *)
Lemma stalled_near_complete data lcc lpu clock2 startTime :
  (0 < d_completed data ∧ 0 < d_total data ∧ 95 * d_total data ≤ 100 * d_completed data)%N →
  Js.truthy (d_next data) = false →
  maxStallTime < clock2 - lpu →
  crawlIsComplete data (predicates data lcc (clock2 - lpu) (clock2 - startTime)) = true.
Proof.
  intros Hratio Hnext Hstall. unfold crawlIsComplete.
  apply (isNearComplete_spec data lcc (clock2 - lpu) (clock2 - startTime)) in Hratio.
  rewrite Hratio, Hnext.
  assert (hasStalled (predicates data lcc (clock2 - lpu) (clock2 - startTime)) = true) as ->.
  { unfold predicates, hasStalled. by apply Z.ltb_lt. }
  cbn [andb negb]. by rewrite !orb_true_r.
Qed.

(** ** The course of an open stream, from the polls *)

(** A turn whose poll brings no 2xx response and does not reach the
    error threshold. *)
Lemma iteration_error_control jobId startUrl startTime p s :
  (∀ data, fetched p ≠ Ok data) → isComplete s = false →
  let n := (consecutiveErrors s + if failing p then 1 else 0)%N in
  (n < maxConsecutiveErrors)%N →
  control (iteration jobId startUrl startTime p s)
  = (false, n, lastProgressUpdate s, lastCompletedCount s,
     clock s + Z.of_N (fetchMs p) + backoff n, jobNext s).
Proof.
  intros Hp Hlive n Hn. unfold n in *. clear n. unfold iteration, wait, failing in *.
  destruct (fetched p) as [message|data|httpStatus]; [|by destruct (Hp data)|].
  - unfold onThrow. cbn [on_world elapse consecutiveErrors set_consecutiveErrors].
    apply N.leb_gt in Hn. rewrite Hn. unfold control, delay. cbn. rewrite Hlive. cbn.
    rewrite ?Hlive. reflexivity.
  - unfold onErrorResponse. cbn [on_world elapse consecutiveErrors set_consecutiveErrors].
    destruct (bool_decide _).
    + apply N.leb_gt in Hn. rewrite Hn. unfold control, delay. cbn. rewrite Hlive. cbn.
      rewrite ?Hlive. reflexivity.
    + rewrite N.add_0_r. unfold control, delay. cbn. rewrite Hlive. cbn. rewrite ?Hlive.
      reflexivity.
Qed.

(** The completion test depends on the times only through their
    differences. *)
Lemma settles_shift startTime data lcc a b :
  settles startTime data lcc (startTime + a) (startTime + b) = settles 0 data lcc a b.
Proof.
  unfold settles.
  replace (startTime + b - (startTime + a)) with (b - a) by lia.
  replace (startTime + b - startTime) with (b - 0) by lia.
  reflexivity.
Qed.

Lemma progressed_recorded polls i data s :
  fetched (polls i) = Ok data → lastCompletedCount s = recorded polls i →
  progressed data s = (recorded polls i <? reported (polls i))%N.
Proof.
  intros Hp Hlcc. unfold progressed, reported. rewrite Hp, Hlcc.
  destruct (recorded polls i <? d_completed data)%N eqn:Hlt; [|apply andb_false_r].
  apply N.ltb_lt in Hlt. rewrite andb_true_r. apply N.ltb_lt. lia.
Qed.

(** A poll that does not end the stream leaves it as the polls
    determine. *)
Lemma track_step jobId startUrl startTime polls i s :
  trackInvariant polls startTime i s → endsAt polls i = false →
  trackInvariant polls startTime (S i) (iteration jobId startUrl startTime (polls i) s).
Proof.
  intros (Hlive & Hce & Hclock & Hlcc & Hlpu) Hopen. unfold endsAt in Hopen.
  destruct (fetched (polls i)) as [message|data|httpStatus] eqn:Hp.
  1, 3: apply N.leb_gt in Hopen;
    pose proof (iteration_error_control jobId startUrl startTime (polls i) s) as Hctl;
    cbv zeta in Hctl; rewrite Hce in Hctl;
    cbn [errorCount] in Hopen; rewrite Hp in Hopen;
    assert ((errorCount polls i + (if failing (polls i) then 1 else 0))%N
            = if failing (polls i) then (errorCount polls i + 1)%N else errorCount polls i)
      as Hn by (destruct (failing (polls i)); lia);
    rewrite Hn in Hctl;
    specialize (Hctl ltac:(intros data; by rewrite Hp) Hlive Hopen);
    unfold control in Hctl; injection Hctl as Hc He Hu Hl Hk _;
    unfold trackInvariant; cbn [errorCount testTime recorded notedAt];
    unfold busy, reported; rewrite Hp, Hc, He, Hu, Hl, Hk, Hclock, Hlcc, Hlpu;
    replace (recorded polls i <? 0)%N with false by (symmetry; apply N.ltb_ge; lia);
    repeat split; try done; lia.
  pose proof (iteration_ok_control jobId startUrl startTime (polls i) data s Hp Hlive) as Hctl.
  cbv zeta in Hctl. rewrite (progressed_recorded polls i data s Hp Hlcc) in Hctl.
  cbn [recorded notedAt] in Hopen. unfold busy in Hopen. rewrite Hp in Hopen.
  assert (reported (polls i) = d_completed data) as Hrep by (unfold reported; by rewrite Hp).
  assert (settles startTime data
            (if (recorded polls i <? reported (polls i))%N
             then d_completed data else lastCompletedCount s)
            (if (recorded polls i <? reported (polls i))%N
             then clock s + Z.of_N (fetchMs (polls i)) else lastProgressUpdate s)
            (clock s + Z.of_N (fetchMs (polls i)) + Z.of_N (storeMs (polls i))) = false)
    as Hover.
  { rewrite <- Hopen, <- settles_shift with (startTime := startTime).
    rewrite Hclock, Hlcc, Hlpu, Hrep.
    destruct (recorded polls i <? d_completed data)%N; f_equal; lia. }
  rewrite Hover in Hctl. unfold control in Hctl. injection Hctl as Hc He Hu Hl Hk _.
  unfold trackInvariant. cbn [errorCount testTime recorded notedAt]. unfold busy.
  rewrite Hp, Hc, He, Hu, Hl, Hk, Hclock, Hlcc, Hlpu, Hrep.
  split; [done|]. split; [done|]. split; [unfold backoff; cbn; lia|].
  split; destruct (recorded polls i <? d_completed data)%N; try done; lia.
Qed.

(** C2, as amended. A live job is polled, the polls taking at most [L]
    ms each, and none of the polls made before the ceiling ends the
    stream: no 2xx response satisfies a completion predicate or reports
    failure when it is looked at, and no failure (a thrown request, a
    502, 503 or 504) is the fifth in a row.  Then the stream closes,
    still incomplete, with the time-out error message, sent when the loop
    test first finds the ceiling reached: no earlier than eight minutes
    after the start, and later than that by less than one turn of the
    loop ([L] plus the longest wait between polls, 16 s). *)
Theorem C2_timeout_after_ceiling env jobId polls w job L :
  Js.truthy (FIRECRAWL_API_KEY env) = true →
  cacheService.getCrawlJob jobId w = Some job → live job →
  (∀ i, Z.of_N (fetchMs (polls i)) + Z.of_N (storeMs (polls i)) ≤ L) →
  (∀ i, testTime polls i < maxPollingTime → endsAt polls i = false) →
  ∃ s n,
    GET env jobId polls w = Some (Streamed s)
    ∧ isComplete s = false
    ∧ last (out s) = Some (msg_error timeoutText)
    ∧ clock s = now env + testTime polls n
    ∧ (∀ m, (m < n)%nat → testTime polls m < maxPollingTime)
    ∧ now env + maxPollingTime ≤ clock s < now env + maxPollingTime + L + 16000.
Proof.
  intros Hkey Hjob Hlive HL Hopen. rewrite (GET_live _ _ _ _ job) by done. unfold poll.
  destruct (pollLoop_total jobId (Job.url job) (now env) polls enoughFuel 0
              (initial (now env) job w)) as [s' Hloop].
  { unfold initial, enoughFuel, maxPollingTime, pollInterval. simpl. lia. }
  rewrite Hloop. cbn [mbind option_bind fmap option_fmap option_map].
  destruct (pollLoop_invariant
              (λ i s, trackInvariant polls (now env) i s
                      ∧ (∀ m, (m < i)%nat → testTime polls m < maxPollingTime)
                      ∧ ceilingInvariant (now env) L s)
              jobId (Job.url job) (now env) polls)
    with (fuel := enoughFuel) (i := 0%nat) (s := initial (now env) job w) (s' := s')
    as [[n (Htrack & Hbefore & Hceil)] Hexit]; [| |done|].
  { intros i s (Htrack & Hbefore & Hceil) Hc Hguard.
    assert (testTime polls i < maxPollingTime) as Hnow.
    { destruct Htrack as (_ & _ & Hclock & _). lia. }
    split; [apply track_step; [done|by apply Hopen]|]. split.
    - intros m Hm. destruct (decide (m = i)) as [->|]; [done|]. apply Hbefore. lia.
    - by apply ceilingInvariant_iteration. }
  { split; [|split].
    - unfold trackInvariant, initial. cbn. repeat split; try done; lia.
    - intros m Hm. lia.
    - intros _. pose proof (HL 0%nat). unfold initial, maxPollingTime, maxConsecutiveErrors.
      simpl. lia. }
  destruct Htrack as (Hlive' & _ & Hclock & _).
  destruct Hexit as [Hexit|Hexit]; [congruence|]. destruct (Hceil Hlive') as [_ Hupper].
  rewrite Hlive'. cbn [negb]. eexists _, n. split; [reflexivity|].
  cbn [enqueue out clock isComplete]. rewrite last_snoc. repeat split; try done; lia.
Qed.

Lemma C2_witness :
  ∃ s n,
    GET statusEnv "job-7" idlePolls liveWorld = Some (Streamed s)
    ∧ isComplete s = false
    ∧ last (out s) = Some (msg_error timeoutText)
    ∧ clock s = now statusEnv + testTime idlePolls n
    ∧ (∀ m, (m < n)%nat → testTime idlePolls m < maxPollingTime)
    ∧ now statusEnv + maxPollingTime ≤ clock s < now statusEnv + maxPollingTime + 1 + 16000.
Proof.
  apply (C2_timeout_after_ceiling statusEnv "job-7" idlePolls liveWorld
           (Start.crawlingJob "job-7" "https://docs.example.com/" 10 0 None) 1).
  - reflexivity.
  - reflexivity.
  - by right.
  - intros i. simpl. lia.
  - intros i Hi. unfold endsAt, settles, crawlIsComplete, busy.
    cbn [idlePolls fetched fetchMs storeMs scraping d_status d_next d_completed d_total
         String.eqb Ascii.eqb Bool.eqb Js.truthy negb andb orb N.eqb
         predicates isNearComplete isMostlyComplete hasExceededMaxTime completionRatio
         Qle_bool Qnum Qden Z.leb Z.mul Z.compare Pos.mul Z.of_N].
    rewrite ?andb_false_r. cbn [andb orb]. rewrite orb_false_r.
    apply Z.ltb_ge. unfold maxPollingTime in Hi. lia.
Defined.

Lemma stall_step jobId startUrl startTime p data s j tp L completed total :
  fetched p = Ok data → isComplete s = false → jobs (world s) !! jobId = Some j →
  d_completed data = completed → d_total data = total →
  (0 < completed)%N → (0 < total)%N → (95 * total ≤ 100 * completed)%N →
  Js.truthy (d_next data) = false → d_status data ≠ "failed" →
  (if progressed data s then clock s + Z.of_N (fetchMs p) else lastProgressUpdate s) = tp →
  (if progressed data s then d_completed data else lastCompletedCount s) = completed →
  clock s + Z.of_N (fetchMs p) + Z.of_N (storeMs p) ≤ tp + maxStallTime + pollInterval + L →
  stalling jobId tp L completed total (iteration jobId startUrl startTime p s).
Proof.
  intros Hp Hlive Hj Hc Ht Hc0 Ht0 Hratio Hnext Hfail Hlpu Hlcc Hclock.
  pose proof (iteration_ok_control jobId startUrl startTime p data s Hp Hlive) as Hctl.
  pose proof (verdict_ingested jobId p data s startTime) as Hv.
  cbv zeta in Hctl, Hv. rewrite Hlpu, Hlcc in Hctl, Hv.
  unfold settles in Hctl. apply String.eqb_neq in Hfail. rewrite Hfail in Hctl, Hv.
  rewrite orb_false_r in Hctl. unfold control in Hctl.
  set (clock2 := clock s + Z.of_N (fetchMs p) + Z.of_N (storeMs p)) in *.
  assert (isComplete (iteration jobId startUrl startTime p s)
          = crawlIsComplete data
              (predicates data completed (clock2 - tp) (clock2 - startTime))) as Hcomp
    by congruence.
  assert (consecutiveErrors (iteration jobId startUrl startTime p s) = 0%N) as Hce
    by congruence.
  assert (lastProgressUpdate (iteration jobId startUrl startTime p s) = tp) as Hlpu'
    by congruence.
  assert (lastCompletedCount (iteration jobId startUrl startTime p s) = completed) as Hlcc'
    by congruence.
  assert (clock (iteration jobId startUrl startTime p s)
          = if crawlIsComplete data
                 (predicates data completed (clock2 - tp) (clock2 - startTime))
            then clock2 else clock2 + pollInterval) as Hclock'
    by congruence.
  clear Hctl. unfold stalling. rewrite Hcomp, Hlpu', Hlcc', Hce, Hclock'.
  split; [done|]. split; [done|].
  destruct (crawlIsComplete data _) eqn:Hover.
  - destruct (iteration_completed jobId startUrl startTime p data s j Hp Hj Hv)
      as (_ & Hlast & j' & Hj' & Hstatus).
    split; [by exists j'|]. split; [done|]. rewrite Ht in Hlast. by eexists.
  - split.
    + eexists. split; [|done]. by apply (iteration_pending _ _ startTime _ data).
    + split; [done|]. destruct (Z.le_gt_cases (clock2 - tp) maxStallTime) as [?|Hstall].
      * unfold pollInterval. lia.
      * rewrite stalled_near_complete in Hover; [done| |done|lia].
        rewrite Hc, Ht. lia.
Qed.

(** Under [steady] polls of at most [L] ms each, with a ratio of at
    least 0.95, the stream completes no later than one poll interval
    plus [L] after the stall window that began at [tp] has elapsed. *)
Lemma stall_completes_within env jobId polls w job completed total L :
  Js.truthy (FIRECRAWL_API_KEY env) = true →
  cacheService.getCrawlJob jobId w = Some job → live job →
  (0 < completed)%N → (0 < total)%N → (95 * total ≤ 100 * completed)%N →
  steady polls completed total →
  (∀ i, Z.of_N (fetchMs (polls i)) + Z.of_N (storeMs (polls i)) ≤ L) → L < 418000 →
  let tp := now env + Z.of_N (fetchMs (polls 0%nat)) in
  ∃ s j credits,
    GET env jobId polls w = Some (Streamed s)
    ∧ isComplete s = true
    ∧ last (out s) = Some (msg_complete total credits)
    ∧ cacheService.getCrawlJob jobId (world s) = Some j
    ∧ Job.status j = "completed"
    ∧ clock s ≤ tp + maxStallTime + pollInterval + L.
Proof.
  intros Hkey Hjob Hlive Hc0 Ht0 Hratio Hsteady HL HLmax tp.
  rewrite (GET_live _ _ _ _ job) by done. unfold poll.
  destruct (pollLoop_total jobId (Job.url job) (now env) polls enoughFuel 0
              (initial (now env) job w)) as [s' Hloop].
  { unfold initial, enoughFuel, maxPollingTime, pollInterval. simpl. lia. }
  rewrite Hloop. cbn [mbind option_bind fmap option_fmap option_map].
  destruct (pollLoop_invariant
              (stallInvariant jobId job w (now env) tp L completed total)
              jobId (Job.url job) (now env) polls)
    with (fuel := enoughFuel) (i := 0%nat) (s := initial (now env) job w) (s' := s')
    as [[k Hinv] Hexit]; [|reflexivity|done|].
  { intros i s Hinv Hc Hhead. destruct (Hsteady i) as (data & Hp & Hdc & Hdt & Hnext & Hfail).
    pose proof (HL i) as HLi. destruct i as [|i]; cbn [stallInvariant] in *.
    - subst s.
      assert (progressed data (initial (now env) job w) = true) as Hprog.
      { unfold progressed, initial. cbn. rewrite Hdc.
        apply andb_true_iff. split; by apply N.ltb_lt. }
      apply (stall_step _ _ _ _ data _ job); try done; rewrite ?Hprog; try done.
      unfold initial, maxStallTime, pollInterval, tp. cbn [clock]. lia.
    - destruct Hinv as (Hlpu & Hlcc & (j & Hj & _) & Hrest). rewrite Hc in Hrest.
      destruct Hrest as [Hce Hclock].
      assert (progressed data s = false) as Hprog.
      { unfold progressed. rewrite Hlcc, Hdc, N.ltb_irrefl. apply andb_false_r. }
      apply (stall_step _ _ _ _ data _ j); try done; rewrite ?Hprog; try done. lia. }
  destruct k as [|k]; cbn [stallInvariant] in Hinv.
  - subst s'. destruct Hexit as [Hexit|Hexit]; [done|].
    unfold initial, maxPollingTime in Hexit. simpl in Hexit. lia.
  - destruct Hinv as (_ & _ & (j & Hj & Hstatus) & Hrest).
    destruct (isComplete s') eqn:Hc; cbn [negb].
    + destruct Hrest as [Hclock [credits Hlast]]. exists s', j, credits.
      repeat split; try done. by apply Hstatus.
    + destruct Hexit as [?|Hexit]; [done|]. destruct Hrest as [_ Hclock].
      pose proof (HL 0%nat). unfold maxPollingTime, maxStallTime, pollInterval, tp in *. lia.
Qed.

Lemma backoff_lower n : pollInterval ≤ backoff n.
Proof.
  unfold backoff, pollInterval. destruct (0 <? n)%N eqn:E; [|lia].
  apply N.ltb_lt in E.
  assert (1 ≤ 2 ^ (Z.of_N n - 1)) by (apply (Z.pow_le_mono_r 2 0); lia).
  lia.
Qed.

(** The loop tests are made at increasing times. *)
Lemma testTime_mono polls i j : (i ≤ j)%nat → testTime polls i ≤ testTime polls j.
Proof.
  induction 1 as [|j _ IH]; [lia|]. cbn [testTime].
  pose proof (backoff_lower (errorCount polls (S j))) as Hb. unfold pollInterval in Hb.
  unfold busy. destruct (fetched (polls j)); lia.
Qed.

Lemma rise_step jobId startUrl startTime polls k L completed total i s :
  (0 < total)%N → (95 * total ≤ 100 * completed)%N →
  (∀ i, (i < k)%nat → endsAt polls i = false) →
  (recorded polls k < completed)%N →
  steadyFrom polls k completed total →
  (∀ i, Z.of_N (fetchMs (polls i)) + Z.of_N (storeMs (polls i)) ≤ L) →
  let tp := startTime + testTime polls k + Z.of_N (fetchMs (polls k)) in
  riseInvariant jobId polls startTime k tp L completed total i s →
  isComplete s = false →
  riseInvariant jobId polls startTime k tp L completed total (S i)
    (iteration jobId startUrl startTime (polls i) s).
Proof.
  intros Ht0 Hratio Hopen Hlast Hsteady HL tp [(Hi & Htrack & Hjob)|[Hi Hinv]] Hc.
  - destruct (decide (i = k)) as [->|Hne].
    + right. split; [lia|].
      destruct Htrack as (Hlive & Hce & Hclock & Hlcc & Hlpu).
      destruct Hjob as [j Hj].
      destruct (Hsteady k) as (data & Hp & Hdc & Hdt & Hnext & Hfail); [lia|].
      assert (progressed data s = true) as Hprog.
      { unfold progressed. rewrite Hlcc, Hdc. apply andb_true_iff. split; apply N.ltb_lt; lia. }
      pose proof (HL k) as HLk.
      apply (stall_step _ _ _ _ data _ j); try done; rewrite ?Hprog; try done; try lia.
      unfold tp, maxStallTime, pollInterval. lia.
    + left. split; [lia|]. split.
      * apply track_step; [done|]. apply Hopen. lia.
      * by apply job_stays.
  - right. split; [lia|].
    destruct Hinv as (Hlpu & Hlcc & (j & Hj & _) & Hrest). rewrite Hc in Hrest.
    destruct Hrest as [Hce Hclock].
    destruct (Hsteady i) as (data & Hp & Hdc & Hdt & Hnext & Hfail); [lia|].
    pose proof (HL i) as HLi.
    assert (progressed data s = false) as Hprog.
    { unfold progressed. rewrite Hlcc, Hdc, N.ltb_irrefl. apply andb_false_r. }
    apply (stall_step _ _ _ _ data _ j); try done; rewrite ?Hprog; try done; lia.
Qed.

(** C5, as amended. A live job is polled, each poll taking at most [L]
    ms.  None of the first [k] polls (there may be none) ends the
    stream, and the highest count of completed pages they report is below
    [completed].  From poll [k] on every response is a 2xx that reports
    [completed] of [total] pages, a ratio of at least 0.95, with no next
    cursor and no failure status.  Progress is then last noted when the
    response of poll [k] arrives, at [tp]; the stream marks the job
    [completed] and sends [complete] at the first response looked at
    after the stall window, which is within one poll interval plus the
    duration [L] of that poll after the window elapses. *)
Theorem C5_stall_completes env jobId polls w job k completed total L :
  Js.truthy (FIRECRAWL_API_KEY env) = true →
  cacheService.getCrawlJob jobId w = Some job → live job →
  (0 < total)%N → (95 * total ≤ 100 * completed)%N →
  (∀ i, (i < k)%nat → endsAt polls i = false) →
  (recorded polls k < completed)%N →
  steadyFrom polls k completed total →
  (∀ i, Z.of_N (fetchMs (polls i)) + Z.of_N (storeMs (polls i)) ≤ L) →
  testTime polls k + L + maxStallTime + pollInterval < maxPollingTime →
  let tp := now env + testTime polls k + Z.of_N (fetchMs (polls k)) in
  ∃ s j credits,
    GET env jobId polls w = Some (Streamed s)
    ∧ isComplete s = true
    ∧ last (out s) = Some (msg_complete total credits)
    ∧ cacheService.getCrawlJob jobId (world s) = Some j
    ∧ Job.status j = "completed"
    ∧ clock s ≤ tp + maxStallTime + pollInterval + L.
Proof.
  intros Hkey Hjob Hlive Ht0 Hratio Hopen Hlast Hsteady HL Hroom tp.
  rewrite (GET_live _ _ _ _ job) by done. unfold poll.
  destruct (pollLoop_total jobId (Job.url job) (now env) polls enoughFuel 0
              (initial (now env) job w)) as [s' Hloop].
  { unfold initial, enoughFuel, maxPollingTime, pollInterval. simpl. lia. }
  rewrite Hloop. cbn [mbind option_bind fmap option_fmap option_map].
  pose proof (HL k) as HLk.
  destruct (pollLoop_invariant
              (riseInvariant jobId polls (now env) k tp L completed total)
              jobId (Job.url job) (now env) polls)
    with (fuel := enoughFuel) (i := 0%nat) (s := initial (now env) job w) (s' := s')
    as [[n Hinv] Hexit]; [| |done|].
  { intros i s Hinv Hc _. by apply rise_step. }
  { left. split; [lia|]. split.
    - unfold trackInvariant, initial. cbn. repeat split; try done; lia.
    - by exists job. }
  destruct Hinv as [(Hn & (Hlive' & _ & Hclock & _) & _)|[Hn Hinv]].
  - exfalso. destruct Hexit as [Hexit|Hexit]; [congruence|].
    pose proof (testTime_mono polls n k Hn).
    unfold maxStallTime, pollInterval, maxPollingTime in *. lia.
  - destruct Hinv as (_ & _ & (j & Hj & Hstatus) & Hrest).
    destruct (isComplete s') eqn:Hc; cbn [negb].
    + destruct Hrest as [Hclock [credits Hlast']]. exists s', j, credits.
      repeat split; try done. by apply Hstatus.
    + exfalso. destruct Hexit as [?|Hexit]; [done|]. destruct Hrest as [_ Hclock].
      unfold maxPollingTime, maxStallTime, pollInterval, tp in *. lia.
Qed.

(** When polls take no time the stream completes within one poll
    interval of the end of the stall window. *)
Lemma stall_completes_on_time env jobId polls w job completed total :
  Js.truthy (FIRECRAWL_API_KEY env) = true →
  cacheService.getCrawlJob jobId w = Some job → live job →
  (0 < completed)%N → (0 < total)%N → (95 * total ≤ 100 * completed)%N →
  steady polls completed total →
  (∀ i, fetchMs (polls i) = 0%N ∧ storeMs (polls i) = 0%N) →
  ∃ s, GET env jobId polls w = Some (Streamed s)
       ∧ isComplete s = true
       ∧ clock s ≤ now env + maxStallTime + pollInterval.
Proof.
  intros Hkey Hjob Hlive Hc0 Ht0 Hratio Hsteady Hinstant.
  destruct (stall_completes_within env jobId polls w job completed total 0)
    as (s & j & credits & Hget & Hc & _ & _ & _ & Hclock); try done.
  { intros i. destruct (Hinstant i) as [-> ->]. done. }
  exists s. split; [done|]. split; [done|].
  destruct (Hinstant 0%nat) as [Hf _]. rewrite Hf in Hclock. lia.
Qed.

Lemma stallPolls_steady : steady stallPolls 96 100.
Proof. intros i. eexists. repeat split; try reflexivity. discriminate. Qed.

Lemma stallPolls_run :
  ∃ s, GET statusEnv "job-7" stallPolls liveWorld = Some (Streamed s)
       ∧ isComplete s = true
       ∧ last (out s) = Some (msg_complete 100 96)
       ∧ clock s = 64000.
Proof. eexists. split; [vm_compute; reflexivity|]. repeat split; reflexivity. Qed.

(** With polls of one second, progress is noted at 1000 ms and the
    responses are looked at every 3000 ms after that: at 61000 ms the
    stall window has only just been reached, and the crawl is completed
    at 64000 ms, three seconds after the window elapsed. *)
Lemma C5_counterexample : ¬ C5_as_stated.
Proof.
  intros H. destruct stallPolls_run as (s & Hget & _ & _ & Hclock).
  assert (0 < 96)%N as H96 by reflexivity.
  assert (0 < 100)%N as H100 by reflexivity.
  assert (95 * 100 ≤ 100 * 96)%N as Hratio by (vm_compute; discriminate).
  pose proof (H statusEnv "job-7" stallPolls liveWorld _ 96%N 100%N
                eq_refl eq_refl live_job_7 H96 H100 Hratio stallPolls_steady) as Hclaim.
  clear H. cbv zeta in Hclaim. destruct Hclaim as (s' & Hget' & _ & Hbound).
  rewrite Hget in Hget'. injection Hget' as <-. rewrite Hclock in Hbound.
  vm_compute in Hbound. by apply Hbound.
Qed.

(** Progress is noted at 1000 ms and again at 7000 ms; the responses are
    then looked at every 3000 ms, and the one that arrives at 70000 ms,
    the first more than 60 s after the last progress, completes the
    crawl. *)
Lemma rampPolls_run :
  ∃ s, GET statusEnv "job-7" rampPolls liveWorld = Some (Streamed s)
       ∧ isComplete s = true
       ∧ last (out s) = Some (msg_complete 100 96)
       ∧ clock s = 70000.
Proof. eexists. split; [vm_compute; reflexivity|]. repeat split; reflexivity. Qed.

Lemma C5_witness :
  ∃ s j credits,
    GET statusEnv "job-7" rampPolls liveWorld = Some (Streamed s)
    ∧ isComplete s = true
    ∧ last (out s) = Some (msg_complete 100 credits)
    ∧ cacheService.getCrawlJob "job-7" (world s) = Some j
    ∧ Job.status j = "completed"
    ∧ clock s ≤ (now statusEnv + testTime rampPolls 2 + Z.of_N (fetchMs (rampPolls 2%nat)))
                  + maxStallTime + pollInterval + 1000.
Proof.
  apply (C5_stall_completes statusEnv "job-7" rampPolls liveWorld
           (Start.crawlingJob "job-7" "https://docs.example.com/" 10 0 None) 2 96 100 1000).
  - reflexivity.
  - reflexivity.
  - by right.
  - reflexivity.
  - vm_compute. discriminate.
  - intros i Hi. destruct i as [|[|i]]; [reflexivity|reflexivity|lia].
  - reflexivity.
  - intros i Hi. destruct i as [|[|i]]; [lia|lia|]. eexists.
    split; [reflexivity|]. split; [reflexivity|]. split; [reflexivity|].
    split; [reflexivity|]. discriminate.
  - intros i. simpl. lia.
  - reflexivity.
Defined.

(** ** What a manifest lists *)

(** The world after the [complete] branch has written to the stores. *)
Lemma settled_world (b : bool) jobId merge startUrl us w :
  let w' := (if b then cacheService.setCrawlUrlMap startUrl us else id)
              (cacheService.updateCrawlJobStatus jobId merge w) in
  pages w' = pages w
  ∧ urlMaps w' = if b then <[startUrl := us]> (urlMaps w) else urlMaps w.
Proof. by destruct b. Qed.

Lemma seed_POST_accounted valid body w :
  ∀ start us, urlMaps (Seed.POST valid body w).2 !! start = Some us →
    urlMaps w !! start = Some us
    ∨ ∀ u, u ∈ us → is_Some (cacheService.get u (Seed.POST valid body w).2).
Proof.
  intros start us. unfold Seed.POST.
  destruct body as [body|]; [|by left].
  destruct (negb (Js.truthy (Seed.b_url body))); [by left|].
  destruct (Seed.b_pageUrls body) as [[|p l]|]; [by left| |by left].
  generalize (p :: l). clear p l. intros pageUrls.
  destruct (negb (valid _)); [by left|].
  destruct (length _ =? 0)%nat; [by left|].
  cbn [snd]. unfold cacheService.setCrawlUrlMap, set_urlMaps, cacheService.get. cbn [urlMaps pages].
  destruct (decide (default "" (Seed.b_url body) = start)) as [->|Hne].
  - rewrite lookup_insert_eq. intros [= <-]. right. intros u Hu.
    apply list_elem_of_In, List.filter_In in Hu as [Hin Hnn].
    apply list_elem_of_In in Hin. rewrite seed_not_null_mget in Hnn by done.
    unfold cached_in, cacheService.get in Hnn. by destruct (pages w !! u).
  - rewrite lookup_insert_ne by done. by left.
Qed.

Lemma stubPolls_run :
  ∃ s, GET statusEnv "job-7" stubPolls liveWorld = Some (Streamed s)
       ∧ out s = [msg_status "completed"; msg_progress 1 1 (Some 1%N);
                  msg_url_complete "https://docs.example.com/stub" "# Stub" false;
                  msg_complete 1 1]
       ∧ cacheService.getCrawlUrlMap "https://docs.example.com/" (world s)
         = Some ["https://docs.example.com/stub"]
       ∧ cacheService.get "https://docs.example.com/stub" (world s) = None.
Proof. eexists. split; [vm_compute; reflexivity|]. repeat split; reflexivity. Qed.

(** The reconciler lists the page in the manifest it writes, but has
    not stored the page: its content is shorter than
    [MIN_CONTENT_LENGTH]. *)
Lemma C3_counterexample : ¬ C3_as_stated.
Proof.
  intros H. destruct stubPolls_run as (s & Hget & _ & Hmap & Hpage).
  destruct (H docsOnly None statusEnv "job-7" stubPolls liveWorld _
              eq_refl eq_refl live_job_7) as (_ & s' & Hget' & Hacc).
  rewrite Hget in Hget'. injection Hget' as <-.
  destruct (Hacc _ _ Hmap) as [Hold|Hcached].
  - discriminate Hold.
  - destruct (Hcached "https://docs.example.com/stub") as [c Hc].
    + apply elem_of_cons. by left.
    + rewrite Hpage in Hc. discriminate Hc.
Qed.

(** ** The seed endpoint: what it writes and what it counts *)

Lemma filter_partition_length {A} (f : A → bool) (l : list A) :
  (length (List.filter f l) + length (List.filter (λ x, negb (f x)) l) = length l)%nat.
Proof.
  induction l as [|a l IH]; [done|]. simpl. destruct (f a); simpl; lia.
Qed.

(** The seed handler with its guards passed, whatever the body. *)
Lemma seed_POST_cases valid body w :
  (∃ e, Seed.POST valid body w = (Seed.Error 500 e None, w) ∧ body = None)
  ∨ (∃ b e, body = Some b ∧ Seed.POST valid body w = (Seed.Error 400 e None, w)
            ∧ (Js.truthy (Seed.b_url b) = false ∨ Seed.b_pageUrls b = None
               ∨ Seed.b_pageUrls b = Some []
               ∨ valid (default "" (Seed.b_url b)) = false))
  ∨ (∃ url pageUrls, body = seedRequest url pageUrls ∧ Js.truthy (Some url) = true
                     ∧ valid url = true ∧ pageUrls ≠ []).
Proof.
  destruct body as [b|]; [|left; by eexists].
  unfold Seed.POST. destruct b as [u ps]. cbn [Seed.b_url Seed.b_pageUrls].
  destruct (Js.truthy u) eqn:Hu; cbn [negb].
  2:{ right; left. do 2 eexists. split; [done|]. split; [done|]. by left. }
  destruct ps as [[|p l]|].
  - right; left. do 2 eexists. split; [done|]. split; [done|]. by right; right; left.
  - destruct (valid (default "" u)) eqn:Hv; cbn [negb].
    + right; right. destruct u as [url|]; [|discriminate].
      exists url, (p :: l). by repeat split.
    + right; left. do 2 eexists. split; [done|]. split; [done|]. by right; right; right.
  - right; left. do 2 eexists. split; [done|]. split; [done|]. by right; left.
Qed.

(** X1. The seed handler writes nothing but the manifest of the
    request's own start URL, and writes that only when it answers
    success: every error answer leaves the stores exactly as they were. *)
Theorem X1_seed_writes_only_its_manifest valid body w :
  let '(r, w') := Seed.POST valid body w in
  pages w' = pages w ∧ jobs w' = jobs w ∧ results w' = results w
  ∧ breaker w' = breaker w ∧ calls w' = calls w
  ∧ match r with
    | Seed.Error _ _ _ => w' = w
    | Seed.Stored url _ _ _ => ∀ start, start ≠ url → urlMaps w' !! start = urlMaps w !! start
    end.
Proof.
  destruct (seed_POST_cases valid body w)
    as [(e & -> & _)|[(b & e & _ & -> & _)|(url & pageUrls & -> & Hu & Hv & Hne)]];
    [done|done|].
  rewrite seed_POST_valid by done. cbv zeta.
  destruct (length _ =? 0)%nat; [done|].
  repeat split; try done. intros start Hstart.
  unfold cacheService.setCrawlUrlMap, set_urlMaps. cbn [urlMaps].
  by rewrite lookup_insert_ne.
Qed.

(** X2. When the seed handler answers success, the two counts it
    reports add up to the number of candidates, at least one URL was
    stored, the stored manifest has as many entries as reported, and
    [missingUrls] is left out exactly when nothing is missing. *)
Theorem X2_seed_counts valid body w url stored missing missingUrls w' :
  Seed.POST valid (Some body) w = (Seed.Stored url stored missing missingUrls, w') →
  ∃ pageUrls manifest,
    Seed.b_pageUrls body = Some pageUrls
    ∧ (stored + missing = length pageUrls)%nat
    ∧ (0 < stored)%nat
    ∧ cacheService.getCrawlUrlMap url w' = Some manifest
    ∧ length manifest = stored
    ∧ (missingUrls = None ↔ missing = 0%nat)
    ∧ length (default [] missingUrls) = missing.
Proof.
  intros HPOST.
  destruct (seed_POST_cases valid (Some body) w)
    as [(e & H & _)|[(b & e & _ & H & _)|(u & pageUrls & Hbody & Hu & Hv & Hne)]];
    [congruence|congruence|].
  rewrite Hbody in HPOST. rewrite seed_POST_valid in HPOST by done. cbv zeta in HPOST.
  injection Hbody as ->.
  destruct (length (List.filter (cached_in w) pageUrls) =? 0)%nat eqn:Hlen; [done|].
  injection HPOST as <- <- <- <- <-. apply Nat.eqb_neq in Hlen.
  exists pageUrls, (List.filter (cached_in w) pageUrls).
  split; [done|]. split; [apply filter_partition_length|]. split; [lia|].
  split.
  { unfold cacheService.getCrawlUrlMap, cacheService.setCrawlUrlMap, set_urlMaps.
    cbn [urlMaps]. apply lookup_insert_eq. }
  split; [done|].
  destruct (List.filter (λ u, negb (cached_in w u)) pageUrls) as [|m ms]; cbn; split; done.
Qed.

(** X3. The seed handler answers 400 exactly when the body has no
    non-empty [url], no non-empty [pageUrls] array, or a [url] outside
    the allow-list. *)
Theorem X3_seed_rejects valid body w :
  (∃ e m, (Seed.POST valid (Some body) w).1 = Seed.Error 400 e m)
  ↔ (Js.truthy (Seed.b_url body) = false ∨ Seed.b_pageUrls body = None
     ∨ Seed.b_pageUrls body = Some []
     ∨ valid (default "" (Seed.b_url body)) = false).
Proof.
  destruct (seed_POST_cases valid (Some body) w)
    as [(e & _ & H)|[(b & e & [= <-] & H & Hwhy)|(u & pageUrls & Hbody & Hu & Hv & Hne)]];
    [done| |].
  - rewrite H. split; [done|]. intros _. by do 2 eexists.
  - rewrite Hbody, seed_POST_valid by done. injection Hbody as ->. cbv zeta.
    cbn [Seed.b_url Seed.b_pageUrls default from_option id].
    split.
    + intros (e & m & H). by destruct (length _ =? 0)%nat.
    + intros [H|[H|[H|H]]]; congruence.
Qed.

(** X4. Seeding is idempotent: the same request made again gets the
    same answer and leaves the stores as the first one left them. *)
Theorem X4_seed_idempotent valid body w :
  Seed.POST valid body (Seed.POST valid body w).2 = Seed.POST valid body w.
Proof.
  destruct (seed_POST_cases valid body w)
    as [(e & H & ->)|[(b & e & -> & H & Hwhy)|(url & pageUrls & -> & Hu & Hv & Hne)]].
  - done.
  - rewrite H. cbn [snd]. by rewrite H.
  - rewrite !seed_POST_valid by done. cbv zeta.
    destruct (length (List.filter (cached_in w) pageUrls) =? 0)%nat eqn:Hlen.
    + cbn [snd]. by rewrite Hlen.
    + cbn [snd].
      assert (∀ us, cached_in (cacheService.setCrawlUrlMap url us w) = cached_in w) as Hc by done.
      rewrite !Hc, Hlen. f_equal.
      unfold cacheService.setCrawlUrlMap, set_urlMaps. cbn. f_equal.
      apply insert_insert_eq.
Qed.

(** ** The start endpoint: provider calls, jobs and the breaker *)

Lemma start_POST_admitted valid cfg env body w :
  admitted valid cfg env body w →
  Start.POST valid cfg env (Some body) w =
    match cacheHit body w with
    | Some cachedUrls =>
        (Start.Success (Start.randomUUID env) (Start.b_url body) (enforcedLimit body) true,
         cacheService.setCrawlJob (Start.randomUUID env)
           (Start.cacheHitJob (Start.randomUUID env) (Start.b_url body) (enforcedLimit body)
              (Start.now env) cachedUrls) w)
    | None =>
        Start.startRemote cfg env (Start.b_url body) (default 10 (Start.b_limit body))
          (enforcedLimit body) w
    end.
Proof.
  intros (Hkey & Hvalid & Hcan). unfold Start.POST, cacheHit, enforcedLimit.
  rewrite Hkey, Hvalid, Hcan. reflexivity.
Qed.

Lemma start_POST_turned_away valid cfg env body w :
  (∀ b, body = Some b → ¬ admitted valid cfg env b w) →
  ∃ st e d c, Start.POST valid cfg env body w = (Start.Failure st e d c, w).
Proof.
  intros Hno. unfold Start.POST.
  destruct (Js.truthy (Start.FIRECRAWL_API_KEY env)) eqn:Hkey; cbn [negb];
    [|by do 4 eexists].
  destruct body as [b|]; [|by do 4 eexists].
  destruct (valid (Start.b_url b)) eqn:Hvalid; cbn [negb]; [|by do 4 eexists].
  destruct (cacheService.firecrawlCircuitBreaker.canRequest _ _ _) eqn:Hcan; cbn [negb];
    [|by do 4 eexists].
  by destruct (Hno b).
Qed.

Lemma admitted_dec valid cfg env body w :
  admitted valid cfg env body w ∨ ¬ admitted valid cfg env body w.
Proof.
  unfold admitted.
  destruct (Js.truthy _); [|right; by intros (? & _)].
  destruct (valid _); [|right; by intros (_ & ? & _)].
  destruct (cacheService.firecrawlCircuitBreaker.canRequest _ _ _);
    [by left|right; by intros (_ & _ & ?)].
Qed.

Lemma cacheHit_warm body w manifest :
  cacheHit body w = Some manifest
  ↔ Start.b_force body = false ∧ warm (Start.b_url body) manifest w.
Proof.
  unfold cacheHit, warm. destruct (Start.b_force body); [split; [done|by intros [? _]]|].
  destruct (cacheService.getCrawlUrlMap _ _) as [m|]; [|split; [done|by intros (_ & ? & _)]].
  rewrite allCached_spec.
  destruct ((0 <? length m)%nat && forallb (cached_in w) (take 3 m)) eqn:Hhit.
  - apply andb_true_iff in Hhit as [Hlen Hall]. apply Nat.ltb_lt in Hlen.
    split.
    + intros [= <-]. split; [done|]. split; [done|]. split; [intros ->; simpl in Hlen; lia|].
      intros u Hu. apply list_elem_of_In in Hu.
      rewrite forallb_forall in Hall. specialize (Hall u Hu).
      unfold cached_in in Hall. destruct (cacheService.get u w); [by eexists|done].
    + by intros (_ & [= ->] & _).
  - split; [done|]. intros (_ & [= ->] & Hne & Hall). exfalso.
    apply andb_false_iff in Hhit as [Hlen|Hsome].
    + apply Nat.ltb_ge in Hlen. destruct manifest; [done|simpl in Hlen; lia].
    + assert (forallb (cached_in w) (take 3 manifest) = true); [|congruence].
      apply forallb_forall. intros u Hu. apply list_elem_of_In, Hall in Hu.
      unfold cached_in. by destruct Hu as [c ->].
Qed.

(** What the remote branch does to the stores. *)
Lemma startRemote_effects cfg env url limit lim w :
  let '(r, w') := Start.startRemote cfg env url limit lim w in
  calls w' = ProviderPost url lim :: calls w
  ∧ pages w' = pages w ∧ urlMaps w' = urlMaps w ∧ results w' = results w
  ∧ match r with
    | Start.Failure _ _ _ _ => jobs w' = jobs w
    | Start.Success jobId url' limit' cached =>
        cached = false ∧ url' = url ∧ limit' = limit
        ∧ jobs w' = <[jobId := Start.crawlingJob jobId url limit (Start.now env)
                               match Start.fetched env with
                               | Start.Ok _ _ credits _ => credits
                               | _ => None
                               end]> (jobs w)
    end.
Proof.
  unfold Start.startRemote.
  destruct (Start.fetched env) as [message|success jid credits err|httpStatus body].
  - done.
  - destruct (success && Js.truthy jid); [|done]. done.
  - by destruct (500 <=? httpStatus).
Qed.

(** X5. An admitted start request that is forced, or whose manifest is
    missing, empty or fails the spot check, makes exactly one call to the
    provider, asking for [min(limit, 2000)] pages. *)
Theorem X5_start_calls_provider_once valid cfg env body w :
  admitted valid cfg env body w →
  Start.b_force body = true ∨ (∀ manifest, ¬ warm (Start.b_url body) manifest w) →
  calls (Start.POST valid cfg env (Some body) w).2
  = ProviderPost (Start.b_url body) (enforcedLimit body) :: calls w
  ∧ enforcedLimit body ≤ 2000.
Proof.
  intros Hadm Hmiss. split; [|apply Z.le_min_r].
  rewrite start_POST_admitted by done.
  destruct (cacheHit body w) as [m|] eqn:Hhit.
  - apply cacheHit_warm in Hhit as [Hforce Hwarm].
    destruct Hmiss as [?|Hno]; [congruence|]. by destruct (Hno m).
  - pose proof (startRemote_effects cfg env (Start.b_url body)
                  (default 10 (Start.b_limit body)) (enforcedLimit body) w) as H.
    destruct (Start.startRemote _ _ _ _ _ _) as [r w']. by destruct H as [H _].
Qed.

(** X6. No start request makes more than one call to the provider, and a
    request that is turned away (missing API key, unreadable body, URL off
    the allow-list, breaker refusing) makes none and changes nothing. *)
Theorem X6_start_at_most_one_call valid cfg env body w :
  let '(r, w') := Start.POST valid cfg env body w in
  (calls w' = calls w
   ∨ ∃ b, body = Some b ∧ admitted valid cfg env b w
          ∧ calls w' = ProviderPost (Start.b_url b) (enforcedLimit b) :: calls w)
  ∧ ((∀ b, body = Some b → ¬ admitted valid cfg env b w) → w' = w).
Proof.
  destruct body as [b|].
  2:{ destruct (start_POST_turned_away valid cfg env None w) as (st & e & d & c & ->);
        [done|]. split; [by left|done]. }
  destruct (admitted_dec valid cfg env b w) as [Hadm|Hno].
  - rewrite start_POST_admitted by done. destruct (cacheHit b w) as [m|].
    + split; [by left|]. intros H. by destruct (H b).
    + pose proof (startRemote_effects cfg env (Start.b_url b)
                    (default 10 (Start.b_limit b)) (enforcedLimit b) w) as H.
      destruct (Start.startRemote _ _ _ _ _ _) as [r w']. destruct H as [Hcalls _].
      split; [right; by exists b|]. intros H. by destruct (H b).
  - destruct (start_POST_turned_away valid cfg env (Some b) w) as (st & e & d & c & ->).
    { by intros b' [= <-]. }
    split; [by left|done].
Qed.

(** X7. The start handler never writes to the page cache, the manifests
    or the stored result batches, and it creates a job exactly when it
    answers success: under the job id it returns, for the URL it returns,
    with status [cache_hit] if the answer says [cached] and [crawling]
    otherwise. *)
Theorem X7_start_job_iff_success valid cfg env body w :
  let '(r, w') := Start.POST valid cfg env body w in
  pages w' = pages w ∧ urlMaps w' = urlMaps w ∧ results w' = results w
  ∧ match r with
    | Start.Failure _ _ _ _ => jobs w' = jobs w
    | Start.Success jobId url _ cached =>
        ∃ j, jobs w' = <[jobId := j]> (jobs w)
             ∧ Job.id j = jobId ∧ Job.url j = url
             ∧ Job.status j = (if cached then "cache_hit" else "crawling")
    end.
Proof.
  destruct body as [b|].
  2:{ by destruct (start_POST_turned_away valid cfg env None w) as (st & e & d & c & ->). }
  destruct (admitted_dec valid cfg env b w) as [Hadm|Hno].
  - rewrite start_POST_admitted by done. destruct (cacheHit b w) as [m|].
    + repeat split; try done. by eexists.
    + pose proof (startRemote_effects cfg env (Start.b_url b)
                    (default 10 (Start.b_limit b)) (enforcedLimit b) w) as H.
      destruct (Start.startRemote _ _ _ _ _ _) as [r w'].
      destruct H as (_ & Hp & Hu & Hr & Hjob). repeat split; try done.
      destruct r as [|jobId url limit cached]; [done|].
      destruct Hjob as (-> & -> & -> & ->). by eexists.
  - destruct (start_POST_turned_away valid cfg env (Some b) w) as (st & e & d & c & ->);
      [by intros b' [= <-]|done].
Qed.

(** X8. The limit in a success answer, which is also the limit recorded
    in the job, is the enforced limit [min(limit, 2000)] on the cache-hit
    path, but the limit as requested on the remote path, where only the
    provider was given the enforced one. *)
Theorem X8_start_reported_limit valid cfg env body w jobId url limit cached w' :
  Start.POST valid cfg env (Some body) w = (Start.Success jobId url limit cached, w') →
  limit = (if cached then enforcedLimit body else default 10 (Start.b_limit body))
  ∧ Job.limit <$> cacheService.getCrawlJob jobId w' = Some limit.
Proof.
  intros HPOST.
  destruct (admitted_dec valid cfg env body w) as [Hadm|Hno].
  2:{ destruct (start_POST_turned_away valid cfg env (Some body) w) as (st & e & d & c & H);
        [by intros b' [= <-]|congruence]. }
  rewrite start_POST_admitted in HPOST by done. destruct (cacheHit body w) as [m|].
  - injection HPOST as <- <- <- <- <-. split; [done|].
    unfold cacheService.getCrawlJob, cacheService.setCrawlJob, set_jobs. cbn [jobs].
    by rewrite lookup_insert_eq.
  - pose proof (startRemote_effects cfg env (Start.b_url body)
                  (default 10 (Start.b_limit body)) (enforcedLimit body) w) as H.
    rewrite HPOST in H. destruct H as (_ & _ & _ & _ & -> & -> & -> & Hjobs).
    split; [done|]. unfold cacheService.getCrawlJob. by rewrite Hjobs, lookup_insert_eq.
Qed.

(** X9. The start handler leaves the circuit breaker alone unless it
    called the provider and the provider either gave a job id, answered
    with a status of 500 or more, or could not be reached: a 4xx answer
    and a 2xx answer without a job id do not count as failures. *)
Theorem X9_start_breaker_untouched valid cfg env body w :
  let '(r, w') := Start.POST valid cfg env body w in
  breaker w' ≠ breaker w →
  calls w' ≠ calls w
  ∧ match Start.fetched env with
    | Start.Threw _ => True
    | Start.Ok success jid _ _ => success = true ∧ Js.truthy jid = true
    | Start.NotOk httpStatus _ => 500 ≤ httpStatus
    end.
Proof.
  destruct body as [b|].
  2:{ by destruct (start_POST_turned_away valid cfg env None w) as (st & e & d & c & ->). }
  destruct (admitted_dec valid cfg env b w) as [Hadm|Hno].
  - rewrite start_POST_admitted by done. destruct (cacheHit b w) as [m|]; [done|].
    pose proof (startRemote_effects cfg env (Start.b_url b)
                  (default 10 (Start.b_limit b)) (enforcedLimit b) w) as H.
    unfold Start.startRemote in *.
    destruct (Start.fetched env) as [message|success jid credits err|httpStatus ebody].
    + destruct H as [Hcalls _]. intros _. split; [|done]. rewrite Hcalls.
      intros Heq. apply (f_equal length) in Heq. simpl in Heq. lia.
    + destruct (success && Js.truthy jid) eqn:Hok; [|done].
      destruct H as [Hcalls _]. intros _. split; [|by apply andb_true_iff in Hok].
      rewrite Hcalls. intros Heq. apply (f_equal length) in Heq. simpl in Heq. lia.
    + destruct (500 <=? httpStatus) eqn:H5; [|done].
      destruct H as [Hcalls _]. intros _. split; [|by apply Z.leb_le].
      rewrite Hcalls. intros Heq. apply (f_equal length) in Heq. simpl in Heq. lia.
  - by destruct (start_POST_turned_away valid cfg env (Some b) w) as (st & e & d & c & ->);
      [intros b' [= <-]|].
Qed.

(** ** The endpoints one after the other *)

Lemma filter_cached_in us w u : u ∈ List.filter (cached_in w) us → is_Some (cacheService.get u w).
Proof.
  intros Hu. apply list_elem_of_In, List.filter_In in Hu as [_ Hc].
  unfold cached_in in Hc. destruct (cacheService.get u w); [by eexists|done].
Qed.

(** X10. A start request that follows a successful seed of the same
    start URL, with [force] unset and the breaker letting it through, is
    answered from the cache: no call to the provider, and a [cache_hit]
    job whose [crawledUrls] are the manifest the seed stored. *)
Theorem X10_seed_then_start valid cfg env seedBody body w url stored missing missingUrls w1 :
  Seed.POST valid (Some seedBody) w = (Seed.Stored url stored missing missingUrls, w1) →
  Js.truthy (Start.FIRECRAWL_API_KEY env) = true →
  cacheService.firecrawlCircuitBreaker.canRequest cfg (Start.now env) w = true →
  Start.b_url body = url → Start.b_force body = false →
  ∃ manifest limit w2,
    Start.POST valid cfg env (Some body) w1
      = (Start.Success (Start.randomUUID env) url limit true, w2)
    ∧ calls w2 = calls w
    ∧ cacheService.getCrawlUrlMap url w1 = Some manifest
    ∧ length manifest = stored
    ∧ Job.crawledUrls <$> cacheService.getCrawlJob (Start.randomUUID env) w2
      = Some (Some manifest).
Proof.
  intros Hseed Hkey Hcan Hurl Hforce.
  destruct (seed_POST_cases valid (Some seedBody) w)
    as [(e & H & _)|[(b & e & _ & H & _)|(u & pageUrls & Hbody & Hu & Hv & Hne)]];
    [congruence|congruence|].
  rewrite Hbody, seed_POST_valid in Hseed by done. cbv zeta in Hseed.
  destruct (length (List.filter (cached_in w) pageUrls) =? 0)%nat eqn:Hlen; [done|].
  injection Hseed as <- <- <- <- <-. apply Nat.eqb_neq in Hlen.
  set (manifest := List.filter (cached_in w) pageUrls) in *.
  set (w1 := cacheService.setCrawlUrlMap u manifest w).
  assert (warm u manifest w1) as Hwarm.
  { split; [apply lookup_insert_eq|]. split; [by intros Hnil; rewrite Hnil in Hlen|].
    intros x Hx. apply (filter_cached_in pageUrls w).
    apply elem_of_take in Hx as (i & Hi & _). by eapply list_elem_of_lookup_2. }
  assert (admitted valid cfg env body w1) as Hadm.
  { split; [done|]. split; [by rewrite Hurl|done]. }
  exists manifest. do 2 eexists. rewrite <- Hurl in Hwarm.
  rewrite (start_POST_cache_hit _ _ _ _ _ manifest) by done. cbv zeta.
  rewrite Hurl. split; [reflexivity|]. split; [done|]. split; [apply lookup_insert_eq|].
  split; [done|].
  unfold cacheService.getCrawlJob, cacheService.setCrawlJob, set_jobs. cbn [jobs].
  by rewrite lookup_insert_eq.
Qed.

(** X11. The job that a cache-first start creates is served by the
    status stream's fast path: the stream sends the cached pages of the
    manifest and [complete] with zero credits, and neither the start nor
    the stream has called the provider. *)
Theorem X11_cache_hit_job_is_served valid cfg env body w manifest statusEnv' polls :
  admitted valid cfg env body w → Start.b_force body = false →
  warm (Start.b_url body) manifest w →
  Js.truthy (FIRECRAWL_API_KEY statusEnv') = true →
  ∃ s, GET statusEnv' (Start.randomUUID env) polls (Start.POST valid cfg env (Some body) w).2
       = Some (Streamed s)
       ∧ out s = (cachedPage w <$> List.filter (servable w) manifest)
                   ++ [msg_complete (N.of_nat (length manifest)) 0]
       ∧ calls (world s) = calls w.
Proof.
  intros Hadm Hforce Hwarm Hkey.
  rewrite (start_POST_cache_hit _ _ _ _ _ manifest) by done. cbv zeta. cbn [snd].
  unfold GET. rewrite Hkey. cbn [negb].
  unfold cacheService.getCrawlJob at 1, cacheService.setCrawlJob at 1, set_jobs at 1.
  cbn [jobs]. rewrite lookup_insert_eq. cbn [Start.cacheHitJob Job.status Job.crawledUrls].
  cbn [String.eqb Ascii.eqb Bool.eqb]. eexists. split; [reflexivity|].
  match goal with |- context [serveCached ?l ?s0] =>
    destruct (serveCached_spec l s0) as [-> ->] end.
  done.
Qed.

(** ** The start and seed endpoints on further concrete requests *)

Lemma X2_witness :
  ∃ pageUrls manifest,
    Seed.b_pageUrls {| Seed.b_url := Some "https://docs.example.com/";
                       Seed.b_pageUrls := Some ["https://docs.example.com/a";
                                                "https://docs.example.com/b"] |}
      = Some pageUrls
    ∧ (1 + 1 = length pageUrls)%nat
    ∧ (0 < 1)%nat
    ∧ cacheService.getCrawlUrlMap "https://docs.example.com/"
        (cacheService.setCrawlUrlMap "https://docs.example.com/"
           ["https://docs.example.com/a"] halfCached) = Some manifest
    ∧ length manifest = 1%nat
    ∧ (Some ["https://docs.example.com/b"] = None ↔ 1%nat = 0%nat)
    ∧ length (default [] (Some ["https://docs.example.com/b"])) = 1%nat.
Proof.
  apply (X2_seed_counts docsOnly _ halfCached "https://docs.example.com/").
  reflexivity.
Defined.

Lemma X5_witness :
  calls (Start.POST docsOnly breakerCfg acceptedEnv (Some forcedBody)
           (warmWorld breakerClosed)).2
  = ProviderPost (Start.b_url forcedBody) (enforcedLimit forcedBody)
      :: calls (warmWorld breakerClosed)
  ∧ enforcedLimit forcedBody ≤ 2000.
Proof.
  apply (X5_start_calls_provider_once docsOnly breakerCfg acceptedEnv forcedBody
           (warmWorld breakerClosed)).
  - repeat split; reflexivity.
  - left. reflexivity.
Defined.

Lemma X8_witness :
  5000 = (if false then enforcedLimit forcedBody
          else default 10 (Start.b_limit forcedBody))
  ∧ Job.limit <$> cacheService.getCrawlJob "fc-42"
                    (Start.POST docsOnly breakerCfg acceptedEnv (Some forcedBody)
                       (warmWorld breakerClosed)).2
    = Some 5000.
Proof.
  apply (X8_start_reported_limit docsOnly breakerCfg acceptedEnv forcedBody
           (warmWorld breakerClosed) "fc-42" "https://docs.example.com/" 5000 false).
  reflexivity.
Defined.

Lemma X9_witness :
  calls (Start.POST docsOnly breakerCfg startEnv (Some forcedBody) (warmWorld breakerClosed)).2
  ≠ calls (warmWorld breakerClosed)
  ∧ True.
Proof.
  apply (X9_start_breaker_untouched docsOnly breakerCfg startEnv (Some forcedBody)
           (warmWorld breakerClosed)).
  vm_compute. discriminate.
Defined.

Lemma X10_witness :
  ∃ manifest limit w2,
    Start.POST docsOnly breakerCfg startEnv (Some startBody)
      (cacheService.setCrawlUrlMap "https://docs.example.com/"
         ["https://docs.example.com/a"] halfCached)
      = (Start.Success (Start.randomUUID startEnv) "https://docs.example.com/" limit true, w2)
    ∧ calls w2 = calls halfCached
    ∧ cacheService.getCrawlUrlMap "https://docs.example.com/"
        (cacheService.setCrawlUrlMap "https://docs.example.com/"
           ["https://docs.example.com/a"] halfCached) = Some manifest
    ∧ length manifest = 1%nat
    ∧ Job.crawledUrls <$> cacheService.getCrawlJob (Start.randomUUID startEnv) w2
      = Some (Some manifest).
Proof.
  apply (X10_seed_then_start docsOnly breakerCfg startEnv
           {| Seed.b_url := Some "https://docs.example.com/";
              Seed.b_pageUrls := Some ["https://docs.example.com/a";
                                       "https://docs.example.com/b"] |}
           startBody halfCached "https://docs.example.com/" 1 1
           (Some ["https://docs.example.com/b"])).
  - reflexivity.
  - reflexivity.
  - reflexivity.
  - reflexivity.
  - reflexivity.
Defined.

Lemma X11_witness :
  ∃ s, GET statusEnv (Start.randomUUID startEnv) idlePolls
         (Start.POST docsOnly breakerCfg startEnv (Some startBody) (warmWorld breakerClosed)).2
       = Some (Streamed s)
       ∧ out s = (cachedPage (warmWorld breakerClosed)
                    <$> List.filter (servable (warmWorld breakerClosed))
                          ["https://docs.example.com/a"; "https://docs.example.com/b"])
                   ++ [msg_complete (N.of_nat (length ["https://docs.example.com/a";
                                                       "https://docs.example.com/b"])) 0]
       ∧ calls (world s) = calls (warmWorld breakerClosed).
Proof.
  apply (X11_cache_hit_job_is_served docsOnly breakerCfg startEnv startBody
           (warmWorld breakerClosed)
           ["https://docs.example.com/a"; "https://docs.example.com/b"] statusEnv idlePolls).
  - repeat split; reflexivity.
  - reflexivity.
  - split; [reflexivity|]. split; [discriminate|].
    intros u Hu. cbn in Hu. elem_cases; by eexists.
  - reflexivity.
Defined.

(** ** Single turns of the polling loop: errors and backoff *)

(** The wait that follows [n] consecutive errors, for the counts the
    loop can go on with. *)
Lemma delay_schedule s :
  (consecutiveErrors s < maxConsecutiveErrors)%N →
  delay s = pollInterval * 2 ^ Z.of_N (N.pred (consecutiveErrors s)).
Proof.
  intros Hce. unfold delay, pollInterval, maxConsecutiveErrors in *.
  destruct (consecutiveErrors s) as [|p] eqn:E; [reflexivity|].
  assert (p = 1 ∨ p = 2 ∨ p = 3 ∨ p = 4)%positive as Hp by lia.
  by destruct Hp as [->|[->|[->| ->]]].
Qed.

(** X12. A poll that throws (a network error) counts as one more
    consecutive error and leaves the stores alone.  Below the threshold
    of five nothing is sent and the loop goes on; the fifth in a row ends
    the stream with the error's message. *)
Theorem X12_thrown_polls jobId startUrl startTime p s message :
  fetched p = Threw message → isComplete s = false →
  let s' := iteration jobId startUrl startTime p s in
  consecutiveErrors s' = (consecutiveErrors s + 1)%N
  ∧ pages (world s') = pages (world s)
  ∧ jobs (world s') = jobs (world s)
  ∧ results (world s') = results (world s)
  ∧ urlMaps (world s') = urlMaps (world s)
  ∧ if (consecutiveErrors s + 1 <? maxConsecutiveErrors)%N
    then out s' = out s ∧ isComplete s' = false
    else out s' = out s ++ [msg_error (networkErrorText message)]
         ∧ isComplete s' = true
         ∧ clock s' = clock s + Z.of_N (fetchMs p).
Proof.
  intros Hp Hlive s'. unfold s', iteration, wait. rewrite Hp.
  unfold onThrow. cbn [on_world elapse consecutiveErrors set_consecutiveErrors].
  rewrite N.leb_antisym.
  destruct (consecutiveErrors s + 1 <? maxConsecutiveErrors)%N;
    cbn; rewrite ?Hlive; cbn; rewrite ?Hlive; done.
Qed.

Lemma X12_witness :
  let s' := iteration "job-7" "https://docs.example.com/" 0
              {| fetchMs := 100; storeMs := 0; fetched := Threw (Some "socket hang up") |}
              afterFourErrors in
  consecutiveErrors s' = (consecutiveErrors afterFourErrors + 1)%N
  ∧ pages (world s') = pages (world afterFourErrors)
  ∧ jobs (world s') = jobs (world afterFourErrors)
  ∧ results (world s') = results (world afterFourErrors)
  ∧ urlMaps (world s') = urlMaps (world afterFourErrors)
  ∧ if (consecutiveErrors afterFourErrors + 1 <? maxConsecutiveErrors)%N
    then out s' = out afterFourErrors ∧ isComplete s' = false
    else out s' = out afterFourErrors ++ [msg_error (networkErrorText (Some "socket hang up"))]
         ∧ isComplete s' = true
         ∧ clock s' = clock afterFourErrors + Z.of_N 100.
Proof.
  apply (X12_thrown_polls "job-7" "https://docs.example.com/" 0
           {| fetchMs := 100; storeMs := 0; fetched := Threw (Some "socket hang up") |}
           afterFourErrors (Some "socket hang up")).
  - reflexivity.
  - reflexivity.
Defined.

(** X13. The wait before the next poll doubles with every consecutive
    error: after a turn that leaves the stream open with [n] consecutive
    errors on the counter the loop sleeps 2 s for [n ≤ 1], then 4 s, 8 s
    and 16 s.  The counter cannot be higher in an open stream, so the
    30 s cap of the backoff is never the wait. *)
Theorem X13_backoff_schedule jobId startUrl startTime p s :
  isComplete s = false → (consecutiveErrors s < maxConsecutiveErrors)%N →
  let s' := iteration jobId startUrl startTime p s in
  isComplete s' = false →
  (consecutiveErrors s' < maxConsecutiveErrors)%N
  ∧ ∃ busy, 0 ≤ busy ≤ Z.of_N (fetchMs p) + Z.of_N (storeMs p)
            ∧ clock s' = clock s + busy
                         + pollInterval * 2 ^ Z.of_N (N.pred (consecutiveErrors s'))
            ∧ pollInterval * 2 ^ Z.of_N (N.pred (consecutiveErrors s')) ≤ 16000.
Proof.
  intros Hlive Hce s' Hopen.
  pose proof (iteration_consecutiveErrors jobId startUrl startTime p s Hlive Hce Hopen) as Hce'.
  split; [done|].
  destruct (iteration_clock jobId startUrl startTime p s Hlive) as (busy & Hbusy & Hclock).
  fold s' in Hclock. rewrite Hopen in Hclock.
  exists busy. split; [done|]. rewrite <- (delay_schedule s') by done.
  split; [done|]. by apply delay_bounds.
Qed.

Lemma X13_witness :
  let s' := iteration "job-7" "https://docs.example.com/" 0 (gatewayPolls 0)
              (initial 0 (Start.crawlingJob "job-7" "https://docs.example.com/" 10 0 None)
                 liveWorld) in
  (consecutiveErrors s' < maxConsecutiveErrors)%N
  ∧ ∃ busy, 0 ≤ busy ≤ Z.of_N (fetchMs (gatewayPolls 0)) + Z.of_N (storeMs (gatewayPolls 0))
            ∧ clock s' = 0 + busy + pollInterval * 2 ^ Z.of_N (N.pred (consecutiveErrors s'))
            ∧ pollInterval * 2 ^ Z.of_N (N.pred (consecutiveErrors s')) ≤ 16000.
Proof.
  apply (X13_backoff_schedule "job-7" "https://docs.example.com/" 0 (gatewayPolls 0)
           (initial 0 (Start.crawlingJob "job-7" "https://docs.example.com/" 10 0 None)
              liveWorld)).
  - reflexivity.
  - reflexivity.
  - reflexivity.
Defined.

(** ** How a 2xx poll is judged *)

Lemma ingested_lastCompletedCount jobId p data s :
  lastCompletedCount (ingested jobId p data s)
  = if progressed data s then d_completed data else lastCompletedCount s.
Proof.
  pose proof (ingested_control jobId p data s) as H. unfold control in H.
  by injection H as _ _ _ H _ _.
Qed.

(** After the progress check the recorded count is never below the
    reported one. *)
Lemma ingested_caught_up jobId p data s :
  (d_completed data ≤ lastCompletedCount (ingested jobId p data s))%N.
Proof.
  rewrite ingested_lastCompletedCount. unfold progressed.
  destruct (0 <? d_completed data)%N eqn:H0; cbn [andb].
  - destruct (lastCompletedCount s <? d_completed data)%N eqn:H1; [lia|].
    by apply N.ltb_ge in H1.
  - apply N.ltb_ge in H0. lia.
Qed.

Lemma progressRate_caught_up data lcc t :
  (d_completed data ≤ lcc)%N →
  Qle (progressRate data lcc t) 0 ∧ Qlt_bool (progressRate data lcc t) minProgressRate = true.
Proof.
  intros Hle. unfold progressRate, Qlt_bool, Qle_bool, Qle, minProgressRate.
  destruct (d_completed data) as [|c] eqn:Hc; [done|].
  destruct t as [|t|t]; [done| |done].
  cbn [Qnum Qden]. split; [lia|]. apply negb_true_iff, Z.leb_gt. lia.
Qed.

(** The ratio test on exact rationals, for the 0.8 mark. *)
Lemma isMostlyComplete_spec data lcc t1 t2 :
  isMostlyComplete (predicates data lcc t1 t2) = true
  ↔ (0 < d_completed data ∧ 0 < d_total data ∧ 80 * d_total data ≤ 100 * d_completed data)%N.
Proof.
  unfold predicates, isMostlyComplete, completionRatio.
  destruct (d_completed data) as [|c] eqn:Hc; destruct (d_total data) as [|t] eqn:Ht.
  - split; [discriminate|lia].
  - split; [discriminate|lia].
  - split; [discriminate|lia].
  - unfold Qle_bool. cbn [Qnum Qden]. rewrite Z.leb_le. split.
    + intros H. split; [lia|]. split; lia.
    + intros (_ & _ & H). lia.
Qed.

(** X14. A response that says the crawl [failed], looked at within the
    stall window and within eight minutes of the start, ends the stream
    with [Crawl job failed]: the job is stored as failed with the time
    of failure, and no manifest is written. *)
Theorem X14_remote_failure jobId startUrl startTime p data s j :
  fetched p = Ok data → d_status data = "failed" → jobs (world s) !! jobId = Some j →
  let lpu := if progressed data s then clock s + Z.of_N (fetchMs p)
             else lastProgressUpdate s in
  let clock2 := clock s + Z.of_N (fetchMs p) + Z.of_N (storeMs p) in
  clock2 - lpu ≤ maxStallTime → clock2 - startTime ≤ maxPollingTime →
  let s' := iteration jobId startUrl startTime p s in
  isComplete s' = true
  ∧ last (out s') = Some (msg_error "Crawl job failed")
  ∧ urlMaps (world s') = urlMaps (world s)
  ∧ ∃ j', jobs (world s') !! jobId = Some j' ∧ Job.status j' = "failed"
          ∧ Job.failedAt j' = Some clock2.
Proof.
  intros Hp Hstatus Hj lpu clock2 Hstall Hrun.
  apply (iteration_failed jobId startUrl startTime p data s j Hp Hj).
  rewrite verdict_ingested. cbv zeta. fold lpu clock2.
  unfold crawlIsComplete, predicates, hasStalled, hasAbsolutelyStalled, hasExceededMaxTime.
  rewrite Hstatus. cbn [String.eqb Ascii.eqb Bool.eqb andb orb].
  unfold maxStallTime, absoluteMaxStallTime, maxPollingTime in *.
  replace (60000 <? clock2 - lpu) with false by (symmetry; apply Z.ltb_ge; lia).
  replace (120000 <? clock2 - lpu) with false by (symmetry; apply Z.ltb_ge; lia).
  replace (480000 <? clock2 - startTime) with false by (symmetry; apply Z.ltb_ge; lia).
  reflexivity.
Qed.

(** X15. Any 2xx response looked at more than eight minutes after the
    start completes the crawl, whatever it says: [complete] is sent and
    the job is stored as completed, also when the provider reports the
    crawl failed or still running. *)
Theorem X15_overtime_completes jobId startUrl startTime p data s j :
  fetched p = Ok data → jobs (world s) !! jobId = Some j →
  maxPollingTime < clock s + Z.of_N (fetchMs p) + Z.of_N (storeMs p) - startTime →
  let s' := iteration jobId startUrl startTime p s in
  isComplete s' = true
  ∧ last (out s') = Some (msg_complete (d_total data) (default 0%N (d_creditsUsed data)))
  ∧ ∃ j', jobs (world s') !! jobId = Some j' ∧ Job.status j' = "completed".
Proof.
  intros Hp Hj Hrun.
  apply (iteration_completed jobId startUrl startTime p data s j Hp Hj).
  rewrite verdict_ingested. cbv zeta.
  unfold crawlIsComplete. unfold maxPollingTime in Hrun.
  match goal with |- context [hasExceededMaxTime ?P] =>
    assert (hasExceededMaxTime P = true) as ->
      by (unfold predicates, hasExceededMaxTime; apply Z.ltb_lt; lia) end.
  by rewrite orb_true_r.
Qed.

(** X16. The progress rate that the loop computes is never positive:
    the progress check has already raised the recorded count to the
    reported one.  So [isMakingSlowProgress] only says that more than ten
    pages are completed. *)
Theorem X16_progress_rate_never_positive jobId p data s timeSinceLastProgress totalRunTime :
  let lastCompleted := lastCompletedCount (ingested jobId p data s) in
  Qle (progressRate data lastCompleted timeSinceLastProgress) 0
  ∧ isMakingSlowProgress (predicates data lastCompleted timeSinceLastProgress totalRunTime)
    = (10 <? d_completed data)%N.
Proof.
  intros lastCompleted.
  destruct (progressRate_caught_up data lastCompleted timeSinceLastProgress) as [Hle Hlt].
  { apply ingested_caught_up. }
  split; [done|]. unfold predicates, isMakingSlowProgress. by rewrite Hlt.
Qed.

(** X17. A crawl that has gone more than 60 s without progress, with
    over ten pages and at least 80 % of the total completed, is treated
    as complete at the next 2xx response, also while the provider still
    offers a next cursor. *)
Theorem X17_stalled_mostly_complete jobId startUrl startTime p data s j :
  fetched p = Ok data → jobs (world s) !! jobId = Some j →
  (10 < d_completed data)%N → (0 < d_total data)%N →
  (80 * d_total data ≤ 100 * d_completed data)%N →
  let lpu := if progressed data s then clock s + Z.of_N (fetchMs p)
             else lastProgressUpdate s in
  let clock2 := clock s + Z.of_N (fetchMs p) + Z.of_N (storeMs p) in
  maxStallTime < clock2 - lpu →
  let s' := iteration jobId startUrl startTime p s in
  isComplete s' = true
  ∧ last (out s') = Some (msg_complete (d_total data) (default 0%N (d_creditsUsed data)))
  ∧ ∃ j', jobs (world s') !! jobId = Some j' ∧ Job.status j' = "completed".
Proof.
  intros Hp Hj Hten Htotal Hratio lpu clock2 Hstall.
  apply (iteration_completed jobId startUrl startTime p data s j Hp Hj).
  rewrite verdict_ingested. cbv zeta. fold lpu clock2.
  set (lcc := if progressed data s then d_completed data else lastCompletedCount s).
  assert (d_completed data ≤ lcc)%N as Hcaught.
  { pose proof (ingested_caught_up jobId p data s) as H.
    by rewrite ingested_lastCompletedCount in H. }
  destruct (progressRate_caught_up data lcc (clock2 - lpu) Hcaught) as [_ Hslow].
  assert (isMostlyComplete (predicates data lcc (clock2 - lpu) (clock2 - startTime)) = true)
    as Hmostly by (apply isMostlyComplete_spec; lia).
  unfold crawlIsComplete. rewrite Hmostly.
  unfold predicates, hasStalled, isMakingSlowProgress. rewrite Hslow.
  replace (maxStallTime <? clock2 - lpu) with true by (symmetry; by apply Z.ltb_lt).
  replace (10 <? d_completed data)%N with true by (symmetry; by apply N.ltb_lt).
  cbn [andb]. by rewrite !orb_true_r.
Qed.

(** ** Single turns on concrete streams *)

Lemma X14_witness :
  let s' := iteration "job-7" "https://docs.example.com/" 0 failedPoll freshStream in
  isComplete s' = true
  ∧ last (out s') = Some (msg_error "Crawl job failed")
  ∧ urlMaps (world s') = urlMaps (world freshStream)
  ∧ ∃ j', jobs (world s') !! "job-7" = Some j' ∧ Job.status j' = "failed"
          ∧ Job.failedAt j' = Some (clock freshStream + Z.of_N (fetchMs failedPoll)
                                    + Z.of_N (storeMs failedPoll)).
Proof.
  apply (X14_remote_failure "job-7" "https://docs.example.com/" 0 failedPoll failedData
           freshStream (Start.crawlingJob "job-7" "https://docs.example.com/" 10 0 None)).
  - reflexivity.
  - reflexivity.
  - reflexivity.
  - vm_compute. discriminate.
  - vm_compute. discriminate.
Defined.

Lemma X15_witness :
  let s' := iteration "job-7" "https://docs.example.com/" 0 failedPoll lateStream in
  isComplete s' = true
  ∧ last (out s') = Some (msg_complete (d_total failedData)
                            (default 0%N (d_creditsUsed failedData)))
  ∧ ∃ j', jobs (world s') !! "job-7" = Some j' ∧ Job.status j' = "completed".
Proof.
  apply (X15_overtime_completes "job-7" "https://docs.example.com/" 0 failedPoll failedData
           lateStream (Start.crawlingJob "job-7" "https://docs.example.com/" 10 0 None)).
  - reflexivity.
  - reflexivity.
  - reflexivity.
Defined.

Lemma X17_witness :
  let s' := iteration "job-7" "https://docs.example.com/" 0 cursorPoll stalledStream in
  isComplete s' = true
  ∧ last (out s') = Some (msg_complete (d_total cursorData)
                            (default 0%N (d_creditsUsed cursorData)))
  ∧ ∃ j', jobs (world s') !! "job-7" = Some j' ∧ Job.status j' = "completed".
Proof.
  apply (X17_stalled_mostly_complete "job-7" "https://docs.example.com/" 0 cursorPoll
           cursorData stalledStream
           (Start.crawlingJob "job-7" "https://docs.example.com/" 10 0 None)).
  - reflexivity.
  - reflexivity.
  - reflexivity.
  - reflexivity.
  - vm_compute. discriminate.
  - reflexivity.
Defined.

(** ** What a turn of the loop sends *)

Lemma urlsSent_app ms1 ms2 : urlsSent (ms1 ++ ms2) = urlsSent ms1 ++ urlsSent ms2.
Proof. apply omap_app. Qed.

Lemma urlsSent_none ms : Forall (λ m, isPage m = false) ms → urlsSent ms = [].
Proof.
  induction 1 as [|m ms Hm _ IH]; [done|].
  unfold urlsSent in *. destruct m; try done; simpl; by rewrite IH.
Qed.

Lemma urlsSent_elem u ms :
  u ∈ urlsSent ms ↔ ∃ c cached, msg_url_complete u c cached ∈ ms.
Proof.
  unfold urlsSent. rewrite list_elem_of_omap. split.
  - intros (m & Hm & Hu). destruct m; try discriminate Hu. injection Hu as ->. by eexists _, _.
  - intros (c & cached & Hm). by eexists.
Qed.

Lemma processPage_out s page :
  ∃ pageMsgs,
    out (processPage s page) = out s ++ pageMsgs
    ∧ Forall (λ m, isPage m = true) pageMsgs
    ∧ (length pageMsgs ≤ 1)%nat
    ∧ sentUrls (processPage s page) = sentUrls s ++ urlsSent pageMsgs
    ∧ (NoDup (sentUrls s) → NoDup (sentUrls s ++ urlsSent pageMsgs)).
Proof.
  unfold processPage.
  destruct (Js.truthy (sourceURL page)
            && negb (bool_decide (default "" (sourceURL page) ∈ sentUrls s))) eqn:Hnew.
  - apply andb_true_iff in Hnew as [_ Hfresh].
    apply negb_true_iff, bool_decide_eq_false in Hfresh.
    set (u := default "" (sourceURL page)) in *.
    assert (sentUrls (addSent u s) = sentUrls s ++ [u]) as Hsent.
    { unfold addSent. cbn [sentUrls]. by rewrite bool_decide_eq_false_2. }
    assert (NoDup (sentUrls s) → NoDup (sentUrls s ++ [u])) as Hnodup.
    { intros Hnd. apply NoDup_app. split; [done|]. split; [|apply NoDup_singleton].
      intros x Hx Hxu. apply list_elem_of_singleton in Hxu. by subst x. }
    destruct (Js.truthy (cacheService.get u (world (addSent u s)))).
    + eexists [_]. cbn [out enqueue sentUrls]. rewrite Hsent.
      split; [reflexivity|]. split; [by apply Forall_singleton|]. split; [done|]. by split.
    + eexists [_]. cbn [out enqueue sentUrls].
      destruct (_ <=? _)%nat; cbn [out on_world sentUrls]; rewrite Hsent;
        (split; [reflexivity|]; split; [by apply Forall_singleton|]; split; [done|];
         by split).
  - exists []. rewrite !app_nil_r.
    split; [done|]. split; [constructor|]. split; [simpl; lia|]. by split.
Qed.

Lemma processPages_out batch :
  ∀ s, ∃ pageMsgs,
    out (fold_left processPage batch s) = out s ++ pageMsgs
    ∧ Forall (λ m, isPage m = true) pageMsgs
    ∧ (length pageMsgs ≤ length batch)%nat
    ∧ sentUrls (fold_left processPage batch s) = sentUrls s ++ urlsSent pageMsgs
    ∧ (NoDup (sentUrls s) → NoDup (sentUrls s ++ urlsSent pageMsgs)).
Proof.
  induction batch as [|page batch IH]; intros s.
  - exists []. rewrite !app_nil_r.
    split; [done|]. split; [constructor|]. split; [simpl; lia|]. by split.
  - cbn [fold_left].
    destruct (processPage_out s page) as (ms1 & Hout1 & Hp1 & Hl1 & Hs1 & Hn1).
    destruct (IH (processPage s page)) as (ms2 & Hout2 & Hp2 & Hl2 & Hs2 & Hn2).
    exists (ms1 ++ ms2). rewrite Hout2, Hout1, Hs2, Hs1, urlsSent_app, !app_assoc.
    split; [done|]. split; [by apply Forall_app|].
    split; [rewrite length_app; cbn [length]; lia|]. split; [done|].
    intros Hnd. rewrite <- Hs1. apply Hn2. rewrite Hs1. by apply Hn1.
Qed.

Lemma ingest_out jobId data s :
  ∃ pageMsgs,
    out (ingest jobId data s)
    = out s ++ [msg_status (d_status data);
                msg_progress (d_completed data) (d_total data) (d_creditsUsed data)]
            ++ pageMsgs
    ∧ Forall (λ m, isPage m = true) pageMsgs
    ∧ (length pageMsgs ≤ length (default [] (d_data data)))%nat
    ∧ sentUrls (ingest jobId data s) = sentUrls s ++ urlsSent pageMsgs
    ∧ (NoDup (sentUrls s) → NoDup (sentUrls s ++ urlsSent pageMsgs)).
Proof.
  unfold ingest.
  set (s0 := enqueue _ (enqueue _ (on_world _ _))).
  assert (out s0 = out s ++ [msg_status (d_status data);
                             msg_progress (d_completed data) (d_total data)
                               (d_creditsUsed data)]
          ∧ sentUrls s0 = sentUrls s) as [Hout0 Hsent0].
  { unfold s0. cbn [out enqueue on_world sentUrls]. rewrite <- app_assoc.
    by destruct (_ && _). }
  clearbody s0. destruct (d_data data) as [batch|].
  - destruct (processPages_out batch
                (on_world (cacheService.setCrawlResults jobId (lastPageNumber s0) batch) s0))
      as (ms & Hout & Hp & Hl & Hs & Hn).
    exists ms. cbn [out set_lastPageNumber sentUrls default].
    cbn [out on_world sentUrls] in Hout, Hs, Hn.
    rewrite Hout, Hs, Hout0, Hsent0, <- app_assoc. rewrite Hsent0 in Hn. done.
  - exists []. rewrite Hout0, Hsent0, !app_nil_r.
    split; [done|]. split; [constructor|]. split; [simpl; lia|]. by split.
Qed.

(** What an OK turn sends, in order; which URLs it adds to those sent;
    and what it does to the manifests. *)
Lemma iteration_ok_out jobId startUrl startTime p data s :
  fetched p = Ok data →
  let s' := iteration jobId startUrl startTime p s in
  ∃ pageMsgs ending,
    out s' = out s ++ [msg_status (d_status data);
                       msg_progress (d_completed data) (d_total data) (d_creditsUsed data)]
                   ++ pageMsgs ++ ending
    ∧ Forall (λ m, isPage m = true) pageMsgs
    ∧ (length pageMsgs ≤ length (default [] (d_data data)))%nat
    ∧ sentUrls s' = sentUrls s ++ urlsSent pageMsgs
    ∧ (NoDup (sentUrls s) → NoDup (sentUrls s'))
    ∧ match verdict startTime data (ingested jobId p data s) with
      | Completed =>
          ending = [msg_complete (d_total data) (default 0%N (d_creditsUsed data))]
          ∧ isComplete s' = true
          ∧ urlMaps (world s')
            = if (0 <? length (sentUrls s'))%nat
              then <[startUrl := sentUrls s']> (urlMaps (world s)) else urlMaps (world s)
      | Failed =>
          ending = [msg_error "Crawl job failed"] ∧ isComplete s' = true
          ∧ urlMaps (world s') = urlMaps (world s)
      | Pending =>
          ending = [] ∧ isComplete s' = isComplete s
          ∧ urlMaps (world s') = urlMaps (world s)
      end.
Proof.
  intros Hp s'. unfold s'.
  destruct (iteration_ok jobId startUrl startTime p data s Hp) as [Heff Hcomp].
  rewrite conclude_effects in Heff. rewrite conclude_isComplete in Hcomp.
  pose proof (ingested_urlMaps jobId p data s) as Hmaps.
  pose proof (ingested_control jobId p data s) as Hctl.
  unfold control in Hctl. injection Hctl as Hic _ _ _ _ _.
  destruct (ingest_out jobId data (fetchedState jobId p s)) as (ms & Hout & Hpg & Hlen & Hs & Hn).
  change (out (fetchedState jobId p s)) with (out s) in Hout.
  change (sentUrls (fetchedState jobId p s)) with (sentUrls s) in Hs, Hn.
  change (world (ingested jobId p data s))
    with (world (ingest jobId data (fetchedState jobId p s))) in Hmaps.
  exists ms.
  destruct (verdict startTime data (ingested jobId p data s));
    unfold effects in Heff; injection Heff as Ho Hw Hsent; rewrite Ho, Hsent, Hcomp.
  - eexists. rewrite Hout, <- !app_assoc. split; [reflexivity|].
    split; [done|]. split; [done|]. split; [done|]. split; [rewrite Hs; exact Hn|].
    split; [done|]. split; [done|]. rewrite Hw.
    match goal with
    | |- context [(if ?b then cacheService.setCrawlUrlMap ?u ?us else id)
                    (cacheService.updateCrawlJobStatus ?j ?m ?w)] =>
        destruct (settled_world b j m u us w) as [_ Hum]
    end.
    cbv zeta in Hum. rewrite Hum, Hmaps. reflexivity.
  - eexists. rewrite Hout, <- !app_assoc. split; [reflexivity|].
    split; [done|]. split; [done|]. split; [done|]. split; [rewrite Hs; exact Hn|].
    split; [done|]. split; [done|]. rewrite Hw. exact Hmaps.
  - exists []. rewrite Hout, !app_nil_r. split; [reflexivity|].
    split; [done|]. split; [done|]. split; [done|]. split; [rewrite Hs; exact Hn|].
    split; [done|]. split; [done|]. rewrite Hw. exact Hmaps.
Qed.

(** What a turn without a 2xx response sends: nothing, or one error
    message; the error message is there when the turn ends the stream. *)
Lemma iteration_error_out jobId startUrl startTime p s :
  (∀ data, fetched p ≠ Ok data) → isComplete s = false →
  let s' := iteration jobId startUrl startTime p s in
  (out s' = out s ∧ isComplete s' = false)
  ∨ ∃ e, out s' = out s ++ [msg_error e].
Proof.
  intros Hp Hlive s'. unfold s', iteration, wait.
  destruct (fetched p) as [message|data|httpStatus]; [|by destruct (Hp data)|].
  - unfold onThrow. cbn [on_world elapse consecutiveErrors set_consecutiveErrors].
    destruct (maxConsecutiveErrors <=? _)%N; cbn; rewrite ?Hlive; cbn; rewrite ?Hlive.
    + right. by eexists.
    + by left.
  - unfold onErrorResponse. cbn [on_world elapse consecutiveErrors set_consecutiveErrors].
    destruct (bool_decide _); [destruct (maxConsecutiveErrors <=? _)%N|];
      cbn; rewrite ?Hlive; cbn; rewrite ?Hlive.
    + right. by eexists.
    + by left.
    + right. by eexists.
Qed.

Lemma pages_not_complete ms :
  Forall (λ m, isPage m = true) ms → Forall (λ m, completes m = false) ms.
Proof. intros H. eapply Forall_impl; [exact H|]. by intros []. Qed.

Lemma streamInvariant_iteration jobId startUrl startTime w0 p s :
  streamInvariant startUrl w0 s → isComplete s = false →
  streamInvariant startUrl w0 (iteration jobId startUrl startTime p s).
Proof.
  intros (Hurls & Hnd & Hopen) Hlive. rewrite Hlive in Hopen. destruct Hopen as [Hnc Hmaps].
  destruct (fetched p) as [message|data|httpStatus] eqn:Hp.
  - assert (∀ data, fetched p ≠ Ok data) as Herr by (intros data; by rewrite Hp).
    destruct (iteration_error jobId startUrl startTime p s Herr Hlive)
      as (_ & Hum & _ & Hsent & _).
    unfold streamInvariant. rewrite Hsent, Hum.
    destruct (iteration_error_out jobId startUrl startTime p s Herr Hlive)
      as [[Hout Hcomp]|[e Hout]]; rewrite Hout.
    + rewrite Hcomp. done.
    + rewrite urlsSent_app, Hurls. cbn. rewrite app_nil_r. split; [done|]. split; [done|].
      destruct (isComplete (iteration jobId startUrl startTime p s)).
      * exists (out s), (msg_error e). done.
      * split; [|done]. apply Forall_app. split; [done|]. by repeat constructor.
  - destruct (iteration_ok_out jobId startUrl startTime p data s Hp)
      as (ms & ending & Hout & Hpg & _ & Hsent & Hn & Hv).
    set (head := [msg_status (d_status data);
                  msg_progress (d_completed data) (d_total data) (d_creditsUsed data)]) in *.
    assert (Forall (λ m, completes m = false) (out s ++ head ++ ms)) as Hbefore.
    { apply Forall_app. split; [done|]. apply Forall_app. split; [by repeat constructor|].
      by apply pages_not_complete. }
    assert (∀ tail, urlsSent tail = [] →
              urlsSent (out s ++ head ++ ms ++ tail)
              = sentUrls (iteration jobId startUrl startTime p s)) as Hsame.
    { intros tail Htail. rewrite !urlsSent_app, Htail, Hurls, Hsent, app_nil_r. reflexivity. }
    assert (out s ++ head ++ ms ++ ending = (out s ++ head ++ ms) ++ ending) as Hassoc
      by (by rewrite <- !app_assoc).
    unfold streamInvariant. rewrite Hout.
    destruct (verdict startTime data (ingested jobId p data s));
      destruct Hv as (Hending & Hcomp & Hum); rewrite Hcomp, Hum, ?Hlive, Hmaps.
    + split; [apply Hsame; by rewrite Hending|]. split; [by apply Hn|].
      rewrite Hassoc, Hending. eexists _, _. split; [reflexivity|]. by split.
    + split; [apply Hsame; by rewrite Hending|]. split; [by apply Hn|].
      rewrite Hassoc, Hending. eexists _, _. split; [reflexivity|]. by split.
    + split; [apply Hsame; by rewrite Hending|]. split; [by apply Hn|].
      rewrite Hassoc, Hending, app_nil_r. by split.
  - assert (∀ data, fetched p ≠ Ok data) as Herr by (intros data; by rewrite Hp).
    destruct (iteration_error jobId startUrl startTime p s Herr Hlive)
      as (_ & Hum & _ & Hsent & _).
    unfold streamInvariant. rewrite Hsent, Hum.
    destruct (iteration_error_out jobId startUrl startTime p s Herr Hlive)
      as [[Hout Hcomp]|[e Hout]]; rewrite Hout.
    + rewrite Hcomp. done.
    + rewrite urlsSent_app, Hurls. cbn. rewrite app_nil_r. split; [done|]. split; [done|].
      destruct (isComplete (iteration jobId startUrl startTime p s)).
      * exists (out s), (msg_error e). done.
      * split; [|done]. apply Forall_app. split; [done|]. by repeat constructor.
Qed.

(** The stream of a polled job, once closed: its messages up to the
    last, the last, and the manifests. *)
Lemma GET_live_closed env jobId polls w job :
  Js.truthy (FIRECRAWL_API_KEY env) = true →
  cacheService.getCrawlJob jobId w = Some job → live job →
  ∃ s before m,
    GET env jobId polls w = Some (Streamed s)
    ∧ out s = before ++ [m] ∧ closing m = true
    ∧ Forall (λ m, completes m = false) before
    ∧ NoDup (urlsSent before)
    ∧ urlMaps (world s)
      = if completes m && (0 <? length (urlsSent before))%nat
        then <[Job.url job := urlsSent before]> (urlMaps w) else urlMaps w.
Proof.
  intros Hkey Hjob Hlive. rewrite (GET_live env jobId polls w job Hkey Hjob Hlive).
  unfold poll.
  destruct (pollLoop_total jobId (Job.url job) (now env) polls enoughFuel 0
              (initial (now env) job w)) as [s Hloop].
  { cbn. unfold maxPollingTime, pollInterval, enoughFuel. lia. }
  rewrite Hloop. cbn [mbind option_bind fmap option_fmap option_map].
  destruct (pollLoop_invariant (λ _, streamInvariant (Job.url job) w) jobId (Job.url job)
              (now env) polls) with (fuel := enoughFuel) (i := 0%nat)
              (s := initial (now env) job w) (s' := s) as [[_ Hinv] _].
  - intros i s0 Hinv Hlive0 _. by apply streamInvariant_iteration.
  - unfold streamInvariant. cbn. split; [done|]. split; [constructor|]. by split.
  - done.
  - destruct Hinv as (Hurls & Hnd & Hend).
    destruct (isComplete s) eqn:Hcomp; cbn [negb].
    + destruct Hend as (before & m & Hout & Hclosing & Hnc & Hmaps).
      exists s, before, m. split; [done|]. split; [done|]. split; [done|]. split; [done|].
      assert (urlsSent before = sentUrls s) as Hb.
      { rewrite <- Hurls, Hout, urlsSent_app.
        destruct m; cbn in Hclosing |- *; try done; by rewrite app_nil_r. }
      rewrite Hb. by split.
    + destruct Hend as [Hnc Hmaps].
      eexists _, (out s), _. split; [reflexivity|]. cbn [out enqueue world].
      split; [reflexivity|]. split; [done|]. split; [done|]. rewrite Hurls. by split.
Qed.

(** ** The messages and the manifest of a stream *)

(** X18. A turn with a 2xx response sends [status], then [progress],
    then one [url_complete] per page not sent before, and then closes the
    stream with [complete] or with [Crawl job failed], or leaves it
    open. *)
Theorem X18_events_of_a_poll jobId startUrl startTime p data s :
  fetched p = Ok data → isComplete s = false →
  let s' := iteration jobId startUrl startTime p s in
  ∃ pageMsgs ending,
    out s' = out s ++ [msg_status (d_status data);
                       msg_progress (d_completed data) (d_total data) (d_creditsUsed data)]
                   ++ pageMsgs ++ ending
    ∧ Forall (λ m, isPage m = true) pageMsgs
    ∧ (length pageMsgs ≤ length (default [] (d_data data)))%nat
    ∧ sentUrls s' = sentUrls s ++ urlsSent pageMsgs
    ∧ (ending = [] ∧ isComplete s' = false
       ∨ ending = [msg_complete (d_total data) (default 0%N (d_creditsUsed data))]
         ∧ isComplete s' = true
       ∨ ending = [msg_error "Crawl job failed"] ∧ isComplete s' = true).
Proof.
  intros Hp Hlive s'.
  destruct (iteration_ok_out jobId startUrl startTime p data s Hp)
    as (ms & ending & Hout & Hpg & Hlen & Hsent & _ & Hv).
  exists ms, ending. split; [done|]. split; [done|]. split; [done|]. split; [done|].
  destruct (verdict startTime data (ingested jobId p data s));
    destruct Hv as (Hending & Hcomp & _).
  - right. by left.
  - right. by right.
  - left. unfold s'. by rewrite Hcomp.
Qed.

Lemma X18_witness :
  let s' := iteration "job-7" "https://docs.example.com/" 0 (stubPolls 0) freshStream in
  ∃ pageMsgs ending,
    out s' = out freshStream
               ++ [msg_status "completed"; msg_progress 1 1 (Some 1%N)]
               ++ pageMsgs ++ ending
    ∧ Forall (λ m, isPage m = true) pageMsgs
    ∧ (length pageMsgs
       ≤ length (default [] (Some [ {| sourceURL := Some "https://docs.example.com/stub";
                                       markdown := Some "# Stub" |} ])))%nat
    ∧ sentUrls s' = sentUrls freshStream ++ urlsSent pageMsgs
    ∧ (ending = [] ∧ isComplete s' = false
       ∨ ending = [msg_complete 1 (default 0%N (Some 1%N))] ∧ isComplete s' = true
       ∨ ending = [msg_error "Crawl job failed"] ∧ isComplete s' = true).
Proof.
  apply (X18_events_of_a_poll "job-7" "https://docs.example.com/" 0 (stubPolls 0)
           {| d_status := "completed"; d_completed := 1; d_total := 1;
              d_creditsUsed := Some 1%N; d_expiresAt := None; d_next := None;
              d_data := Some [ {| sourceURL := Some "https://docs.example.com/stub";
                                  markdown := Some "# Stub" |} ] |}
           freshStream).
  - reflexivity.
  - reflexivity.
Defined.

(** X19. Whatever the polls bring, the handler answers: either at once
    with an error message, or with a stream whose last message is
    [complete] or [error], and in which [complete] occurs nowhere else. *)
Theorem X19_stream_closes env jobId polls w :
  match GET env jobId polls w with
  | Some (Immediate httpStatus m) =>
      (httpStatus = 500 ∨ httpStatus = 404) ∧ ∃ e, m = msg_error e
  | Some (Streamed s) =>
      ∃ before m, out s = before ++ [m] ∧ closing m = true
                  ∧ Forall (λ m, completes m = false) before
  | None => False
  end.
Proof.
  destruct (Js.truthy (FIRECRAWL_API_KEY env)) eqn:Hkey;
    [|unfold GET; rewrite Hkey; cbn [negb]; split; [by left|by eexists]].
  destruct (cacheService.getCrawlJob jobId w) as [job|] eqn:Hjob;
    [|unfold GET; rewrite Hkey, Hjob; cbn [negb]; split; [by right|by eexists]].
  assert (live job ∨ ∃ crawledUrls, Job.status job = "cache_hit"
                                    ∧ Job.crawledUrls job = Some crawledUrls) as [Hlive|Hhit].
  { unfold live. destruct (String.eqb (Job.status job) "cache_hit") eqn:Hs.
    - apply String.eqb_eq in Hs. destruct (Job.crawledUrls job) as [us|]; [|by left; right].
      right. by exists us.
    - apply String.eqb_neq in Hs. by left; left. }
  - destruct (GET_live_closed env jobId polls w job Hkey Hjob Hlive)
      as (s & before & m & -> & Hout & Hclosing & Hnc & _).
    by exists before, m.
  - destruct Hhit as (crawledUrls & Hstatus & Hurls).
    unfold GET. rewrite Hkey, Hjob, Hstatus, Hurls. cbn [negb String.eqb Ascii.eqb Bool.eqb].
    destruct (serveCached_spec crawledUrls (initial (now env) job w)) as [Hout _].
    rewrite Hout. cbn [out initial app].
    eexists _, _. split; [reflexivity|]. split; [done|].
    apply Forall_fmap, Forall_forall. by intros u _.
Qed.

(** X20. A polled job's stream sends no page URL twice.  It writes a
    manifest only when it ends with [complete] after having sent a page:
    the manifest then lists the URLs of the pages sent, in the order
    sent, under the job's start URL.  Every other manifest stays as it
    was. *)
Theorem X20_manifest_is_what_was_sent env jobId polls w job :
  Js.truthy (FIRECRAWL_API_KEY env) = true →
  cacheService.getCrawlJob jobId w = Some job → live job →
  ∃ s, GET env jobId polls w = Some (Streamed s)
       ∧ NoDup (urlsSent (out s))
       ∧ urlMaps (world s)
         = match last (out s) with
           | Some (msg_complete _ _) =>
               if (0 <? length (urlsSent (out s)))%nat
               then <[Job.url job := urlsSent (out s)]> (urlMaps w) else urlMaps w
           | _ => urlMaps w
           end.
Proof.
  intros Hkey Hjob Hlive.
  destruct (GET_live_closed env jobId polls w job Hkey Hjob Hlive)
    as (s & before & m & HGET & Hout & Hclosing & _ & Hnd & Hmaps).
  exists s. split; [done|].
  assert (urlsSent (out s) = urlsSent before) as Hsame.
  { rewrite Hout, urlsSent_app. destruct m; try done; cbn; by rewrite app_nil_r. }
  rewrite Hsame, Hout, last_snoc, Hmaps. split; [done|]. by destruct m.
Qed.

Lemma X20_witness :
  ∃ s, GET statusEnv "job-7" stubPolls liveWorld = Some (Streamed s)
       ∧ NoDup (urlsSent (out s))
       ∧ urlMaps (world s)
         = match last (out s) with
           | Some (msg_complete _ _) =>
               if (0 <? length (urlsSent (out s)))%nat
               then <[Job.url (Start.crawlingJob "job-7" "https://docs.example.com/" 10 0 None)
                      := urlsSent (out s)]> (urlMaps liveWorld)
               else urlMaps liveWorld
           | _ => urlMaps liveWorld
           end.
Proof.
  apply (X20_manifest_is_what_was_sent statusEnv "job-7" stubPolls liveWorld
           (Start.crawlingJob "job-7" "https://docs.example.com/" 10 0 None)).
  - reflexivity.
  - reflexivity.
  - left. discriminate.
Defined.

(** ** The requests a stream makes to the provider *)

Lemma processPage_breaker s page : breaker (world (processPage s page)) = breaker (world s).
Proof. unfold processPage. repeat case_match; reflexivity. Qed.

Lemma processPages_breaker batch s :
  breaker (world (fold_left processPage batch s)) = breaker (world s).
Proof.
  revert s. induction batch as [|page batch IH]; intros s; [done|].
  simpl. rewrite IH. apply processPage_breaker.
Qed.

Lemma ingest_breaker jobId data s : breaker (world (ingest jobId data s)) = breaker (world s).
Proof.
  unfold ingest. destruct (d_data data) as [batch|].
  - change (world (set_lastPageNumber ?n ?s)) with (world s).
    rewrite processPages_breaker. by destruct (_ && _).
  - by destruct (_ && _).
Qed.

Lemma conclude_breaker_calls jobId startUrl startTime data s :
  breaker (world (conclude jobId startUrl startTime data s)) = breaker (world s)
  ∧ calls (world (conclude jobId startUrl startTime data s)) = calls (world s).
Proof. unfold conclude. repeat case_match; by split. Qed.

(** A turn makes one GET, to the current status URL, and leaves the
    breaker alone. *)
Lemma iteration_calls jobId startUrl startTime p s :
  calls (world (iteration jobId startUrl startTime p s))
  = ProviderGet (statusUrl jobId s) :: calls (world s)
  ∧ breaker (world (iteration jobId startUrl startTime p s)) = breaker (world s).
Proof.
  unfold iteration, statusUrl.
  set (s1 := elapse _ (on_world _ s)).
  assert (calls (world s1)
          = ProviderGet (Js.or_else (jobNext s) (FIRECRAWL_API_URL +:+ "/crawl/" +:+ jobId))
              :: calls (world s)
          ∧ breaker (world s1) = breaker (world s)) as [Hc Hb] by done.
  clearbody s1. rewrite <- Hc, <- Hb.
  assert (∀ x, world (wait x) = world x) as Hwait
    by (intros x; unfold wait; by destruct (negb _)).
  rewrite Hwait. destruct (fetched p) as [message|data|httpStatus].
  - unfold onThrow. by repeat case_match.
  - unfold onData.
    assert (∀ x, world (if Js.truthy (d_next data) then set_jobNext (d_next data) x else x)
                 = world x) as -> by (intros x; by destruct (Js.truthy _)).
    destruct (conclude_breaker_calls jobId startUrl startTime data
                (elapse (Z.of_N (storeMs p)) (ingest jobId data s1))) as [-> ->].
    cbn [world elapse]. rewrite ingest_breaker.
    pose proof (ingest_ledgers jobId data s1) as H. unfold ledgers in H.
    by injection H as _ _ ->.
  - unfold onErrorResponse. by repeat case_match.
Qed.

Lemma iteration_jobNext jobId startUrl startTime p s :
  isComplete s = false →
  jobNext (iteration jobId startUrl startTime p s)
  = match fetched p with
    | Ok data => if Js.truthy (d_next data) then d_next data else jobNext s
    | _ => jobNext s
    end.
Proof.
  intros Hlive. destruct (fetched p) as [message|data|httpStatus] eqn:Hp.
  - unfold iteration, wait, onThrow. rewrite Hp. by repeat case_match.
  - pose proof (iteration_ok_control jobId startUrl startTime p data s Hp Hlive) as H.
    cbv zeta in H. unfold control in H. by injection H as _ _ _ _ _ ->.
  - unfold iteration, wait, onErrorResponse. rewrite Hp. by repeat case_match.
Qed.

(** X21. Every turn of the loop makes exactly one request to the
    provider, a GET of the current status URL.  The URL moves on to the
    [next] cursor when a 2xx response names one; it stays where it is
    when the response names none, and when the poll fails. *)
Theorem X21_poll_follows_cursor jobId startUrl startTime p s :
  isComplete s = false →
  let s' := iteration jobId startUrl startTime p s in
  calls (world s') = ProviderGet (statusUrl jobId s) :: calls (world s)
  ∧ statusUrl jobId s' = match fetched p with
                         | Ok data => Js.or_else (d_next data) (statusUrl jobId s)
                         | _ => statusUrl jobId s
                         end.
Proof.
  intros Hlive s'. split; [apply iteration_calls|].
  unfold s', statusUrl. rewrite (iteration_jobNext _ _ _ _ _ Hlive).
  destruct (fetched p) as [message|data|httpStatus]; [done| |done].
  destruct (Js.truthy (d_next data)) eqn:Hnext.
  - unfold Js.or_else. rewrite Hnext. by destruct (d_next data).
  - unfold Js.or_else at 2. by rewrite Hnext.
Qed.

Lemma X21_witness :
  let s' := iteration "job-7" "https://docs.example.com/" 0 cursorPoll freshStream in
  calls (world s') = ProviderGet (statusUrl "job-7" freshStream) :: calls (world freshStream)
  ∧ statusUrl "job-7" s'
    = match fetched cursorPoll with
      | Ok data => Js.or_else (d_next data) (statusUrl "job-7" freshStream)
      | _ => statusUrl "job-7" freshStream
      end.
Proof.
  apply (X21_poll_follows_cursor "job-7" "https://docs.example.com/" 0 cursorPoll freshStream).
  reflexivity.
Defined.

Lemma callsInvariant_iteration jobId startUrl job w0 startTime polls i s :
  callsInvariant jobId job w0 startTime i s →
  isComplete s = false → clock s - startTime < maxPollingTime →
  callsInvariant jobId job w0 startTime (S i)
    (iteration jobId startUrl startTime (polls i) s).
Proof.
  intros (gets & Hcalls & Hlen & Hgets & Hi & Hclock & Hbreaker & Hfirst) Hlive Hguard.
  destruct (iteration_calls jobId startUrl startTime (polls i) s) as [Hc Hb].
  exists (ProviderGet (statusUrl jobId s) :: gets).
  rewrite Hc, Hb, Hcalls. split; [done|]. split; [cbn; by rewrite Hlen|].
  split; [by constructor|].
  specialize (Hclock Hlive). unfold maxPollingTime, pollInterval in *.
  split; [lia|]. split.
  - intros Hopen.
    destruct (iteration_clock jobId startUrl startTime (polls i) s Hlive)
      as (busy & Hbusy & Hclock').
    rewrite Hopen in Hclock'.
    pose proof (delay_lower (iteration jobId startUrl startTime (polls i) s)) as Hd.
    unfold pollInterval in Hd. lia.
  - split; [done|]. destruct i as [|i].
    + destruct gets; [|done]. by rewrite Hfirst.
    + destruct gets as [|c gets]; [done|]. exact Hfirst.
Qed.

(** The requests of a polled job's stream, once closed. *)
Lemma GET_live_calls env jobId polls w job :
  Js.truthy (FIRECRAWL_API_KEY env) = true →
  cacheService.getCrawlJob jobId w = Some job → live job →
  ∃ s gets,
    GET env jobId polls w = Some (Streamed s)
    ∧ calls (world s) = gets ++ calls w
    ∧ (1 ≤ length gets ≤ 240)%nat
    ∧ Forall (λ c, isGet c = true) gets
    ∧ last gets = Some (ProviderGet (Js.or_else (Job.next job)
                                       (FIRECRAWL_API_URL +:+ "/crawl/" +:+ jobId)))
    ∧ breaker (world s) = breaker w.
Proof.
  intros Hkey Hjob Hlive. rewrite (GET_live env jobId polls w job Hkey Hjob Hlive).
  unfold poll.
  destruct (pollLoop_total jobId (Job.url job) (now env) polls enoughFuel 0
              (initial (now env) job w)) as [s Hloop].
  { cbn. unfold maxPollingTime, pollInterval, enoughFuel. lia. }
  rewrite Hloop. cbn [mbind option_bind fmap option_fmap option_map].
  destruct (pollLoop_invariant (callsInvariant jobId job w (now env)) jobId (Job.url job)
              (now env) polls) with (fuel := enoughFuel) (i := 0%nat)
              (s := initial (now env) job w) (s' := s) as [[k Hinv] Hend].
  - intros i s0 Hinv Hlive0 Hguard. by apply callsInvariant_iteration.
  - exists []. cbn. unfold pollInterval. repeat split; try done; try lia.
  - done.
  - destruct Hinv as (gets & Hcalls & Hlen & Hgets & Hk & _ & Hbreaker & Hfirst).
    eexists _, gets. split; [reflexivity|].
    assert (∀ m, world (if negb (isComplete s) then enqueue m s else s) = world s) as ->
      by (intros m; by destruct (negb _)).
    split; [done|]. destruct k as [|k].
    + exfalso. subst s. cbn in Hend. unfold maxPollingTime in Hend.
      destruct Hend as [Hend|Hend]; [done|lia].
    + rewrite Hlen. split; [lia|]. by repeat split.
Qed.

(** X22. A polled job's stream makes at least one and at most 240
    requests to the provider: GETs only, the first of them to the job's
    status URL.  It never records a success or a failure with the
    circuit breaker. *)
Theorem X22_polls_are_bounded env jobId polls w job :
  Js.truthy (FIRECRAWL_API_KEY env) = true →
  cacheService.getCrawlJob jobId w = Some job → live job →
  ∃ s gets,
    GET env jobId polls w = Some (Streamed s)
    ∧ calls (world s) = gets ++ calls w
    ∧ (1 ≤ length gets ≤ 240)%nat
    ∧ Forall (λ c, isGet c = true) gets
    ∧ last gets = Some (ProviderGet (Js.or_else (Job.next job)
                                       (FIRECRAWL_API_URL +:+ "/crawl/" +:+ jobId)))
    ∧ breaker (world s) = breaker w.
Proof.
  apply GET_live_calls.
Qed.

Lemma X22_witness :
  ∃ s gets,
    GET statusEnv "job-7" stubPolls liveWorld = Some (Streamed s)
    ∧ calls (world s) = gets ++ calls liveWorld
    ∧ (1 ≤ length gets ≤ 240)%nat
    ∧ Forall (λ c, isGet c = true) gets
    ∧ last gets
      = Some (ProviderGet
                (Js.or_else
                   (Job.next (Start.crawlingJob "job-7" "https://docs.example.com/" 10 0 None))
                   (FIRECRAWL_API_URL +:+ "/crawl/" +:+ "job-7")))
    ∧ breaker (world s) = breaker liveWorld.
Proof.
  apply (X22_polls_are_bounded statusEnv "job-7" stubPolls liveWorld
           (Start.crawlingJob "job-7" "https://docs.example.com/" 10 0 None)).
  - reflexivity.
  - reflexivity.
  - left. discriminate.
Defined.

(** ** The page cache under a stream *)

Lemma pageInvariant_ext w0 s s' extra :
  pages (world s') = pages (world s) → sentUrls s' = sentUrls s →
  out s' = out s ++ extra → Forall (λ m, isPage m = false) extra →
  pageInvariant w0 s → pageInvariant w0 s'.
Proof.
  intros Hpages Hsent Hout Hextra (Hmsgs & Hkept & Hnew & Hdom & Hrest).
  assert (∀ u c b, msg_url_complete u c b ∈ out s' ↔ msg_url_complete u c b ∈ out s) as Hin.
  { intros u c b. rewrite Hout, elem_of_app. split; [|by left].
    intros [H|H]; [done|]. rewrite Forall_forall in Hextra. by apply Hextra in H. }
  unfold pageInvariant. rewrite Hpages, Hsent. split; [|split; [|split; [|split]]].
  - intros u c b Hm. apply Hin in Hm. by apply Hmsgs.
  - done.
  - intros u c Hc. destruct (Hnew u c Hc) as [H|[H1 H2]]; [by left|].
    right. split; [done|]. by apply Hin.
  - done.
  - done.
Qed.

Lemma truthy_nonempty c : Js.truthy (Some c) = true ↔ c ≠ "".
Proof.
  unfold Js.truthy. rewrite negb_true_iff. split.
  - intros H. by apply String.eqb_neq.
  - intros H. by apply String.eqb_neq.
Qed.

(** What holds of the messages sent before, once the page of a URL
    [u0] not sent before has been dealt with. *)
Lemma pageInvariant_earlier (w0 : World) (s : Stream) (u0 : string)
    (pages' : gmap string string) (u c : string) (b : bool) :
  u0 ∉ sentUrls s → (∀ u, u ≠ u0 → pages' !! u = pages (world s) !! u) →
  (u ∈ sentUrls s
   ∧ if b then pages w0 !! u = Some c ∧ c ≠ "" ∧ pages (world s) !! u = Some c
     else Js.truthy (pages w0 !! u) = false
          ∧ ((PROCESSING_CONFIG.MIN_CONTENT_LENGTH ≤ Js.length c)%nat →
             pages (world s) !! u = Some c)
          ∧ ((Js.length c < PROCESSING_CONFIG.MIN_CONTENT_LENGTH)%nat →
             pages (world s) !! u = pages w0 !! u)) →
  u ∈ sentUrls s ++ [u0]
  ∧ if b then pages w0 !! u = Some c ∧ c ≠ "" ∧ pages' !! u = Some c
    else Js.truthy (pages w0 !! u) = false
         ∧ ((PROCESSING_CONFIG.MIN_CONTENT_LENGTH ≤ Js.length c)%nat → pages' !! u = Some c)
         ∧ ((Js.length c < PROCESSING_CONFIG.MIN_CONTENT_LENGTH)%nat →
            pages' !! u = pages w0 !! u).
Proof.
  intros Hfresh Hsame [Hu Hb]. split; [apply elem_of_app; by left|].
  assert (u ≠ u0) as Hne by (intros ->; done).
  rewrite (Hsame u Hne). exact Hb.
Qed.

Lemma processPage_pageInvariant w0 s page :
  pageInvariant w0 s → pageInvariant w0 (processPage s page).
Proof.
  intros (Hmsgs & Hkept & Hnew & Hdom & Hrest). unfold processPage.
  destruct (Js.truthy (sourceURL page)
            && negb (bool_decide (default "" (sourceURL page) ∈ sentUrls s))) eqn:Hfresh;
    [|done].
  apply andb_true_iff in Hfresh as [_ Hfresh].
  apply negb_true_iff, bool_decide_eq_false in Hfresh.
  set (u0 := default "" (sourceURL page)) in *.
  set (content := Js.or_else (markdown page) "").
  pose proof (Hrest u0 Hfresh) as Hentry.
  assert (sentUrls (addSent u0 s) = sentUrls s ++ [u0]) as Hsent.
  { unfold addSent. cbn [sentUrls]. by rewrite bool_decide_eq_false_2. }
  assert (∀ u, u ∉ (sentUrls s ++ [u0]) → (u ∉ sentUrls s) ∧ u ≠ u0) as Hunsent.
  { intros u Hu. split.
    - intros H. apply Hu, elem_of_app. by left.
    - intros ->. apply Hu, elem_of_app. right. by apply list_elem_of_singleton. }
  assert (u0 ∈ sentUrls s ++ [u0]) as Hlast
    by (apply elem_of_app; right; by apply list_elem_of_singleton).
  change (world (addSent u0 s)) with (world s).
  unfold cacheService.get.
  destruct (Js.truthy (pages (world s) !! u0)) eqn:Hcached.
  - destruct (pages (world s) !! u0) as [c0|] eqn:Hc0; [|done].
    apply truthy_nonempty in Hcached. cbn [default from_option].
    unfold pageInvariant. cbn [out enqueue world].
    change (sentUrls (enqueue ?m (addSent u0 s))) with (sentUrls (addSent u0 s)).
    rewrite Hsent. split; [|split; [|split; [|split]]].
    + intros u c b Hm. apply elem_of_app in Hm as [Hm|Hm].
      * apply (pageInvariant_earlier w0 s u0 (pages (world s))); [done|done|].
        by apply Hmsgs.
      * apply list_elem_of_singleton in Hm. injection Hm as -> -> ->.
        split; [done|]. split; [by symmetry|]. by split.
    + done.
    + intros u c Hc. destruct (Hnew u c Hc) as [H|[H1 H2]]; [by left|].
      right. split; [done|]. apply elem_of_app. by left.
    + done.
    + intros u Hu. apply Hrest. by apply Hunsent.
  - assert (Js.truthy (pages w0 !! u0) = false) as Hbefore by (by rewrite <- Hentry).
    assert (∀ c, pages (world s) !! u0 = Some c → c = "") as Hempty.
    { intros c Hc. rewrite Hc in Hcached. destruct (decide (c = "")) as [|Hne]; [done|].
      apply truthy_nonempty in Hne. congruence. }
    destruct (PROCESSING_CONFIG.MIN_CONTENT_LENGTH <=? Js.length content)%nat eqn:Hlong.
    + apply Nat.leb_le in Hlong.
      unfold pageInvariant.
      cbn [out enqueue world on_world cacheService.set set_pages pages].
      change (sentUrls (enqueue ?m (on_world ?f (addSent u0 s))))
        with (sentUrls (addSent u0 s)).
      rewrite Hsent. split; [|split; [|split; [|split]]].
      * intros u c b Hm. apply elem_of_app in Hm as [Hm|Hm].
        -- apply (pageInvariant_earlier w0 s u0); [done| |by apply Hmsgs].
           intros u' Hne. by rewrite lookup_insert_ne.
        -- apply list_elem_of_singleton in Hm. injection Hm as -> -> ->.
           split; [done|]. split; [done|]. split.
           ++ intros _. apply lookup_insert_eq.
           ++ intros Hshort. lia.
      * intros u c Hc Hne. destruct (decide (u0 = u)) as [->|Hu].
        -- specialize (Hkept u c Hc Hne). by apply Hempty in Hkept.
        -- rewrite lookup_insert_ne; [|done]. by apply Hkept.
      * intros u c Hc. destruct (decide (u0 = u)) as [->|Hu].
        -- rewrite lookup_insert_eq in Hc. injection Hc as <-. right.
           split; [done|]. apply elem_of_app. right. by apply list_elem_of_singleton.
        -- rewrite lookup_insert_ne in Hc; [|done].
           destruct (Hnew u c Hc) as [H|[H1 H2]]; [by left|].
           right. split; [done|]. apply elem_of_app. by left.
      * intros u Hu. destruct (decide (u0 = u)) as [->|Hne].
        -- rewrite lookup_insert_eq. by eexists.
        -- rewrite lookup_insert_ne; [|done]. by apply Hdom.
      * intros u Hu. apply Hunsent in Hu as [Hu Hne].
        rewrite lookup_insert_ne; [|done]. by apply Hrest.
    + apply Nat.leb_gt in Hlong.
      unfold pageInvariant. cbn [out enqueue world].
      change (sentUrls (enqueue ?m (addSent u0 s))) with (sentUrls (addSent u0 s)).
      rewrite Hsent. split; [|split; [|split; [|split]]].
      * intros u c b Hm. apply elem_of_app in Hm as [Hm|Hm].
        -- apply (pageInvariant_earlier w0 s u0 (pages (world s))); [done|done|].
           by apply Hmsgs.
        -- apply list_elem_of_singleton in Hm. injection Hm as -> -> ->.
           split; [done|]. split; [done|]. split; [intros Hlen; lia|done].
      * done.
      * intros u c Hc. destruct (Hnew u c Hc) as [H|[H1 H2]]; [by left|].
        right. split; [done|]. apply elem_of_app. by left.
      * done.
      * intros u Hu. apply Hrest. by apply Hunsent.
Qed.

Lemma processPages_pageInvariant w0 batch :
  ∀ s, pageInvariant w0 s → pageInvariant w0 (fold_left processPage batch s).
Proof.
  induction batch as [|page batch IH]; intros s Hinv; [done|].
  cbn [fold_left]. by apply IH, processPage_pageInvariant.
Qed.

Lemma ingest_pageInvariant w0 jobId data s :
  pageInvariant w0 s → pageInvariant w0 (ingest jobId data s).
Proof.
  intros Hinv. unfold ingest.
  set (s0 := enqueue _ (enqueue _ (on_world _ _))).
  assert (pageInvariant w0 s0) as Hinv0.
  { apply (pageInvariant_ext w0 s s0
             [msg_status (d_status data);
              msg_progress (d_completed data) (d_total data) (d_creditsUsed data)]);
      [by unfold s0; destruct (_ && _)|by unfold s0; destruct (_ && _)| |by repeat constructor
      |done].
    unfold s0. cbn [out enqueue on_world]. rewrite <- app_assoc. by destruct (_ && _). }
  clearbody s0. destruct (d_data data) as [batch|]; [|done].
  eapply (pageInvariant_ext w0 _ _ []); [reflexivity|reflexivity|by rewrite app_nil_r
                                        |constructor|].
  apply processPages_pageInvariant.
  by apply (pageInvariant_ext w0 s0 _ []); [| |rewrite app_nil_r|constructor|].
Qed.

Lemma pageInvariant_iteration w0 jobId startUrl startTime p s :
  pageInvariant w0 s → isComplete s = false →
  pageInvariant w0 (iteration jobId startUrl startTime p s).
Proof.
  intros Hinv Hlive. destruct (fetched p) as [message|data|httpStatus] eqn:Hp.
  - assert (∀ data, fetched p ≠ Ok data) as Herr by (intros data; by rewrite Hp).
    destruct (iteration_error jobId startUrl startTime p s Herr Hlive)
      as (_ & _ & Hpages & Hsent & _).
    destruct (iteration_error_out jobId startUrl startTime p s Herr Hlive)
      as [[Hout _]|[e Hout]].
    + by apply (pageInvariant_ext w0 s _ []); [| |rewrite app_nil_r|constructor|].
    + by apply (pageInvariant_ext w0 s _ [msg_error e]); [| | |repeat constructor|].
  - destruct (iteration_ok jobId startUrl startTime p data s Hp) as [Heff _].
    rewrite conclude_effects in Heff.
    assert (pageInvariant w0 (ingested jobId p data s)) as Hing.
    { unfold ingested.
      apply (pageInvariant_ext w0 (ingest jobId data (fetchedState jobId p s)) _ []);
        [done|done|by rewrite app_nil_r|constructor|].
      apply ingest_pageInvariant.
      by apply (pageInvariant_ext w0 s _ []); [| |rewrite app_nil_r|constructor|]. }
    destruct (verdict startTime data (ingested jobId p data s));
      unfold effects in Heff; injection Heff as Ho Hw Hsent.
    + eapply (pageInvariant_ext w0 (ingested jobId p data s) _ [_]);
        [|exact Hsent|exact Ho|by repeat constructor|done].
      rewrite Hw.
      match goal with
      | |- context [(if ?b then cacheService.setCrawlUrlMap ?u ?us else id)
                      (cacheService.updateCrawlJobStatus ?j ?m ?w)] =>
          destruct (settled_world b j m u us w) as [Hpg _]
      end.
      exact Hpg.
    + eapply (pageInvariant_ext w0 (ingested jobId p data s) _ [_]);
        [|exact Hsent|exact Ho|by repeat constructor|done].
      by rewrite Hw.
    + eapply (pageInvariant_ext w0 (ingested jobId p data s) _ []);
        [|exact Hsent|by rewrite app_nil_r|constructor|done].
      by rewrite Hw.
  - assert (∀ data, fetched p ≠ Ok data) as Herr by (intros data; by rewrite Hp).
    destruct (iteration_error jobId startUrl startTime p s Herr Hlive)
      as (_ & _ & Hpages & Hsent & _).
    destruct (iteration_error_out jobId startUrl startTime p s Herr Hlive)
      as [[Hout _]|[e Hout]].
    + by apply (pageInvariant_ext w0 s _ []); [| |rewrite app_nil_r|constructor|].
    + by apply (pageInvariant_ext w0 s _ [msg_error e]); [| | |repeat constructor|].
Qed.

Lemma GET_live_pages env jobId polls w job :
  Js.truthy (FIRECRAWL_API_KEY env) = true →
  cacheService.getCrawlJob jobId w = Some job → live job →
  ∃ s, GET env jobId polls w = Some (Streamed s) ∧ pageInvariant w s.
Proof.
  intros Hkey Hjob Hlive. rewrite (GET_live env jobId polls w job Hkey Hjob Hlive).
  unfold poll.
  destruct (pollLoop_total jobId (Job.url job) (now env) polls enoughFuel 0
              (initial (now env) job w)) as [s Hloop].
  { cbn. unfold maxPollingTime, pollInterval, enoughFuel. lia. }
  rewrite Hloop. cbn [mbind option_bind fmap option_fmap option_map].
  destruct (pollLoop_invariant (λ _, pageInvariant w) jobId (Job.url job)
              (now env) polls) with (fuel := enoughFuel) (i := 0%nat)
              (s := initial (now env) job w) (s' := s) as [[_ Hinv] _].
  - intros i s0 Hinv Hlive0 _. by apply pageInvariant_iteration.
  - unfold pageInvariant. cbn [out initial world sentUrls]. split; [|split; [|split; [|split]]].
    + intros u c b Hm. by apply elem_of_nil in Hm.
    + done.
    + intros u c Hc. by left.
    + done.
    + done.
  - done.
  - eexists. split; [reflexivity|]. destruct (isComplete s); cbn [negb]; [done|].
    by apply (pageInvariant_ext w s _ [msg_error "Crawl job timed out after 8 minutes"]);
      [| | |repeat constructor|].
Qed.

(** X23. What a polled job's stream sends as a page is what the cache
    holds when the stream closes: a page sent as cached is in the cache
    with the content sent, and so is a page sent as fresh whose content
    has a [length] of at least 200. *)
Theorem X23_streamed_pages_are_cached env jobId polls w job :
  Js.truthy (FIRECRAWL_API_KEY env) = true →
  cacheService.getCrawlJob jobId w = Some job → live job →
  ∃ s, GET env jobId polls w = Some (Streamed s)
       ∧ ∀ u c cached,
           msg_url_complete u c cached ∈ out s →
           (cached = true ∨ (200 ≤ Js.length c)%nat) →
           cacheService.get u (world s) = Some c.
Proof.
  intros Hkey Hjob Hlive.
  destruct (GET_live_pages env jobId polls w job Hkey Hjob Hlive) as (s & HGET & Hmsgs & _).
  exists s. split; [done|]. intros u c cached Hm Hwhy.
  destruct (Hmsgs u c cached Hm) as [_ Hc]. destruct cached.
  - by destruct Hc as (_ & _ & Hc).
  - destruct Hwhy as [|Hlen]; [done|]. destruct Hc as (_ & Hc & _). by apply Hc.
Qed.

(** X24. A polled job's stream never replaces content in the cache that
    is not empty, and never removes an entry.  What it adds to the cache
    are pages that it sent as fresh, with a [length] of at least 200. *)
Theorem X24_cache_is_only_extended env jobId polls w job :
  Js.truthy (FIRECRAWL_API_KEY env) = true →
  cacheService.getCrawlJob jobId w = Some job → live job →
  ∃ s, GET env jobId polls w = Some (Streamed s)
       ∧ (∀ u c, cacheService.get u w = Some c → c ≠ "" →
                 cacheService.get u (world s) = Some c)
       ∧ (∀ u, is_Some (cacheService.get u w) → is_Some (cacheService.get u (world s)))
       ∧ (∀ u c, cacheService.get u (world s) = Some c →
                 cacheService.get u w = Some c
                 ∨ (200 ≤ Js.length c)%nat ∧ msg_url_complete u c false ∈ out s).
Proof.
  intros Hkey Hjob Hlive.
  destruct (GET_live_pages env jobId polls w job Hkey Hjob Hlive)
    as (s & HGET & _ & Hkept & Hnew & Hdom & _).
  exists s. split; [done|]. split; [done|]. split; [done|]. done.
Qed.

(** The page of 200 letters is cached; the short page and the page of
    150 accented letters are sent and listed in the manifest, and are
    not cached. *)
Lemma fourPagePolls_run :
  ∃ s, GET statusEnv "job-7" fourPagePolls mixedWorld = Some (Streamed s)
       ∧ urlsSent (out s) = ["https://docs.example.com/a"; "https://docs.example.com/long";
                             "https://docs.example.com/stub";
                             "https://docs.example.com/accents"]
       ∧ cacheService.getCrawlUrlMap "https://docs.example.com/" (world s)
         = Some (urlsSent (out s))
       ∧ cacheService.get "https://docs.example.com/a" (world s) = Some "# A"
       ∧ cacheService.get "https://docs.example.com/long" (world s) = Some (copies 40 "word ")
       ∧ cacheService.get "https://docs.example.com/stub" (world s) = None
       ∧ cacheService.get "https://docs.example.com/accents" (world s) = None
       ∧ Js.length (copies 150 "é") = 150%nat
       ∧ String.length (copies 150 "é") = 300%nat.
Proof. eexists. split; [vm_compute; reflexivity|]. repeat split; reflexivity. Qed.

Lemma X23_witness :
  ∃ s, GET statusEnv "job-7" fourPagePolls mixedWorld = Some (Streamed s)
       ∧ ∀ u c cached,
           msg_url_complete u c cached ∈ out s →
           (cached = true ∨ (200 ≤ Js.length c)%nat) →
           cacheService.get u (world s) = Some c.
Proof.
  apply (X23_streamed_pages_are_cached statusEnv "job-7" fourPagePolls mixedWorld
           (Start.crawlingJob "job-7" "https://docs.example.com/" 10 0 None)).
  - reflexivity.
  - reflexivity.
  - left. discriminate.
Defined.

Lemma X24_witness :
  ∃ s, GET statusEnv "job-7" fourPagePolls mixedWorld = Some (Streamed s)
       ∧ (∀ u c, cacheService.get u mixedWorld = Some c → c ≠ "" →
                 cacheService.get u (world s) = Some c)
       ∧ (∀ u, is_Some (cacheService.get u mixedWorld) →
               is_Some (cacheService.get u (world s)))
       ∧ (∀ u c, cacheService.get u (world s) = Some c →
                 cacheService.get u mixedWorld = Some c
                 ∨ (200 ≤ Js.length c)%nat ∧ msg_url_complete u c false ∈ out s).
Proof.
  apply (X24_cache_is_only_extended statusEnv "job-7" fourPagePolls mixedWorld
           (Start.crawlingJob "job-7" "https://docs.example.com/" 10 0 None)).
  - reflexivity.
  - reflexivity.
  - left. discriminate.
Defined.

(** ** What the manifest of a stream lists *)

(** C3, as amended. A manifest the seed endpoint writes lists only URLs
    that its cache lookup found.  A manifest the reconciler writes on
    completion lists the source URLs of the pages the stream has sent,
    in the order sent.  Such a URL is in the cache when the manifest is
    written if it was cached, with content that is not empty, when the
    stream began (its page was then sent from the cache), or if its page
    arrived with content of at least the minimum length, 200, counted as
    [content.length] counts.  Otherwise the page was sent and listed but
    not stored: the URL's cache entry is as it was before the stream,
    absent or empty. *)
Theorem C3_manifest_entries valid body env jobId polls w job :
  Js.truthy (FIRECRAWL_API_KEY env) = true →
  cacheService.getCrawlJob jobId w = Some job → live job →
  (∀ start us, urlMaps (Seed.POST valid body w).2 !! start = Some us →
     urlMaps w !! start = Some us
     ∨ ∀ u, u ∈ us → is_Some (cacheService.get u (Seed.POST valid body w).2))
  ∧ ∃ s, GET env jobId polls w = Some (Streamed s)
         ∧ ∀ start us, urlMaps (world s) !! start = Some us →
             urlMaps w !! start = Some us
             ∨ start = Job.url job ∧ us = urlsSent (out s)
               ∧ ∀ u, u ∈ us →
                   ∃ c cached,
                     msg_url_complete u c cached ∈ out s
                     ∧ if cached
                       then cacheService.get u w = Some c ∧ c ≠ ""
                            ∧ cacheService.get u (world s) = Some c
                       else Js.truthy (cacheService.get u w) = false
                            ∧ ((200 ≤ Js.length c)%nat →
                               cacheService.get u (world s) = Some c)
                            ∧ ((Js.length c < 200)%nat →
                               cacheService.get u (world s) = cacheService.get u w).
Proof.
  intros Hkey Hjob Hlive. split; [apply seed_POST_accounted|].
  destruct (GET_live_closed env jobId polls w job Hkey Hjob Hlive)
    as (s & before & m & HGET & Hout & Hclosing & _ & _ & Hmaps).
  destruct (GET_live_pages env jobId polls w job Hkey Hjob Hlive)
    as (s' & HGET' & Hmsgs & _).
  rewrite HGET in HGET'. injection HGET' as <-.
  exists s. split; [done|]. intros start us Hus. rewrite Hmaps in Hus.
  assert (urlsSent (out s) = urlsSent before) as Hsame.
  { rewrite Hout, urlsSent_app. destruct m; try done; cbn; by rewrite app_nil_r. }
  destruct (completes m && (0 <? length (urlsSent before))%nat); [|by left].
  destruct (decide (Job.url job = start)) as [<-|Hne].
  - rewrite lookup_insert_eq in Hus. injection Hus as <-. right.
    split; [done|]. split; [done|]. intros u Hu.
    rewrite <- Hsame in Hu. apply urlsSent_elem in Hu as (c & cached & Hm).
    exists c, cached. split; [done|]. by destruct (Hmsgs u c cached Hm) as [_ Hc].
  - rewrite lookup_insert_ne in Hus by done. by left.
Qed.

Lemma C3_witness :
  (∀ start us,
     urlMaps (Seed.POST docsOnly twoCandidates mixedWorld).2 !! start = Some us →
     urlMaps mixedWorld !! start = Some us
     ∨ ∀ u, u ∈ us →
         is_Some (cacheService.get u (Seed.POST docsOnly twoCandidates mixedWorld).2))
  ∧ ∃ s, GET statusEnv "job-7" fourPagePolls mixedWorld = Some (Streamed s)
         ∧ ∀ start us, urlMaps (world s) !! start = Some us →
             urlMaps mixedWorld !! start = Some us
             ∨ start = Job.url (Start.crawlingJob "job-7" "https://docs.example.com/" 10 0 None)
               ∧ us = urlsSent (out s)
               ∧ ∀ u, u ∈ us →
                   ∃ c cached,
                     msg_url_complete u c cached ∈ out s
                     ∧ if cached
                       then cacheService.get u mixedWorld = Some c ∧ c ≠ ""
                            ∧ cacheService.get u (world s) = Some c
                       else Js.truthy (cacheService.get u mixedWorld) = false
                            ∧ ((200 ≤ Js.length c)%nat →
                               cacheService.get u (world s) = Some c)
                            ∧ ((Js.length c < 200)%nat →
                               cacheService.get u (world s)
                               = cacheService.get u mixedWorld).
Proof.
  apply (C3_manifest_entries docsOnly twoCandidates statusEnv "job-7" fourPagePolls mixedWorld
           (Start.crawlingJob "job-7" "https://docs.example.com/" 10 0 None)).
  - reflexivity.
  - reflexivity.
  - by right.
Defined.

(** ** Provider errors at the start endpoint *)

(** X25. When the provider answers the start request with a non-2xx
    status, the handler answers with that same status and creates no
    job.  For 429, 403 and 5xx the error text is the handler's own,
    whatever the provider's body says; only a 5xx counts as a failure
    with the circuit breaker. *)
Theorem X25_start_passes_provider_status valid cfg env body w httpStatus payload :
  admitted valid cfg env body w → cacheHit body w = None →
  Start.fetched env = Start.NotOk httpStatus payload →
  let '(r, w') := Start.POST valid cfg env (Some body) w in
  r = Start.Failure httpStatus (Start.errorMessage httpStatus payload)
        (Start.errorDetails payload) None
  ∧ jobs w' = jobs w
  ∧ breaker w'
    = breaker (if 500 <=? httpStatus
               then cacheService.firecrawlCircuitBreaker.recordFailure cfg (Start.now env) w
               else w)
  ∧ (httpStatus = 429 →
     Start.errorMessage httpStatus payload
     = "Rate limit exceeded. Please try again in a few moments.")
  ∧ (httpStatus = 403 →
     Start.errorMessage httpStatus payload
     = "Access forbidden. The API key might be invalid.")
  ∧ (500 ≤ httpStatus →
     Start.errorMessage httpStatus payload = "Server error. Please try again later.").
Proof.
  intros Hadm Hmiss Hfetched.
  rewrite (start_POST_admitted valid cfg env body w Hadm), Hmiss.
  unfold Start.startRemote. rewrite Hfetched.
  split; [done|]. split; [by destruct (500 <=? httpStatus)|].
  split; [by destruct (500 <=? httpStatus)|].
  unfold Start.errorMessage. split; [by intros ->|]. split; [by intros ->|].
  intros Hfive.
  replace (httpStatus =? 429) with false by (symmetry; apply Z.eqb_neq; lia).
  replace (httpStatus =? 403) with false by (symmetry; apply Z.eqb_neq; lia).
  by replace (500 <=? httpStatus) with true by (symmetry; apply Z.leb_le; lia).
Qed.

Lemma X25_witness :
  let '(r, w') := Start.POST docsOnly breakerCfg paymentEnv (Some forcedBody)
                    (warmWorld breakerClosed) in
  r = Start.Failure 402
        (Start.errorMessage 402 (Start.Json "{}" (Some "Insufficient credits") None None))
        (Start.errorDetails (Start.Json "{}" (Some "Insufficient credits") None None)) None
  ∧ jobs w' = jobs (warmWorld breakerClosed)
  ∧ breaker w'
    = breaker (if 500 <=? 402
               then cacheService.firecrawlCircuitBreaker.recordFailure breakerCfg
                      (Start.now paymentEnv) (warmWorld breakerClosed)
               else warmWorld breakerClosed)
  ∧ (402 = 429 →
     Start.errorMessage 402 (Start.Json "{}" (Some "Insufficient credits") None None)
     = "Rate limit exceeded. Please try again in a few moments.")
  ∧ (402 = 403 →
     Start.errorMessage 402 (Start.Json "{}" (Some "Insufficient credits") None None)
     = "Access forbidden. The API key might be invalid.")
  ∧ (500 ≤ 402 →
     Start.errorMessage 402 (Start.Json "{}" (Some "Insufficient credits") None None)
     = "Server error. Please try again later.").
Proof.
  apply (X25_start_passes_provider_status docsOnly breakerCfg paymentEnv forcedBody
           (warmWorld breakerClosed) 402
           (Start.Json "{}" (Some "Insufficient credits") None None)).
  - repeat split; reflexivity.
  - reflexivity.
  - reflexivity.
Defined.

(** ** The result pages a stream stores *)

Lemma batches_S polls i :
  batches polls (S i) = batches polls i ++ option_list (batchOf (polls i)).
Proof.
  unfold batches. rewrite seq_S, omap_app. reflexivity.
Qed.

Lemma processPage_results s page :
  results (world (processPage s page)) = results (world s)
  ∧ lastPageNumber (processPage s page) = lastPageNumber s.
Proof. unfold processPage. repeat case_match; by split. Qed.

Lemma processPages_results batch :
  ∀ s, results (world (fold_left processPage batch s)) = results (world s)
       ∧ lastPageNumber (fold_left processPage batch s) = lastPageNumber s.
Proof.
  induction batch as [|page batch IH]; intros s; [done|].
  cbn [fold_left]. destruct (IH (processPage s page)) as [-> ->].
  apply processPage_results.
Qed.

Lemma ingest_results jobId data s :
  match d_data data with
  | Some batch =>
      results (world (ingest jobId data s))
      = <[(jobId, lastPageNumber s) := batch]> (results (world s))
      ∧ lastPageNumber (ingest jobId data s) = (lastPageNumber s + 1)%N
  | None =>
      results (world (ingest jobId data s)) = results (world s)
      ∧ lastPageNumber (ingest jobId data s) = lastPageNumber s
  end.
Proof.
  unfold ingest. destruct (d_data data) as [batch|].
  - cbn [world lastPageNumber set_lastPageNumber].
    match goal with |- context [fold_left processPage batch ?x] =>
      destruct (processPages_results batch x) as [-> ->] end.
    by destruct (_ && _).
  - by destruct (_ && _).
Qed.

Lemma conclude_results jobId startUrl startTime data s :
  results (world (conclude jobId startUrl startTime data s)) = results (world s)
  ∧ lastPageNumber (conclude jobId startUrl startTime data s) = lastPageNumber s.
Proof. unfold conclude. repeat case_match; by split. Qed.

(** A turn stores the batch it receives under the next page number. *)
Lemma iteration_results jobId startUrl startTime p s :
  let s' := iteration jobId startUrl startTime p s in
  match batchOf p with
  | Some batch =>
      results (world s') = <[(jobId, lastPageNumber s) := batch]> (results (world s))
      ∧ lastPageNumber s' = (lastPageNumber s + 1)%N
  | None =>
      results (world s') = results (world s) ∧ lastPageNumber s' = lastPageNumber s
  end.
Proof.
  unfold iteration, batchOf.
  set (s1 := elapse _ (on_world _ s)).
  assert (results (world s1) = results (world s)
          ∧ lastPageNumber s1 = lastPageNumber s) as [Hr Hl] by done.
  clearbody s1. rewrite <- Hr, <- Hl.
  assert (∀ x, results (world (wait x)) = results (world x)
               ∧ lastPageNumber (wait x) = lastPageNumber x) as Hwait
    by (intros x; unfold wait; by destruct (negb _)).
  cbv zeta. match goal with |- context [wait ?x] => destruct (Hwait x) as [-> ->] end.
  destruct (fetched p) as [message|data|httpStatus].
  - unfold onThrow. by repeat case_match.
  - unfold onData.
    assert (∀ x, results (world (if Js.truthy (d_next data)
                                 then set_jobNext (d_next data) x else x))
                 = results (world x)
                 ∧ lastPageNumber (if Js.truthy (d_next data)
                                   then set_jobNext (d_next data) x else x)
                   = lastPageNumber x) as Hnext
      by (intros x; by destruct (Js.truthy _)).
    match goal with |- context [if Js.truthy _ then set_jobNext _ ?x else _] =>
      destruct (Hnext x) as [-> ->] end.
    match goal with |- context [conclude ?a ?b ?c ?d ?x] =>
      destruct (conclude_results a b c d x) as [-> ->] end.
    cbn [world lastPageNumber elapse]. apply ingest_results.
  - unfold onErrorResponse. by repeat case_match.
Qed.

Lemma resultsInvariant_iteration jobId startUrl startTime polls w0 i s :
  resultsInvariant jobId polls w0 i s →
  resultsInvariant jobId polls w0 (S i) (iteration jobId startUrl startTime (polls i) s).
Proof.
  intros (Hlast & Hstored & Hframe).
  pose proof (iteration_results jobId startUrl startTime (polls i) s) as Hstep.
  cbv zeta in Hstep. unfold resultsInvariant. rewrite batches_S.
  destruct (batchOf (polls i)) as [batch|]; destruct Hstep as [Hr Hl]; rewrite Hr, Hl, Hlast;
    cbn [option_list].
  - change (option_list (Some batch)) with [batch].
    rewrite length_app. cbn [length]. split; [lia|]. split.
    + intros n b Hn. apply lookup_app_Some in Hn as [Hn|[Hlen Hn]].
      * rewrite lookup_insert_ne; [by apply Hstored|].
        apply lookup_lt_Some in Hn. intros [= H]. lia.
      * destruct (n - length (batches polls i))%nat eqn:Hd; [|done].
        injection Hn as <-. assert (n = length (batches polls i)) as -> by lia.
        apply lookup_insert_eq.
    + intros j n Hjn. rewrite lookup_insert_ne; [apply Hframe|].
      * destruct Hjn as [|Hn]; [by left|right; lia].
      * intros [= <- <-]. destruct Hjn as [|Hn]; [done|lia].
  - change (option_list None) with (@nil (list Page)).
    rewrite app_nil_r. by repeat split.
Qed.

(** X26. A polled job's stream stores every batch of pages it receives:
    the batches brought by the polls it made are in the result store
    under the job's page numbers 0, 1, 2, ... in order of arrival, none
    overwritten by a later one.  Result pages of other jobs, and higher
    page numbers of this job, are as they were. *)
Theorem X26_result_pages_round_trip env jobId polls w job :
  Js.truthy (FIRECRAWL_API_KEY env) = true →
  cacheService.getCrawlJob jobId w = Some job → live job →
  ∃ s made,
    GET env jobId polls w = Some (Streamed s)
    ∧ length (calls (world s)) = (made + length (calls w))%nat
    ∧ lastPageNumber s = N.of_nat (length (batches polls made))
    ∧ (∀ n batch, batches polls made !! n = Some batch →
                  results (world s) !! (jobId, N.of_nat n) = Some batch)
    ∧ (∀ j n, j ≠ jobId ∨ (N.of_nat (length (batches polls made)) ≤ n)%N →
              results (world s) !! (j, n) = results w !! (j, n)).
Proof.
  intros Hkey Hjob Hlive. rewrite (GET_live env jobId polls w job Hkey Hjob Hlive).
  unfold poll.
  destruct (pollLoop_total jobId (Job.url job) (now env) polls enoughFuel 0
              (initial (now env) job w)) as [s Hloop].
  { cbn. unfold maxPollingTime, pollInterval, enoughFuel. lia. }
  rewrite Hloop. cbn [mbind option_bind fmap option_fmap option_map].
  destruct (pollLoop_invariant
              (λ i s, callsInvariant jobId job w (now env) i s
                      ∧ resultsInvariant jobId polls w i s)
              jobId (Job.url job) (now env) polls) with (fuel := enoughFuel) (i := 0%nat)
              (s := initial (now env) job w) (s' := s) as [[k [Hcalls Hinv]] _].
  - intros i s0 [Hc Hr] Hlive0 Hguard.
    split; [by apply callsInvariant_iteration|by apply resultsInvariant_iteration].
  - split.
    + exists []. cbn. unfold pollInterval. repeat split; try done; try lia.
    + unfold resultsInvariant. cbn. by repeat split.
  - done.
  - destruct Hcalls as (gets & Hgets & Hlen & _).
    destruct Hinv as (Hlast & Hstored & Hframe).
    eexists _, k. split; [reflexivity|].
    assert (∀ m, world (if negb (isComplete s) then enqueue m s else s) = world s
                 ∧ lastPageNumber (if negb (isComplete s) then enqueue m s else s)
                   = lastPageNumber s) as Hclose
      by (intros m; by destruct (negb _)).
    match goal with |- context [enqueue ?m s] => destruct (Hclose m) as [-> ->] end.
    rewrite Hgets, length_app, Hlen. by repeat split.
Qed.

Lemma X26_witness :
  ∃ s made,
    GET statusEnv "job-7" stubPolls liveWorld = Some (Streamed s)
    ∧ length (calls (world s)) = (made + length (calls liveWorld))%nat
    ∧ lastPageNumber s = N.of_nat (length (batches stubPolls made))
    ∧ (∀ n batch, batches stubPolls made !! n = Some batch →
                  results (world s) !! ("job-7", N.of_nat n) = Some batch)
    ∧ (∀ j n, j ≠ "job-7" ∨ (N.of_nat (length (batches stubPolls made)) ≤ n)%N →
              results (world s) !! (j, n) = results liveWorld !! (j, n)).
Proof.
  apply (X26_result_pages_round_trip statusEnv "job-7" stubPolls liveWorld
           (Start.crawlingJob "job-7" "https://docs.example.com/" 10 0 None)).
  - reflexivity.
  - reflexivity.
  - left. discriminate.
Defined.

(** ** A crawl followed by a start request *)

(** X27. A crawl pays for the next one.  When a polled job's stream
    ends with [complete] after sending pages, and each of the first three
    pages sent came from the cache or had a [length] of at least 200, then
    a later start request for the job's URL, with [force] unset and let
    through by the breaker, is answered from the cache: no request goes
    to the provider, and the new job's [crawledUrls] are the URLs the
    stream sent. *)
Theorem X27_crawl_then_start_is_free valid cfg env startEnv' jobId polls w job body :
  Js.truthy (FIRECRAWL_API_KEY env) = true →
  cacheService.getCrawlJob jobId w = Some job → live job →
  admitted valid cfg startEnv' body w →
  Start.b_url body = Job.url job → Start.b_force body = false →
  ∃ s, GET env jobId polls w = Some (Streamed s)
       ∧ ((∃ total credits, last (out s) = Some (msg_complete total credits)) →
          urlsSent (out s) ≠ [] →
          (∀ u c cached, msg_url_complete u c cached ∈ out s →
                         u ∈ take 3 (urlsSent (out s)) →
                         cached = true ∨ (200 ≤ Js.length c)%nat) →
          ∃ limit w2,
            Start.POST valid cfg startEnv' (Some body) (world s)
              = (Start.Success (Start.randomUUID startEnv') (Job.url job) limit true, w2)
            ∧ calls w2 = calls (world s)
            ∧ Job.crawledUrls <$> cacheService.getCrawlJob (Start.randomUUID startEnv') w2
              = Some (Some (urlsSent (out s)))).
Proof.
  intros Hkey Hjob Hlive (Hskey & Hvalid & Hcan) Hurl Hforce.
  destruct (GET_live_closed env jobId polls w job Hkey Hjob Hlive)
    as (s & before & m & HGET & Hout & Hclosing & _ & _ & Hmaps).
  destruct (GET_live_pages env jobId polls w job Hkey Hjob Hlive)
    as (s' & HGET' & Hmsgs & _).
  rewrite HGET in HGET'. injection HGET' as <-.
  destruct (GET_live_calls env jobId polls w job Hkey Hjob Hlive)
    as (s' & gets & HGET' & _ & _ & _ & _ & Hbreaker).
  rewrite HGET in HGET'. injection HGET' as <-.
  exists s. split; [done|]. intros (total & credits & Hlast) Hsent Hfirst.
  assert (urlsSent (out s) = urlsSent before) as Hsame.
  { rewrite Hout, urlsSent_app. destruct m; try done; cbn; by rewrite app_nil_r. }
  rewrite Hout, last_snoc in Hlast. injection Hlast as ->.
  rewrite <- Hsame in Hmaps. cbn [completes andb] in Hmaps.
  destruct (urlsSent (out s)) as [|u0 us] eqn:Hus; [done|]. cbn [length Nat.ltb Nat.leb] in Hmaps.
  rewrite <- Hus in *.
  assert (warm (Start.b_url body) (urlsSent (out s)) (world s)) as Hwarm.
  { split; [unfold cacheService.getCrawlUrlMap; rewrite Hmaps, Hurl; apply lookup_insert_eq|].
    split; [by rewrite Hus|].
    intros u Hu. assert (u ∈ urlsSent (out s)) as Hin.
    { apply elem_of_take in Hu as (i & Hi & _). by eapply list_elem_of_lookup_2. }
    apply urlsSent_elem in Hin as (c & cached & Hm).
    destruct (Hmsgs u c cached Hm) as [_ Hc].
    destruct (Hfirst u c cached Hm Hu) as [->|Hlen].
    - destruct Hc as (_ & _ & Hc). exists c. exact Hc.
    - destruct cached.
      + destruct Hc as (_ & _ & Hc). exists c. exact Hc.
      + destruct Hc as (_ & Hc & _). exists c. by apply Hc. }
  assert (admitted valid cfg startEnv' body (world s)) as Hadm.
  { split; [done|]. split; [done|].
    unfold cacheService.firecrawlCircuitBreaker.canRequest in *. by rewrite Hbreaker. }
  do 2 eexists.
  rewrite (start_POST_cache_hit _ _ _ _ _ (urlsSent (out s))) by done. cbv zeta.
  rewrite Hurl. split; [reflexivity|]. split; [done|].
  unfold cacheService.getCrawlJob, cacheService.setCrawlJob, set_jobs. cbn [jobs].
  by rewrite lookup_insert_eq.
Qed.

Lemma knownPagePolls_run :
  ∃ s, GET statusEnv "job-7" knownPagePolls mixedWorld = Some (Streamed s)
       ∧ out s = [msg_status "completed"; msg_progress 1 1 (Some 1%N);
                  msg_url_complete "https://docs.example.com/a" "# A" true;
                  msg_complete 1 1].
Proof. eexists. split; [vm_compute; reflexivity|]. reflexivity. Qed.

Lemma X27_witness :
  ∃ s, GET statusEnv "job-7" knownPagePolls mixedWorld = Some (Streamed s)
       ∧ ((∃ total credits, last (out s) = Some (msg_complete total credits)) →
          urlsSent (out s) ≠ [] →
          (∀ u c cached, msg_url_complete u c cached ∈ out s →
                         u ∈ take 3 (urlsSent (out s)) →
                         cached = true ∨ (200 ≤ Js.length c)%nat) →
          ∃ limit w2,
            Start.POST docsOnly breakerCfg startEnv (Some startBody) (world s)
              = (Start.Success (Start.randomUUID startEnv)
                   (Job.url (Start.crawlingJob "job-7" "https://docs.example.com/" 10 0 None))
                   limit true, w2)
            ∧ calls w2 = calls (world s)
            ∧ Job.crawledUrls <$> cacheService.getCrawlJob (Start.randomUUID startEnv) w2
              = Some (Some (urlsSent (out s)))).
Proof.
  apply (X27_crawl_then_start_is_free docsOnly breakerCfg statusEnv startEnv "job-7"
           knownPagePolls mixedWorld
           (Start.crawlingJob "job-7" "https://docs.example.com/" 10 0 None) startBody).
  - reflexivity.
  - reflexivity.
  - left. discriminate.
  - repeat split; reflexivity.
  - reflexivity.
  - reflexivity.
Defined.
